(** * GEXtool: tiling and transparency detection

    A shallow embedding of [main.py] (GEXtool, the GeoTIFF extraction tool)
    and the properties of its specification.

    The program is a Python script over Pillow images, the file system and
    two external GDAL commands.  Its functions are embedded as computations
    in a small monad that threads a [world] (file system, standard output,
    the global [debug] flag) and may raise a Python exception.  What Pillow,
    [os] and [os.path] do is modelled in the modules [Py], [Image] and [OS];
    the functions of the script itself follow the source line by line. *)

From Stdlib Require Import ZArith List String Ascii Bool Lia.
From Stdlib Require Import DecimalString DecimalZ DecimalPos.
From stdpp Require Import gmap strings.
Import ListNotations.

Local Open Scope string_scope.
Local Open Scope Z_scope.
Local Open Scope list_scope.

(** ** Python values and built-ins *)

Module Py.

(** The exceptions that the modelled calls can raise. *)
Inductive exn :=
| ValueError | TypeError | IndexError | OverflowError
| FileNotFoundError | FileExistsError | NotADirectoryError
| IsADirectoryError | UnidentifiedImageError | SystemError.

Inductive result (A : Type) :=
| Ok (a : A)
| Raise (e : exn).
Arguments Ok {A} a.
Arguments Raise {A} e.

(** [str(n)] for an integer. *)
Definition str (n : Z) : string := NilZero.string_of_int (Z.to_int n).

Fixpoint zeros (n : nat) : string :=
  match n with
  | O => ""
  | S k => String "0" (zeros k)
  end.

(** [f'{s:0>w}']: right-aligned in a field of width [w], filled with the
    character 0; a longer text is kept whole. *)
Definition rjust0 (w : nat) (s : string) : string :=
  zeros (w - String.length s) +:+ s.

(** [f'{n:0>4}'] *)
Definition format_0_4 (n : Z) : string := rjust0 4 (str n).

(** [s.split(sep)[0]]: the text before the first [sep], all of [s] when
    there is none. *)
Fixpoint split0 (sep : ascii) (s : string) : string :=
  match s with
  | EmptyString => EmptyString
  | String c r => if Ascii.eqb c sep then EmptyString else String c (split0 sep r)
  end.

Fixpoint drop (n : nat) (s : string) : string :=
  match n, s with
  | O, _ => s
  | S k, String _ r => drop k r
  | S _, EmptyString => EmptyString
  end.

(** [s.endswith(suffix)] *)
Definition endswith (s suffix : string) : bool :=
  (String.length suffix <=? String.length s)%nat
  && String.eqb (drop (String.length s - String.length suffix) s) suffix.

Definition startswith (s pre : string) : bool := String.prefix pre s.

(** [c in s] for a character [c]. *)
Definition contains (c : ascii) (s : string) : bool :=
  existsb (Ascii.eqb c) (list_ascii_of_string s).

(** [range(n)] as a list of integers, for counting up. *)
Definition upto (n : Z) : list Z := map Z.of_nat (seq 0 (Z.to_nat n)).

(** [len(range(0, stop, step))], as CPython computes it. *)
Definition range_len (stop step : Z) : Z :=
  if (0 <? step) && (0 <? stop) then (stop - 1) / step + 1
  else if (step <? 0) && (stop <? 0) then (- stop - 1) / (- step) + 1
  else 0.

(** The items of [range(0, stop, step)]. *)
Definition range_items (stop step : Z) : list Z :=
  map (fun k => k * step) (upto (range_len stop step)).

(** [range(0, stop, step)]; a step of 0 raises [ValueError]. *)
Definition range0 (stop step : Z) : result (list Z) :=
  if step =? 0 then Raise ValueError else Ok (range_items stop step).

(** [os.path.join(a, b)] on a POSIX system. *)
Definition path_join (a b : string) : string :=
  if startswith b "/" then b
  else if String.eqb a "" || endswith a "/" then a +:+ b
  else a +:+ "/" +:+ b.

End Py.
Export Py.

(** ** Pillow images *)

Module Image.

(** A pixel as [getdata()] yields it: an integer for a single-band image,
    a tuple of integers for a multi-band one.  The images that [cut_tiles]
    opens are PNG files, whose modes (1, L, LA, P, RGB, RGBA, I;16) have
    integer bands only; the floating-point mode F is left out. *)
Inductive pixel :=
| PInt (v : Z)
| PTuple (vs : list Z).

(** What [info["transparency"]] may hold: a palette index, or the alpha
    table of the palette as bytes, or the colour key of an RGB image. *)
Inductive info_value :=
| VInt (z : Z)
| VBytes (b : list Z)
| VTuple (t : list Z).

Record image := mkImage {
  mode : string;
  bands : nat;
  width : Z;
  height : Z;
  transparency : option info_value;   (* info.get("transparency") *)
  getdata : list pixel                (* row by row *)
}.

Definition size (img : image) : Z * Z := (width img, height img).

(** [pixel == 0] in Python: a tuple never equals an integer. *)
Definition pixel_is_zero (p : pixel) : bool :=
  match p with
  | PInt v => v =? 0
  | PTuple _ => false
  end.

(** [index == transparent] for an integer [index]. *)
Definition int_eq_value (index : Z) (v : info_value) : bool :=
  match v with
  | VInt z => index =? z
  | VBytes _ | VTuple _ => false
  end.

(** [img.info.get("transparency", default)] *)
Definition info_get_transparency (img : image) (default : info_value) : info_value :=
  match transparency img with
  | Some v => v
  | None => default
  end.

Definition count_index (i : Z) (data : list pixel) : Z :=
  Z.of_nat (List.length (List.filter (fun p => match p with PInt v => v =? i | PTuple _ => false end) data)).

(** [img.getcolors()] of an 8-bit single-band image (modes 1, L and P):
    [[(h[i], i) for i in range(256) if h[i]]] over the histogram [h]. *)
Definition getcolors (img : image) : list (Z * Z) :=
  List.filter (fun ci => negb (fst ci =? 0))
              (map (fun i => (count_index i (getdata img), i)) (upto 256)).

(** The value of band [i] of a pixel. *)
Definition band_value (i : nat) (p : pixel) : Z :=
  match p with
  | PInt v => v
  | PTuple vs => nth i vs 0
  end.

(** [(min, max)] of a band; an image without pixels has no extrema and
    Pillow answers [None]. *)
Definition extrema_of (vals : list Z) : option (Z * Z) :=
  match vals with
  | [] => None
  | v :: r => Some (fold_left Z.min r v, fold_left Z.max r v)
  end.

Inductive extrema :=
| ExBand (e : option (Z * Z))            (* single band: (min, max) or None *)
| ExBands (es : list (option (Z * Z))).  (* one entry per band *)

(** [img.getextrema()] *)
Definition getextrema (img : image) : extrema :=
  if (1 <? bands img)%nat then
    ExBands (map (fun i => extrema_of (map (band_value i) (getdata img)))
                 (seq 0 (bands img)))
  else ExBand (extrema_of (map (band_value 0) (getdata img))).

(** [extrema[3][0]]: indexing [None] is a [TypeError], a missing entry an
    [IndexError], an integer (the 4th entry does not exist in a pair) an
    [IndexError] as well. *)
Definition extrema_3_0 (e : extrema) : result Z :=
  match e with
  | ExBands es =>
      match nth_error es 3 with
      | Some (Some (lo, _)) => Ok lo
      | Some None => Raise TypeError
      | None => Raise IndexError
      end
  | ExBand (Some _) => Raise IndexError
  | ExBand None => Raise TypeError
  end.

(** The pixel a fresh image is filled with. *)
Definition zero_pixel (img : image) : pixel :=
  if (1 <? bands img)%nat then PTuple (repeat 0 (bands img)) else PInt 0.

(** The pixel at column [x] and row [y], the fill pixel outside the image. *)
Definition pixel_at (img : image) (x y : Z) : pixel :=
  if (0 <=? x) && (x <? width img) && (0 <=? y) && (y <? height img)
  then nth (Z.to_nat (y * width img + x)) (getdata img) (zero_pixel img)
  else zero_pixel img.

(** The image that [img.crop(box)] returns.  It has the size of the box,
    also where the box leaves the image: those pixels are zero.  The mode,
    the palette and [info] are those of the source.  (Pillow's limit on the
    number of pixels of an image is not modelled.) *)
Definition cropped (img : image) (box : Z * Z * Z * Z) : image :=
  let '(x0, y0, x1, y1) := box in
  {| mode := mode img;
     bands := bands img;
     width := x1 - x0;
     height := y1 - y0;
     transparency := transparency img;
     getdata :=
       flat_map (fun j => map (fun i => pixel_at img (x0 + i) (y0 + j))
                              (upto (x1 - x0)))
                (upto (y1 - y0)) |}.

(** [img.crop((x0, y0, x1, y1))]; a box with [x1 < x0] or [y1 < y0]
    raises [ValueError]. *)
Definition crop (img : image) (box : Z * Z * Z * Z) : result image :=
  let '(x0, y0, x1, y1) := box in
  if x1 <? x0 then Raise ValueError
  else if y1 <? y0 then Raise ValueError
  else Ok (cropped img box).

(** A pixel of an image with [n] bands. *)
Definition pixel_ok (md : string) (n : nat) (p : pixel) : Prop :=
  match p with
  | PInt v => n = 1%nat /\ (md = "P" -> 0 <= v < 256)
  | PTuple vs => (1 < n)%nat /\ List.length vs = n
  end.

(** What every Pillow image satisfies: the data fill the size, the pixels
    fit the bands, a palette image has one 8-bit band and an RGBA image
    four bands. *)
Record wf (img : image) : Prop := {
  wf_bands : (1 <= bands img)%nat;
  wf_width : 0 <= width img;
  wf_height : 0 <= height img;
  wf_length : Z.of_nat (List.length (getdata img)) = width img * height img;
  wf_pixels : Forall (pixel_ok (mode img) (bands img)) (getdata img);
  wf_P : mode img = "P" -> bands img = 1%nat;
  wf_RGBA : mode img = "RGBA" -> bands img = 4%nat
}.

End Image.
Export Image.

(** ** The world: file system, standard output, the [debug] global *)

Module OS.

(** A file holds an image that Pillow can decode, or anything else. *)
Inductive payload :=
| Png (img : image)
| Blob.

Inductive node :=
| Dir
| File (c : payload).

(** The file system is a table from path names, as the program writes
    them, to nodes; a relative path is relative to the working directory,
    whose own name is the empty text. *)
Record world := mkWorld {
  fs : gmap string node;
  stdout : list string;
  debug : bool
}.

Definition set_fs (f : gmap string node) (w : world) : world :=
  {| fs := f; stdout := stdout w; debug := debug w |}.

(** A computation reads and changes the world and returns or raises;
    what it did before raising stays done. *)
Definition M (A : Type) : Type := world -> result A * world.

Definition ret {A} (a : A) : M A := fun w => (Ok a, w).

Definition bind {A B} (c : M A) (k : A -> M B) : M B :=
  fun w => match c w with
           | (Ok a, w') => k a w'
           | (Raise e, w') => (Raise e, w')
           end.

Definition raise {A} (e : exn) : M A := fun w => (Raise e, w).

Definition lift {A} (r : result A) : M A := fun w => (r, w).

(** The world after a line was printed. *)
Definition say (line : string) (w : world) : world :=
  {| fs := fs w; stdout := stdout w ++ [line]; debug := debug w |}.

Definition print (line : string) : M unit := fun w => (Ok tt, say line w).

Definition get_debug : M bool := fun w => (Ok (debug w), w).

Definition when (b : bool) (c : M unit) : M unit := if b then c else ret tt.

Definition has_slash (s : string) : bool := contains "/" s.

Fixpoint before_last_slash (p : string) : string :=
  match p with
  | EmptyString => EmptyString
  | String c r => if has_slash r then String c (before_last_slash r) else EmptyString
  end.

(** The directory an entry lives in: the text before the last slash of
    its path, the root for an entry of the root, the empty text (the
    working directory) for a bare name. *)
Definition parent (p : string) : string :=
  let d := before_last_slash p in
  if String.eqb d "" && startswith p "/" then "/" else d.

Definition is_dir (f : gmap string node) (p : string) : bool :=
  match f !! p with Some Dir => true | _ => false end.

Definition dir_exists (f : gmap string node) (p : string) : bool :=
  String.eqb p "/" || is_dir f p.

(** Whether an entry can be created at [p]: its directory is there. *)
Definition parent_exists (f : gmap string node) (p : string) : bool :=
  String.eqb (parent p) "" || dir_exists f (parent p).

(** [os.path.isdir] and [os.path.isfile] *)
Definition isdir (p : string) : M bool := fun w => (Ok (dir_exists (fs w) p), w).

Definition is_file (f : gmap string node) (p : string) : bool :=
  match f !! p with Some (File _) => true | _ => false end.

Definition isfile (p : string) : M bool := fun w => (Ok (is_file (fs w) p), w).

(** Whether the way to [p] leads through a file: a part of [p] that ends
    before a slash is the path of a file; [acc] is the part of the path
    already walked. *)
Fixpoint through_file (f : gmap string node) (acc p : string) : bool :=
  match p with
  | EmptyString => false
  | String c r =>
      (Ascii.eqb c "/" && is_file f acc) || through_file f (acc +:+ String c "") r
  end.

(** The exception for a path that cannot be reached: [NotADirectoryError]
    when the way to it leads through a file, [FileNotFoundError] otherwise. *)
Definition missing_error (f : gmap string node) (p : string) : exn :=
  if through_file f "" p then NotADirectoryError else FileNotFoundError.

(** [os.mkdir]: raises when the path exists or its directory does not. *)
Definition mkdir (p : string) : M unit :=
  fun w =>
    match fs w !! p with
    | Some _ => (Raise FileExistsError, w)
    | None =>
        if String.eqb p "" || negb (parent_exists (fs w) p)
        then (Raise (missing_error (fs w) p), w)
        else (Ok tt, set_fs (<[p := Dir]> (fs w)) w)
    end.

Fixpoint strip_prefix (pre s : string) : option string :=
  match pre, s with
  | EmptyString, _ => Some s
  | String a pre', String b s' => if Ascii.eqb a b then strip_prefix pre' s' else None
  | String _ _, EmptyString => None
  end.

(** The name of the entry [key] inside the directory [p], if it is one. *)
Definition child_of (p key : string) : option string :=
  match strip_prefix (path_join p "") key with
  | Some n =>
      if String.eqb n "" || has_slash n then None else Some n
  | None => None
  end.

(** [os.listdir]; the names come in the order of the table, where Python
    promises no order. *)
Definition listdir (p : string) : M (list string) :=
  fun w =>
    if dir_exists (fs w) p
    then (Ok (omap (fun kv => child_of p (fst kv)) (map_to_list (fs w))), w)
    else (Raise match fs w !! p with
                | Some _ => NotADirectoryError
                | None => missing_error (fs w) p
                end, w).

(** [os.remove] *)
Definition remove (p : string) : M unit :=
  fun w =>
    match fs w !! p with
    | Some (File _) => (Ok tt, set_fs (delete p (fs w)) w)
    | Some Dir => (Raise IsADirectoryError, w)
    | None => (Raise (missing_error (fs w) p), w)
    end.

(** [Image.open(path)], with the image loaded. *)
Definition Image_open (p : string) : M image :=
  fun w =>
    match fs w !! p with
    | Some (File (Png img)) => (Ok img, w)
    | Some (File Blob) => (Raise UnidentifiedImageError, w)
    | Some Dir => (Raise IsADirectoryError, w)
    | None => (Raise (missing_error (fs w) p), w)
    end.

(** Writing the file of an encoded image at [p]. *)
Definition write_image (p : string) (img : image) : M unit :=
  fun w =>
    match fs w !! p with
    | Some Dir => (Raise IsADirectoryError, w)
    | _ =>
        if parent_exists (fs w) p
        then (Ok tt, set_fs (<[p := File (Png img)]> (fs w)) w)
        else (Raise (missing_error (fs w) p), w)
    end.

End OS.
Export OS.

Declare Scope gex_scope.
Notation "x <- c ;; k" := (bind c (fun x => k))
  (at level 100, c at next level, right associativity) : gex_scope.
Notation "c ;; k" := (bind c (fun _ => k))
  (at level 100, right associativity) : gex_scope.
Local Open Scope gex_scope.

(** A [for] loop whose body may [return]: [Some r] is a return from the
    enclosing function, [None] means the loop ran to its end. *)
Fixpoint for_return {A R} (l : list A) (body : A -> M (option R)) : M (option R) :=
  match l with
  | [] => ret None
  | a :: rest =>
      r <- body a ;;
      match r with
      | Some v => ret (Some v)
      | None => for_return rest body
      end
  end.

(** A [for] loop over [l] that carries the local variables [s]. *)
Fixpoint for_each {A S} (l : list A) (body : A -> S -> M S) (s : S) : M S :=
  match l with
  | [] => ret s
  | a :: rest => s' <- body a s ;; for_each rest body s'
  end.

(** ** The script *)

Definition converted_suffix : string := "_GEXD".
Definition converted_format : string := "png".
Definition tile_format : string := "png".

(** [has_transparency(img)] *)
Definition has_transparency (img : image) : M bool :=
  let pixels := getdata img in
  r <- (if String.eqb (mode img) "P" then
          let transparent := info_get_transparency img (VInt (-1)) in
          for_return (getcolors img) (fun ci =>
            let index := snd ci in
            if int_eq_value index transparent then
              print "Transparency detected in tile. P-mode detected." ;;
              ret (Some true)
            else ret None)
        else if String.eqb (mode img) "RGBA" then
          let extrema := getextrema img in
          lo <- lift (extrema_3_0 extrema) ;;
          if lo <? 255 then
            print "Transparency detected in tile. RGBA image detected." ;;
            ret (Some true)
          else ret None
        else ret None) ;;
  match r with
  | Some b => ret b
  | None =>
      r' <- for_return pixels (fun pixel =>
              if pixel_is_zero pixel then
                print "Transparency detected in tile. 0-value pixel detected." ;;
                ret (Some true)
              else ret None) ;;
      match r' with
      | Some b => ret b
      | None =>
          print "Transparency NOT detected in tile." ;;
          ret false
      end
  end.

(** What a call of [has_transparency] comes to: the value returned and the
    line printed, or the exception. *)
Definition fallback_verdict (img : image) : bool * string :=
  if existsb pixel_is_zero (getdata img)
  then (true, "Transparency detected in tile. 0-value pixel detected.")
  else (false, "Transparency NOT detected in tile.").

Definition verdict (img : image) : result (bool * string) :=
  if String.eqb (mode img) "P" then
    if existsb (fun ci => int_eq_value (snd ci) (info_get_transparency img (VInt (-1))))
               (getcolors img)
    then Ok (true, "Transparency detected in tile. P-mode detected.")
    else Ok (fallback_verdict img)
  else if String.eqb (mode img) "RGBA" then
    match extrema_3_0 (getextrema img) with
    | Raise e => Raise e
    | Ok lo =>
        if lo <? 255
        then Ok (true, "Transparency detected in tile. RGBA image detected.")
        else Ok (fallback_verdict img)
    end
  else Ok (fallback_verdict img).

(** The pattern that [convert_geotiff] searches for: [Max=], then two
    numbers separated by a comma, each of them digits, a dot and digits
    (either run of digits may be empty); the numbers are groups 1 and 2. *)
Module Re.

Definition is_digit (c : ascii) : bool :=
  (48 <=? nat_of_ascii c)%nat && (nat_of_ascii c <=? 57)%nat.

(** The longest run of digits at the head of [s], and what follows. *)
Fixpoint span_digits (s : string) : string * string :=
  match s with
  | EmptyString => (EmptyString, EmptyString)
  | String c r =>
      if is_digit c
      then let '(d, rest) := span_digits r in (String c d, rest)
      else (EmptyString, s)
  end.

(** [[0-9]*[.][0-9]*] at the head of [s]: the text matched and the rest. *)
Definition match_number (s : string) : option (string * string) :=
  let '(d1, r1) := span_digits s in
  match strip_prefix "." r1 with
  | Some r2 => let '(d2, r3) := span_digits r2 in Some (d1 +:+ "." +:+ d2, r3)
  | None => None
  end.

(** The pattern matched at the head of [s]: groups 1 and 2. *)
Definition match_here (s : string) : option (string * string) :=
  match strip_prefix "Max=" s with
  | Some r0 =>
      match match_number r0 with
      | Some (g1, r1) =>
          match strip_prefix "," r1 with
          | Some r2 =>
              match match_number r2 with
              | Some (g2, _) => Some (g1, g2)
              | None => None
              end
          | None => None
          end
      | None => None
      end
  | None => None
  end.

(** [re.search(pattern, s)]: the leftmost match. *)
Fixpoint search (s : string) : option (string * string) :=
  match match_here s with
  | Some g => Some g
  | None =>
      match s with
      | EmptyString => None
      | String _ r => search r
      end
  end.

End Re.

(** The box that [cut_tiles] crops at the origin [(x, y)]:
    [(x, y, x + (tile_size - 1), y + (tile_size - 1))]. *)
Definition crop_box (tile_size x y : Z) : Z * Z * Z * Z :=
  (x, y, x + (tile_size - 1), y + (tile_size - 1)).

(** The name [cut_tiles] gives the tile at [(x, y)], without directory and
    extension: [x_f], [y_f], [suffix] and [tile_name] of the source. *)
Definition tile_name (filename : string) (x y : Z) : string :=
  let x_f := format_0_4 x in
  let y_f := format_0_4 y in
  let suffix := "_" +:+ x_f +:+ "_" +:+ y_f in
  split0 "." filename +:+ suffix.

Definition tile_path (filename output_dir : string) (x y : Z) : string :=
  path_join output_dir (tile_name filename x y +:+ "." +:+ tile_format).

(** An image without pixels: its width or its height is 0. *)
Definition empty_image (img : image) : bool :=
  (width img =? 0) || (height img =? 0).

Section Script.

(** Pillow's PNG encoder: the exception it raises on an image that has
    pixels, if any (a mode that PNG cannot hold, for instance). *)
Variable png_encode_error : image -> option exn.

(** [os.popen(cmd).read()]: the text the command prints and the file
    system it leaves behind. *)
Variable run_command : string -> gmap string node -> string * gmap string node.

(** [math.floor(float(text))] on a text other than a lone dot; [float]
    raises [ValueError] on a text that is no number, [math.floor] raises
    [OverflowError] on an infinity. *)
Variable floor_float : string -> result Z.

(** [img.resize((w, h))] *)
Variable resize : image -> Z * Z -> result image.

(** [math.floor(float(text))]: a lone dot, which the pattern of
    [convert_geotiff] takes for a number, is none, and [float] raises
    [ValueError] on it. *)
Definition math_floor_float (text : string) : result Z :=
  if String.eqb text "." then Raise ValueError else floor_float text.

Definition popen_read (cmd : string) : M string :=
  fun w => let '(out, f) := run_command cmd (fs w) in (Ok out, set_fs f w).

(** [img.save(path)]: the file is opened for writing, then encoded; an
    image without pixels is refused with [ValueError] ("cannot write empty
    image"), whatever the encoder would do with it. *)
Definition save (img : image) (path : string) : M unit :=
  fun w =>
    match fs w !! path with
    | Some Dir => (Raise IsADirectoryError, w)
    | _ =>
        if parent_exists (fs w) path then
          if empty_image img then (Raise ValueError, w)
          else
            match png_encode_error img with
            | Some e => (Raise e, w)
            | None => write_image path img w
            end
        else (Raise (missing_error (fs w) path), w)
    end.

(** The body of the two loops of [cut_tiles], at one origin; the local
    variables [tile_count] and [should_save_tile] are carried along. *)
Definition tile_step (classifier : image -> M bool) (img : image)
    (filename output_dir : string) (tile_size : Z) (no_alpha : bool)
    (x y : Z) (st : Z * bool) : M (Z * bool) :=
  let '(tile_count, should_save_tile) := st in
  tile <- lift (crop img (crop_box tile_size x y)) ;;
  let tile_name := tile_name filename x y in
  should_save_tile <-
    (if no_alpha then b <- classifier tile ;; ret (negb b)
     else ret should_save_tile) ;;
  if should_save_tile then
    dbg <- get_debug ;;
    when dbg (print ("DEBUG: saving tile " +:+ tile_name +:+ "." +:+ tile_format)) ;;
    let tile_count := tile_count + 1 in
    let tile_path := path_join output_dir (tile_name +:+ "." +:+ tile_format) in
    save tile tile_path ;;
    ret (tile_count, should_save_tile)
  else ret (tile_count, should_save_tile).

(** [cut_tiles], with the transparency classifier as a parameter. *)
Definition cut_tiles_with (classifier : image -> M bool)
    (input_dir filename output_dir : string) (tile_size : Z) (no_alpha : bool) : M Z :=
  print ("Cutting tiles from " +:+ filename) ;;
  let filepath := path_join input_dir filename in
  img <- Image_open filepath ;;
  let '(width, height) := size img in
  let tile_count := 0 in
  let should_save_tile := true in
  xs <- lift (range0 width tile_size) ;;
  st <- for_each xs (fun x st =>
          ys <- lift (range0 height tile_size) ;;
          for_each ys (fun y st =>
            tile_step classifier img filename output_dir tile_size no_alpha x y st) st)
        (tile_count, should_save_tile) ;;
  ret (fst st).

(** [cut_tiles(input_dir, filename, output_dir, tile_size, no_alpha)] *)
Definition cut_tiles := cut_tiles_with has_transparency.

(** [convert_geotiff(input_dir, filename, output_dir)]; [None] is the
    value of a bare [return]. *)
Definition convert_geotiff (input_dir filename output_dir : string) : M (option string) :=
  let filepath := path_join input_dir filename in
  print ("Converting: " +:+ filename) ;;
  let cmd := "gdalinfo -mm " +:+ filepath in
  output <- popen_read cmd ;;
  match Re.search output with
  | None =>
      print "Error: no min/max elevation found with gdalinfo! Skipping GeoTIFF!" ;;
      ret None
  | Some (g1, g2) =>
      min <- lift (math_floor_float g1) ;;
      max <- lift (math_floor_float g2) ;;
      dbg <- get_debug ;;
      when dbg (print ("DEBUG: elevation min: " +:+ str min) ;;
                print ("DEBUG: elevation max: " +:+ str max)) ;;
      let output_filename :=
        split0 "." filename +:+ converted_suffix +:+ "." +:+ converted_format in
      let output_path := path_join output_dir output_filename in
      let cmd := "gdal_translate -of " +:+ converted_format +:+ " -ot UInt16 -scale "
                 +:+ str min +:+ " " +:+ str max +:+ " 0 30000 "
                 +:+ filepath +:+ " " +:+ output_path in
      when dbg (print ("Executing: " +:+ cmd)) ;;
      _ <- popen_read cmd ;;
      present <- isfile output_path ;;
      if present then
        img <- Image_open output_path ;;
        let '(width, height) := size img in
        img <- lift (resize img (Z.quot width 2, Z.quot height 2)) ;;
        let resize_filename :=
          split0 "." filename +:+ converted_suffix +:+ "_resized." +:+ converted_format in
        save img (path_join output_dir resize_filename) ;;
        remove output_path ;;
        print ("File GEXD!!! Hell yeah! " +:+ output_path) ;;
        ret (Some output_filename)
      else
        print "Error: converted file not found! gdal_translate may have failed to complete!" ;;
        ret None
  end.

(** The name that [gextool] looks for to see whether a file was converted. *)
Definition gexd_file (filename : string) : string :=
  split0 "," filename +:+ converted_suffix +:+ "." +:+ converted_format.

(** The name under which [convert_geotiff] asks for the converted file. *)
Definition output_filename (filename : string) : string :=
  split0 "." filename +:+ converted_suffix +:+ "." +:+ converted_format.

(** The body of the loop "Process GeoTIFFs" of [gextool]. *)
Definition convert_step (input_dir : string) (total_tif_count : Z)
    (filename : string) (loop_count : Z) : M Z :=
  if endswith filename ".tif" then
    let gexd_file := split0 "," filename +:+ converted_suffix +:+ "." +:+ converted_format in
    present <- isfile gexd_file ;;
    if present then
      print ("Input file has already been GEXD: " +:+ gexd_file) ;;
      ret loop_count
    else
      let loop_count := loop_count + 1 in
      print ("Processing " +:+ str loop_count +:+ "/" +:+ str total_tif_count) ;;
      _ <- convert_geotiff input_dir filename input_dir ;;
      ret loop_count
  else ret loop_count.

(** A loop that counts the names with a given ending. *)
Definition count_step (ending : string) (filename : string) (n : Z) : M Z :=
  if endswith filename ending then ret (n + 1) else ret n.

(** The first block of [gextool]: "Check if output_dir exists, if not try
    to create it." *)
Definition ensure_output_dir (output_dir : string) : M unit :=
  there <- isdir output_dir ;;
  when (negb there)
    (print "output_dir not found, trying to create it..." ;;
     mkdir output_dir ;;
     there <- isdir output_dir ;;
     if negb there then
       print ("Error: failed to create output_dir: " +:+ output_dir) ;;
       print "Please create output_dir and try again, or specify an dir that already exists."
     else print ("Successfully created output_dir: " +:+ output_dir)).

(** [gextool(input_dir, output_dir, tile_size, no_alpha, skip_tif)] *)
Definition gextool (input_dir output_dir : string) (tile_size : Z)
    (no_alpha skip_tif : bool) : M unit :=
  print "Running GEXtool! Your friendly neighborhood Geotiff EXtraction tool." ;;
  ensure_output_dir output_dir ;;
  let total_tif_count := 0 in
  total_tif_count <-
    (if skip_tif then
       print "Skipping GeoTIFF files." ;;
       ret total_tif_count
     else
       names <- listdir input_dir ;;
       total_tif_count <- for_each names (count_step ".tif") total_tif_count ;;
       when (0 <? total_tif_count)
            (print (str total_tif_count +:+ " TIF files found! Nice!")) ;;
       let loop_count := 0 in
       print "Processing GeoTIFFs..." ;;
       names <- listdir input_dir ;;
       _ <- for_each names (convert_step input_dir total_tif_count) loop_count ;;
       ret total_tif_count) ;;
  let total_gexd_count := 0 in
  names <- listdir input_dir ;;
  total_gexd_count <-
    for_each names (count_step (converted_suffix +:+ "." +:+ converted_format))
             total_gexd_count ;;
  when (0 <? total_gexd_count)
       (print (str total_gexd_count +:+ " GEX'd PNG files found.")) ;;
  let tile_count := 0 in
  print "Cutting tiles from GEX'd files..." ;;
  names <- listdir input_dir ;;
  tile_count <-
    for_each names (fun filename tile_count =>
      if endswith filename (converted_suffix +:+ "_resized." +:+ converted_format) then
        count <- cut_tiles input_dir filename output_dir tile_size no_alpha ;;
        ret (tile_count + count)
      else ret tile_count) tile_count ;;
  print (str total_tif_count +:+ " GEX'd file(s) processed.") ;;
  print (str tile_count +:+ " tile(s) generated at " +:+ str tile_size +:+ "x"
         +:+ str tile_size +:+ ".") ;;
  (if no_alpha
   then print "Tiles were NOT allowed to have any pixels with alpha transparency."
   else print "Tiles were allowed to have pixels with alpha transparency.") ;;
  print "GEXtool is done!".

End Script.

(** ** The notions of the specification *)

(** The ceiling of [a / b], for a positive [b]. *)
Definition ceil_div (a b : Z) : Z := (a + b - 1) / b.

(** The origins that the two loops of [cut_tiles] visit, in their order. *)
Definition grid (width height tile_size : Z) : list (Z * Z) :=
  flat_map (fun x => map (fun y => (x, y)) (range_items height tile_size))
           (range_items width tile_size).

(** The tile cropped at an origin. *)
Definition tile_of (img : image) (tile_size : Z) (o : Z * Z) : image :=
  cropped img (crop_box tile_size (fst o) (snd o)).

(** The size of a tile if cropping kept only the part of the box that lies
    inside the image. *)
Definition clamped_size (img : image) (tile_size : Z) (o : Z * Z) : Z * Z :=
  (Z.min (fst o + (tile_size - 1)) (width img) - fst o,
   Z.min (snd o + (tile_size - 1)) (height img) - snd o).

(** Whether [img.save(path)] succeeds on the file system [f]. *)
Definition can_save (png_encode_error : image -> option exn)
    (f : gmap string node) (img : image) (path : string) : bool :=
  negb (is_dir f path) && parent_exists f path
  && negb (empty_image img)
  && match png_encode_error img with None => true | Some _ => false end.


(** The value the classifier returns on a tile. *)
Definition transparent (tile : image) : bool :=
  match verdict tile with
  | Ok (b, _) => b
  | Raise _ => false
  end.

(** The world after the tile at [o] was saved. *)
Definition keep_tile (filename output_dir : string) (img : image) (tile_size : Z)
    (w : world) (o : Z * Z) : world :=
  let w1 :=
    if debug w
    then say ("DEBUG: saving tile " +:+ tile_name filename (fst o) (snd o)
              +:+ "." +:+ tile_format) w
    else w in
  set_fs (<[tile_path filename output_dir (fst o) (snd o)
            := File (Png (tile_of img tile_size o))]> (fs w1)) w1.

(** The world after the tile at [o] was classified, and saved if it was
    found without transparency. *)
Definition judge_tile (filename output_dir : string) (img : image) (tile_size : Z)
    (w : world) (o : Z * Z) : world :=
  match verdict (tile_of img tile_size o) with
  | Ok (true, line) => say line w
  | Ok (false, line) => keep_tile filename output_dir img tile_size (say line w) o
  | Raise _ => w
  end.

(** The file system after the tiles at the origins [os] were written. *)
Definition write_all (filename output_dir : string) (img : image) (tile_size : Z)
    (os : list (Z * Z)) (f : gmap string node) : gmap string node :=
  fold_left (fun f o => <[tile_path filename output_dir (fst o) (snd o)
                          := File (Png (tile_of img tile_size o))]> f) os f.

(** The origins whose tiles the classifier finds without transparency. *)
Definition accepted (img : image) (tile_size : Z) (os : list (Z * Z)) : list (Z * Z) :=
  List.filter (fun o => negb (transparent (tile_of img tile_size o))) os.

(** The two commands that [convert_geotiff] runs. *)
Definition gdalinfo_cmd (input_dir filename : string) : string :=
  "gdalinfo -mm " +:+ path_join input_dir filename.

Definition translate_cmd (input_dir filename output_dir : string) (min max : Z) : string :=
  "gdal_translate -of " +:+ converted_format +:+ " -ot UInt16 -scale "
  +:+ str min +:+ " " +:+ str max +:+ " 0 30000 "
  +:+ path_join input_dir filename +:+ " "
  +:+ path_join output_dir (output_filename filename).

(** The file system that the commands of [convert_geotiff] leave behind:
    after [gdalinfo] alone when its output has no match, after
    [gdal_translate] too when the two numbers were read. *)
Definition commands_fs (run_command : string -> gmap string node -> string * gmap string node)
    (floor_float : string -> result Z)
    (input_dir filename output_dir : string) (f : gmap string node) : gmap string node :=
  let out1 := run_command (gdalinfo_cmd input_dir filename) f in
  match Re.search (fst out1) with
  | None => snd out1
  | Some (g1, g2) =>
      match math_floor_float floor_float g1, math_floor_float floor_float g2 with
      | Ok min, Ok max =>
          snd (run_command (translate_cmd input_dir filename output_dir min max) (snd out1))
      | _, _ => snd out1
      end
  end.

(** When [convert_geotiff] gives a raster up: the output of [gdalinfo] has
    no match, or the numbers were read and the file that [gdal_translate]
    should have written is not there. *)
Definition gives_up (run_command : string -> gmap string node -> string * gmap string node)
    (floor_float : string -> result Z)
    (input_dir filename output_dir : string) (f : gmap string node) : Prop :=
  let out1 := run_command (gdalinfo_cmd input_dir filename) f in
  Re.search (fst out1) = None \/
  exists g1 g2 min max,
    Re.search (fst out1) = Some (g1, g2) /\
    math_floor_float floor_float g1 = Ok min /\
    math_floor_float floor_float g2 = Ok max /\
    is_file (commands_fs run_command floor_float input_dir filename output_dir f)
            (path_join output_dir (output_filename filename)) = false.

(** The number that a text of decimal digits stands for, leading zeros
    allowed; 0 for a text with any other character. *)
Definition decimal_value (s : string) : Z :=
  match NilEmpty.uint_of_string s with
  | Some d => Z.of_uint d
  | None => 0
  end.

(** The designated transparent palette index, -1 when there is none. *)
Definition designated_index (img : image) : Z :=
  match transparency img with
  | Some (VInt z) => z
  | _ => -1
  end.

(** The alpha values of the pixels of an RGBA image. *)
Definition alphas (img : image) : list Z := map (band_value 3) (getdata img).

Definition is_minimum (m : Z) (l : list Z) : Prop :=
  In m l /\ forall v, In v l -> m <= v.

(** The three rules of the transparency classifier. *)
Definition palette_rule (img : image) : Prop :=
  mode img = "P" /\ In (PInt (designated_index img)) (getdata img).

Definition alpha_rule (img : image) : Prop :=
  mode img = "RGBA" /\ exists m, is_minimum m (alphas img) /\ m < 255.

Definition zero_rule (img : image) : Prop := In (PInt 0) (getdata img).

(** The contract of the classifier on one tile: it returns, the value is
    true exactly when a rule holds, the first rule that holds is the one
    reported, and outside the two special modes only the last rule counts. *)
Definition classifier_contract (img : image) (w : world) : Prop :=
  exists b line,
    has_transparency img w = (Ok b, say line w) /\
    (b = true <-> palette_rule img \/ alpha_rule img \/ zero_rule img) /\
    (palette_rule img ->
       line = "Transparency detected in tile. P-mode detected.") /\
    (~ palette_rule img -> alpha_rule img ->
       line = "Transparency detected in tile. RGBA image detected.") /\
    (~ palette_rule img -> ~ alpha_rule img -> zero_rule img ->
       line = "Transparency detected in tile. 0-value pixel detected.") /\
    (~ palette_rule img -> ~ alpha_rule img -> ~ zero_rule img ->
       b = false /\ line = "Transparency NOT detected in tile.") /\
    (mode img <> "P" -> mode img <> "RGBA" -> (b = true <-> zero_rule img)).

(** The contract of [cut_tiles] when transparency is not allowed: it
    returns; the tiles written are those of [accepted], and their number is
    returned; a candidate is left out exactly when the classifier returns
    true on its tile; so the number written is at most the number of
    candidates, and every tile left out is classified transparent. *)
Definition no_alpha_contract (enc : image -> option exn)
    (input_dir filename output_dir : string) (tile_size : Z)
    (img : image) (w : world) : Prop :=
  let candidates := grid (width img) (height img) tile_size in
  let kept := accepted img tile_size candidates in
  exists w',
    cut_tiles enc input_dir filename output_dir tile_size true w
      = (Ok (Z.of_nat (List.length kept)), w') /\
    fs w' = write_all filename output_dir img tile_size kept (fs w) /\
    (forall o, In o candidates ->
       (~ In o kept <->
        forall w0, fst (has_transparency (tile_of img tile_size o) w0) = Ok true)) /\
    (forall o, In o candidates ->
       (In o kept <->
        forall w0, fst (has_transparency (tile_of img tile_size o) w0) = Ok false)) /\
    Z.of_nat (List.length kept) <= Z.of_nat (List.length candidates).

(** A text of digits only. *)
Definition all_digits (s : string) : bool :=
  forallb Re.is_digit (list_ascii_of_string s).

(** A number as the pattern of [convert_geotiff] takes it: digits, a dot,
    digits. *)
Definition is_number (g : string) : Prop :=
  exists a b, g = a +:+ "." +:+ b /\ all_digits a = true /\ all_digits b = true.

(** What a run of [cut_tiles] may change in the world: the files at the
    paths of tiles, and the standard output. *)
Definition tiles_only (filename output_dir : string) (w w' : world) : Prop :=
  (forall p, (forall x y, p <> tile_path filename output_dir x y) ->
             fs w' !! p = fs w !! p) /\
  (forall p, is_dir (fs w') p = is_dir (fs w) p) /\
  (forall p, is_file (fs w) p = true -> is_file (fs w') p = true) /\
  debug w' = debug w.

(** What a run of [gextool] that skips the rasters may change in the
    world: the output directory and the entries that lie directly in it; no
    file and no directory disappears. *)
Definition outputs_only (output_dir : string) (w w' : world) : Prop :=
  (forall p, p <> output_dir -> child_of output_dir p = None ->
             fs w' !! p = fs w !! p) /\
  (forall p, is_file (fs w) p = true -> is_file (fs w') p = true) /\
  (forall p, is_dir (fs w) p = true -> is_dir (fs w') p = true).

(** A computation that keeps a relation between the world before and the
    world after, whether it returns or raises. *)
Definition preserves (R : world -> world -> Prop) {A} (c : M A) : Prop :=
  forall w, R w (snd (c w)).

(** Two computations that, started with the same files, return or raise
    the same and leave the same files; what was printed before, what they
    print and the [debug] flag are left out of the comparison. *)
Definition same_run {A} (c1 c2 : M A) : Prop :=
  forall w1 w2, fs w1 = fs w2 ->
    fst (c1 w1) = fst (c2 w2) /\ fs (snd (c1 w1)) = fs (snd (c2 w2)).

(** ** Sample data *)

Module Sample.

(** An RGBA tile without pixels, as [crop] yields for a tile size of 1. *)
Definition empty_rgba : image := mkImage "RGBA" 4 0 0 None [].

Definition rgba_254 : image := mkImage "RGBA" 4 1 1 None [PTuple [9; 9; 9; 254]].

Definition rgba_opaque : image := mkImage "RGBA" 4 1 1 None [PTuple [9; 9; 9; 255]].

(** A 3 by 3 greyscale image. *)
Definition gray_3x3 : image :=
  mkImage "L" 1 3 3 None
          [PInt 5; PInt 1; PInt 2; PInt 3; PInt 4; PInt 0; PInt 7; PInt 8; PInt 9].

Definition w0 : world := mkWorld ∅ [] false.

(** An encoder that accepts every image that has pixels ([save] refuses
    the others before the encoder is asked). *)
Definition encoder_ok (img : image) : option exn := None.

(** A system without the GDAL commands: they print nothing and leave the
    files alone. *)
Definition no_command (cmd : string) (f : gmap string node) : string * gmap string node :=
  ("", f).

Definition no_float (text : string) : result Z := Raise ValueError.

Definition same_image (img : image) (wh : Z * Z) : result image := Ok img.

(** GDAL at work on one raster: the inspection prints the range of the
    elevations, the translation writes the converted image. *)
Definition gdal (img : image) (cmd : string) (f : gmap string node)
    : string * gmap string node :=
  if startswith cmd "gdalinfo" then ("Computed Min/Max=1.000,2.000", f)
  else ("", <["in/a_GEXD.png" := File (Png img)]> f).

(** An inspection whose output matches the pattern without holding numbers. *)
Definition gdal_dots (cmd : string) (f : gmap string node) : string * gmap string node :=
  ("Max=.,.", f).

(** The integer part of a number written with digits and a dot. *)
Definition floor_text (text : string) : result Z :=
  Ok (decimal_value (split0 "." text)).

(** A working directory with a raster to convert. *)
Definition world_tif : world :=
  mkWorld (<["in/a.tif" := File Blob]> (<["in" := Dir]> (<["out" := Dir]> ∅)))
          [] false.

(** A working directory with the directories [in] and [out] and one
    converted image. *)
Definition world_with (img : image) : world :=
  mkWorld (<["in/a_GEXD_resized.png" := File (Png img)]>
             (<["in" := Dir]> (<["out" := Dir]> ∅)))
          [] false.

End Sample.

(** * Properties *)

(** ** The monad and the loops *)

Lemma for_return_search {A} (test : A -> bool) (msg : string) (l : list A) (w : world) :
  for_return l (fun a => if test a then print msg ;; ret (Some true) else ret None) w
  = if existsb test l then (Ok (Some true), say msg w) else (Ok None, w).
Proof.
  induction l as [| a l IH]; simpl; [reflexivity |].
  unfold bind at 1. destruct (test a); simpl; [reflexivity |].
  unfold ret at 1. exact IH.
Qed.

Lemma fs_say (l : string) (w : world) : fs (say l w) = fs w.
Proof. reflexivity. Qed.

Lemma debug_say (l : string) (w : world) : debug (say l w) = debug w.
Proof. reflexivity. Qed.

Lemma fs_set_fs (f : gmap string node) (w : world) : fs (set_fs f w) = f.
Proof. reflexivity. Qed.

Lemma debug_set_fs (f : gmap string node) (w : world) : debug (set_fs f w) = debug w.
Proof. reflexivity. Qed.

Lemma say_inj (l1 l2 : string) (w : world) : say l1 w = say l2 w -> l1 = l2.
Proof.
  unfold say. intros [= Heq]. apply app_inv_head in Heq. congruence.
Qed.

Lemma say_neq (l : string) (w : world) : w <> say l w.
Proof.
  destruct w as [f out d]. unfold say. simpl. intros [= Heq].
  apply (f_equal (@List.length string)) in Heq.
  rewrite length_app in Heq. simpl in Heq. lia.
Qed.

(** ** The transparency classifier *)

Ltac run_fallback :=
  unfold bind at 1; rewrite (for_return_search pixel_is_zero);
  destruct (existsb pixel_is_zero _); reflexivity.

Lemma has_transparency_run (img : image) (w : world) :
  has_transparency img w =
  match verdict img with
  | Ok (b, line) => (Ok b, say line w)
  | Raise e => (Raise e, w)
  end.
Proof.
  unfold has_transparency, verdict, fallback_verdict. cbv zeta.
  destruct (String.eqb (mode img) "P").
  - unfold bind at 1.
    rewrite (for_return_search
               (fun ci => int_eq_value (snd ci) (info_get_transparency img (VInt (-1))))).
    destruct (existsb _ (getcolors img)); [reflexivity |].
    run_fallback.
  - destruct (String.eqb (mode img) "RGBA").
    + unfold bind at 1. unfold bind at 1. unfold lift.
      destruct (extrema_3_0 (getextrema img)) as [lo | e]; [| reflexivity].
      destruct (lo <? 255); [reflexivity |].
      unfold ret at 1. cbv beta iota. run_fallback.
    + unfold bind at 1. unfold ret at 1. cbv beta iota. run_fallback.
Qed.

Lemma pixel_is_zero_iff (p : pixel) : pixel_is_zero p = true <-> p = PInt 0.
Proof.
  destruct p as [v | vs]; simpl.
  - rewrite Z.eqb_eq. split; [intros -> | intros [= ->]]; reflexivity.
  - split; discriminate.
Qed.

Lemma existsb_zero_rule (img : image) :
  existsb pixel_is_zero (getdata img) = true <-> zero_rule img.
Proof.
  unfold zero_rule. rewrite existsb_exists. split.
  - intros [p [Hin Hz]]. apply pixel_is_zero_iff in Hz. subst p. exact Hin.
  - intros Hin. exists (PInt 0). split; [exact Hin | reflexivity].
Qed.

Lemma In_upto (i n : Z) : In i (upto n) <-> 0 <= i < n.
Proof.
  unfold upto. rewrite in_map_iff. split.
  - intros [k [<- Hk]]. apply in_seq in Hk. lia.
  - intros H. exists (Z.to_nat i). split; [lia |]. apply in_seq. lia.
Qed.

Lemma length_upto (n : Z) : 0 <= n -> Z.of_nat (List.length (upto n)) = n.
Proof. intros H. unfold upto. rewrite length_map, length_seq. lia. Qed.

Lemma count_index_In (i : Z) (data : list pixel) :
  count_index i data <> 0 <-> In (PInt i) data.
Proof.
  unfold count_index. induction data as [| p data IH]; simpl.
  - split; [intros H; contradiction H; reflexivity | intros []].
  - destruct p as [v | vs].
    + destruct (Z.eqb_spec v i) as [-> | Hne]; simpl.
      * split; [intros _; left; reflexivity | intros _; lia].
      * rewrite IH. split; [intros H; right; exact H |].
        intros [[= Heq] | H]; [contradiction | exact H].
    + rewrite IH. split; [intros H; right; exact H |].
      intros [Heq | H]; [discriminate | exact H].
Qed.

Lemma getcolors_index (z : Z) (img : image) :
  existsb (fun ci => snd ci =? z) (getcolors img) = true
  <-> 0 <= z < 256 /\ In (PInt z) (getdata img).
Proof.
  unfold getcolors. rewrite existsb_exists. split.
  - intros [[c i] [Hin Heq]]. simpl in Heq. apply Z.eqb_eq in Heq. subst i.
    apply filter_In in Hin. destruct Hin as [Hin Hc]. simpl in Hc.
    apply in_map_iff in Hin. destruct Hin as [i [[= <- <-] Hi]].
    apply In_upto in Hi. split; [exact Hi |].
    apply count_index_In. intros H0. rewrite H0 in Hc. discriminate.
  - intros [Hz Hin]. exists (count_index z (getdata img), z). split.
    + apply filter_In. split.
      * apply in_map_iff. exists z. split; [reflexivity | apply In_upto; exact Hz].
      * simpl. apply count_index_In in Hin.
        destruct (Z.eqb_spec (count_index z (getdata img)) 0); [contradiction | reflexivity].
    + simpl. apply Z.eqb_refl.
Qed.

Lemma wf_palette_range (img : image) (v : Z) :
  wf img -> mode img = "P" -> In (PInt v) (getdata img) -> 0 <= v < 256.
Proof.
  intros Hwf HP Hin. pose proof (wf_pixels img Hwf) as Hall.
  rewrite List.Forall_forall in Hall. specialize (Hall _ Hin).
  simpl in Hall. destruct Hall as [_ Hr]. exact (Hr HP).
Qed.

Lemma palette_search (img : image) :
  wf img -> mode img = "P" ->
  existsb (fun ci => int_eq_value (snd ci) (info_get_transparency img (VInt (-1))))
          (getcolors img) = true
  <-> In (PInt (designated_index img)) (getdata img).
Proof.
  intros Hwf HP. unfold info_get_transparency, designated_index.
  destruct (transparency img) as [[z | b | t] |]; simpl.
  - rewrite (getcolors_index z). split; [intros [_ H]; exact H |].
    intros H. split; [exact (wf_palette_range img z Hwf HP H) | exact H].
  - split.
    + intros H. apply existsb_exists in H. destruct H as [_ [_ H]]. discriminate.
    + intros H. apply (wf_palette_range img _ Hwf HP) in H. lia.
  - split.
    + intros H. apply existsb_exists in H. destruct H as [_ [_ H]]. discriminate.
    + intros H. apply (wf_palette_range img _ Hwf HP) in H. lia.
  - rewrite (getcolors_index (-1)). split; [intros [H _]; lia |].
    intros H. apply (wf_palette_range img _ Hwf HP) in H. lia.
Qed.

Lemma fold_min_le (r : list Z) (v : Z) :
  fold_left Z.min r v <= v /\ forall u, In u r -> fold_left Z.min r v <= u.
Proof.
  revert v. induction r as [| a r IH]; intros v; simpl.
  - split; [lia | intros u []].
  - destruct (IH (Z.min v a)) as [H1 H2]. split; [lia |].
    intros u [<- | Hu]; [lia | exact (H2 u Hu)].
Qed.

Lemma fold_min_In (r : list Z) (v : Z) : In (fold_left Z.min r v) (v :: r).
Proof.
  revert v. induction r as [| a r IH]; intros v; simpl.
  - left; reflexivity.
  - destruct (IH (Z.min v a)) as [H | H].
    + destruct (Z.min_spec v a) as [[_ Hm] | [_ Hm]].
      * left; congruence.
      * right; left; congruence.
    + right; right; exact H.
Qed.

Lemma fold_min_is_minimum (v : Z) (r : list Z) :
  is_minimum (fold_left Z.min r v) (v :: r).
Proof.
  split; [apply fold_min_In |].
  destruct (fold_min_le r v) as [H1 H2].
  intros u [<- | Hu]; [exact H1 | exact (H2 u Hu)].
Qed.

Lemma is_minimum_unique (m m' : Z) (l : list Z) :
  is_minimum m l -> is_minimum m' l -> m = m'.
Proof.
  intros [Hin Hle] [Hin' Hle']. specialize (Hle _ Hin'). specialize (Hle' _ Hin). lia.
Qed.

(** On an image with four bands, [extrema[3][0]] is the least alpha value;
    without pixels there is none and the indexing raises. *)
Lemma extrema_four_bands (img : image) :
  bands img = 4%nat ->
  extrema_3_0 (getextrema img) =
  match alphas img with
  | [] => Raise TypeError
  | v :: r => Ok (fold_left Z.min r v)
  end.
Proof.
  intros Hb. unfold getextrema, alphas. rewrite Hb. simpl.
  destruct (map (band_value 3) (getdata img)); reflexivity.
Qed.

Lemma alphas_nil (img : image) : alphas img = [] <-> getdata img = [].
Proof.
  unfold alphas. destruct (getdata img); simpl; split; intros H; try discriminate; reflexivity.
Qed.

Lemma wf_rgba_pixel (img : image) (p : pixel) :
  wf img -> mode img = "RGBA" -> In p (getdata img) ->
  exists r g b a, p = PTuple [r; g; b; a].
Proof.
  intros Hwf HA Hin. pose proof (wf_pixels img Hwf) as Hall.
  rewrite List.Forall_forall in Hall. specialize (Hall _ Hin).
  rewrite (wf_RGBA img Hwf HA) in Hall. destruct p as [v | vs]; simpl in Hall.
  - destruct Hall as [H _]. discriminate.
  - destruct Hall as [_ Hlen].
    destruct vs as [| r [| g [| b [| a [| ? ?]]]]]; simpl in Hlen; try discriminate.
    exists r, g, b, a. reflexivity.
Qed.

Lemma rgba_no_zero_pixel (img : image) :
  wf img -> mode img = "RGBA" -> existsb pixel_is_zero (getdata img) = false.
Proof.
  intros Hwf HA. destruct (existsb pixel_is_zero (getdata img)) eqn:E; [| reflexivity].
  apply existsb_exists in E. destruct E as [p [Hin Hz]].
  destruct (wf_rgba_pixel img p Hwf HA Hin) as (r & g & b & a & ->). discriminate.
Qed.

Lemma alpha_rule_iff (img : image) (v : Z) (r : list Z) :
  mode img = "RGBA" -> alphas img = v :: r ->
  (alpha_rule img <-> fold_left Z.min r v < 255).
Proof.
  intros HA Hal. unfold alpha_rule. rewrite Hal. split.
  - intros [_ [m [Hm Hlt]]].
    rewrite <- (is_minimum_unique _ _ _ Hm (fold_min_is_minimum v r)). exact Hlt.
  - intros Hlt. split; [exact HA |].
    exists (fold_left Z.min r v). split; [apply fold_min_is_minimum | exact Hlt].
Qed.

Lemma zero_rule_dec (img : image) :
  (existsb pixel_is_zero (getdata img) = true /\ zero_rule img)
  \/ (existsb pixel_is_zero (getdata img) = false /\ ~ zero_rule img).
Proof.
  pose proof (existsb_zero_rule img) as Hz.
  destruct (existsb pixel_is_zero (getdata img)).
  - left. split; [reflexivity | apply Hz; reflexivity].
  - right. split; [reflexivity |]. intros H. apply Hz in H. discriminate.
Qed.

Ltac settle_rules :=
  repeat (split || intro);
  solve [tauto | reflexivity | discriminate | contradiction].

(** What [verdict] computes, in terms of the three rules. *)
Lemma verdict_rules (img : image) :
  wf img -> (mode img = "RGBA" -> getdata img <> []) ->
  exists b line,
    verdict img = Ok (b, line) /\
    (b = true <-> palette_rule img \/ alpha_rule img \/ zero_rule img) /\
    (palette_rule img ->
       line = "Transparency detected in tile. P-mode detected.") /\
    (~ palette_rule img -> alpha_rule img ->
       line = "Transparency detected in tile. RGBA image detected.") /\
    (~ palette_rule img -> ~ alpha_rule img -> zero_rule img ->
       line = "Transparency detected in tile. 0-value pixel detected.") /\
    (~ palette_rule img -> ~ alpha_rule img -> ~ zero_rule img ->
       b = false /\ line = "Transparency NOT detected in tile.") /\
    (mode img <> "P" -> mode img <> "RGBA" -> (b = true <-> zero_rule img)).
Proof.
  intros Hwf Hne. unfold verdict, fallback_verdict.
  destruct (String.eqb_spec (mode img) "P") as [HP | HnP].
  - assert (HnA : ~ alpha_rule img).
    { intros [HA _]. rewrite HP in HA. discriminate. }
    pose proof (palette_search img Hwf HP) as Hs.
    destruct (existsb _ (getcolors img)).
    + assert (Hpal : palette_rule img) by (split; [exact HP | apply Hs; reflexivity]).
      eexists _, _. split; [reflexivity |]. settle_rules.
    + assert (Hpal : ~ palette_rule img).
      { intros [_ H]. apply Hs in H. discriminate. }
      destruct (zero_rule_dec img) as [[-> Hz] | [-> Hz]];
        (eexists _, _; split; [reflexivity |]; settle_rules).
  - assert (Hpal : ~ palette_rule img) by (intros [HP _]; contradiction).
    destruct (String.eqb_spec (mode img) "RGBA") as [HA | HnA].
    + rewrite (extrema_four_bands img (wf_RGBA img Hwf HA)).
      destruct (alphas img) as [| v r] eqn:Hal.
      { exfalso. apply (Hne HA). apply alphas_nil. exact Hal. }
      pose proof (alpha_rule_iff img v r HA Hal) as Har.
      assert (Hnz : ~ zero_rule img).
      { intros H. apply existsb_zero_rule in H.
        rewrite (rgba_no_zero_pixel img Hwf HA) in H. discriminate. }
      rewrite (rgba_no_zero_pixel img Hwf HA).
      destruct (Z.ltb_spec (fold_left Z.min r v) 255) as [Hlt | Hge].
      * assert (Hal' : alpha_rule img) by (apply Har; exact Hlt).
        eexists _, _. split; [reflexivity |]. settle_rules.
      * assert (Hna : ~ alpha_rule img) by (intros H; apply Har in H; lia).
        eexists _, _. split; [reflexivity |]. settle_rules.
    + assert (Hna : ~ alpha_rule img) by (intros [HA _]; contradiction).
      destruct (zero_rule_dec img) as [[-> Hz] | [-> Hz]];
        (eexists _, _; split; [reflexivity |]; settle_rules).
Qed.

(** The contract of the classifier, on every tile other than an RGBA tile
    without pixels: it returns true if and only if (1) the mode is P and
    some pixel has the designated transparent index, -1 standing for none,
    or (2) the mode is RGBA and the least alpha value of the pixels is below
    255, or (3) some pixel value equals the integer 0; the rules are tried
    in this order, the first that holds is the one reported, false is
    returned when none holds, and in the other modes only rule (3) counts. *)
Theorem has_transparency_contract (img : image) (w : world) :
  wf img -> (mode img = "RGBA" -> getdata img <> []) ->
  classifier_contract img w.
Proof.
  intros Hwf Hne. unfold classifier_contract.
  destruct (verdict_rules img Hwf Hne) as (b & line & Hv & Hrules).
  exists b, line. split; [| exact Hrules].
  rewrite has_transparency_run, Hv. reflexivity.
Qed.

Ltac sample_wf :=
  constructor; simpl;
  [lia | lia | lia | reflexivity | repeat constructor; (lia || discriminate)
  | (reflexivity || discriminate) | (reflexivity || discriminate)].

Lemma has_transparency_contract_witness :
  wf Sample.rgba_254 /\ classifier_contract Sample.rgba_254 Sample.w0.
Proof.
  assert (Hwf : wf Sample.rgba_254) by sample_wf.
  split; [exact Hwf |].
  apply (has_transparency_contract Sample.rgba_254 Sample.w0 Hwf).
  intros _. discriminate.
Defined.

(** C1, the code at a failing input: on the tile without pixels that [crop]
    yields for a tile size of 1 in an RGBA image no rule of the classifier
    holds, and the classifier raises [TypeError] where the contract has it
    return false. *)
Lemma has_transparency_empty_rgba :
  wf Sample.empty_rgba /\
  crop Sample.rgba_opaque (crop_box 1 0 0) = Ok Sample.empty_rgba /\
  has_transparency Sample.empty_rgba Sample.w0 = (Raise TypeError, Sample.w0) /\
  ~ classifier_contract Sample.empty_rgba Sample.w0.
Proof.
  split; [sample_wf |]. split; [reflexivity |]. split; [reflexivity |].
  intros (b & line & Hrun & _). vm_compute in Hrun. discriminate.
Qed.

(** C10: in an RGBA tile every pixel is a tuple of four values, so the
    zero-value rule never fires, and the tile is classified transparent if
    and only if the least alpha value of its pixels is below 255. *)
Theorem rgba_transparent_iff_alpha (img : image) (w : world) :
  wf img -> mode img = "RGBA" ->
  (forall p, In p (getdata img) -> exists r g b a, p = PTuple [r; g; b; a]) /\
  (forall p, In p (getdata img) -> pixel_is_zero p = false) /\
  (forall r w', has_transparency img w = (r, w') ->
     w' <> say "Transparency detected in tile. 0-value pixel detected." w) /\
  (fst (has_transparency img w) = Ok true
   <-> exists m, is_minimum m (alphas img) /\ m < 255).
Proof.
  intros Hwf HA.
  assert (Htuple : forall p, In p (getdata img) -> exists r g b a, p = PTuple [r; g; b; a])
    by (intros p; apply wf_rgba_pixel; assumption).
  assert (Hnz : forall p, In p (getdata img) -> pixel_is_zero p = false).
  { intros p Hin. destruct (Htuple p Hin) as (r & g & b & a & ->). reflexivity. }
  split; [exact Htuple |]. split; [exact Hnz |].
  rewrite has_transparency_run. unfold verdict, fallback_verdict.
  rewrite HA. simpl String.eqb. cbv iota.
  rewrite (extrema_four_bands img (wf_RGBA img Hwf HA)).
  rewrite (rgba_no_zero_pixel img Hwf HA).
  assert (Hsay : forall l1 l2, l1 <> l2 -> say l1 w <> say l2 w).
  { intros l1 l2 Hne Heq. apply Hne. exact (say_inj _ _ _ Heq). }
  destruct (alphas img) as [| v r] eqn:Hal.
  - split.
    + intros r w' [= _ <-]. apply say_neq.
    + simpl. split; [discriminate |]. intros [m [[[] _] _]].
  - pose proof (fold_min_is_minimum v r) as Hmin.
    destruct (Z.ltb_spec (fold_left Z.min r v) 255) as [Hlt | Hge].
    + split.
      * intros r0 w' [= _ <-]. apply Hsay. discriminate.
      * simpl. split; [intros _ | reflexivity].
        exists (fold_left Z.min r v). split; assumption.
    + split.
      * intros r0 w' [= _ <-]. apply Hsay. discriminate.
      * simpl. split; [discriminate |]. intros [m [Hm Hlt]].
        rewrite (is_minimum_unique _ _ _ Hm Hmin) in Hlt. lia.
Qed.

Lemma rgba_transparent_iff_alpha_witness :
  wf Sample.rgba_254 /\ mode Sample.rgba_254 = "RGBA" /\
  (fst (has_transparency Sample.rgba_254 Sample.w0) = Ok true
   <-> exists m, is_minimum m (alphas Sample.rgba_254) /\ m < 255).
Proof.
  assert (Hwf : wf Sample.rgba_254) by sample_wf.
  split; [exact Hwf |]. split; [reflexivity |].
  exact (proj2 (proj2 (proj2
    (rgba_transparent_iff_alpha Sample.rgba_254 Sample.w0 Hwf eq_refl)))).
Defined.

(** ** The grid of origins *)

(** [ceil_div a b] is the ceiling of [a / b]. *)
Lemma ceil_div_is_ceiling (a b : Z) :
  1 <= b -> (ceil_div a b - 1) * b < a <= ceil_div a b * b.
Proof.
  intros Hb. unfold ceil_div.
  pose proof (Z.div_mod (a + b - 1) b ltac:(lia)) as Hdm.
  pose proof (Z.mod_pos_bound (a + b - 1) b ltac:(lia)) as Hm.
  nia.
Qed.

Lemma range_len_ceil (stop step : Z) :
  0 <= stop -> 1 <= step -> range_len stop step = ceil_div stop step.
Proof.
  intros H0 H1. unfold range_len, ceil_div.
  destruct (Z.ltb_spec 0 step) as [_ | ?]; [| lia].
  destruct (Z.ltb_spec 0 stop) as [Hpos | Hz]; simpl.
  - replace (stop + step - 1) with (stop - 1 + 1 * step) by lia.
    rewrite Z.div_add by lia. reflexivity.
  - destruct (Z.ltb_spec step 0) as [? | _]; [lia |]. simpl.
    replace stop with 0 by lia. simpl. symmetry. apply Z.div_small. lia.
Qed.

Lemma range_len_nonneg (stop step : Z) : 1 <= step -> 0 <= range_len stop step.
Proof.
  intros H1. unfold range_len.
  destruct (Z.ltb_spec 0 step) as [_ | ?]; [| lia].
  destruct (Z.ltb_spec 0 stop) as [Hpos | Hz]; simpl.
  - pose proof (Z.div_pos (stop - 1) step ltac:(lia) ltac:(lia)). lia.
  - destruct (Z.ltb_spec step 0) as [? | _]; [lia |]. simpl. lia.
Qed.

Lemma In_range_items (x stop step : Z) :
  1 <= step ->
  (In x (range_items stop step) <-> exists k, 0 <= k < range_len stop step /\ x = k * step).
Proof.
  intros H1. unfold range_items. rewrite in_map_iff. split.
  - intros [k [<- Hk]]. exists k. split; [apply In_upto; exact Hk | reflexivity].
  - intros [k [Hk ->]]. exists k. split; [reflexivity | apply In_upto; exact Hk].
Qed.

Lemma range_items_bounds (x stop step : Z) :
  1 <= step -> In x (range_items stop step) -> 0 <= x < stop.
Proof.
  intros H1 Hin. apply In_range_items in Hin; [| exact H1].
  destruct Hin as [k [Hk ->]]. unfold range_len in Hk.
  destruct (Z.ltb_spec 0 step) as [_ | ?]; [| lia].
  destruct (Z.ltb_spec 0 stop) as [Hpos | Hz]; simpl in Hk.
  - pose proof (Z.div_mod (stop - 1) step ltac:(lia)) as Hdm.
    pose proof (Z.mod_pos_bound (stop - 1) step ltac:(lia)) as Hm.
    split; nia.
  - destruct (Z.ltb_spec step 0) as [? | _]; [lia |]. simpl in Hk. lia.
Qed.

Lemma length_range_items (stop step : Z) :
  1 <= step -> Z.of_nat (List.length (range_items stop step)) = range_len stop step.
Proof.
  intros H1. unfold range_items. rewrite length_map.
  apply length_upto. apply range_len_nonneg. exact H1.
Qed.

Lemma NoDup_upto (n : Z) : List.NoDup (upto n).
Proof.
  unfold upto. apply NoDup_map_NoDup_ForallPairs; [| apply seq_NoDup].
  intros a b _ _ Heq. lia.
Qed.

Lemma NoDup_range_items (stop step : Z) : 1 <= step -> List.NoDup (range_items stop step).
Proof.
  intros H1. unfold range_items.
  apply NoDup_map_NoDup_ForallPairs; [| apply NoDup_upto].
  intros a b _ _ Heq. nia.
Qed.

Lemma range0_ok (stop step : Z) : 1 <= step -> range0 stop step = Ok (range_items stop step).
Proof.
  intros H1. unfold range0. destruct (Z.eqb_spec step 0); [lia | reflexivity].
Qed.

Lemma In_grid (x y W H S : Z) :
  In (x, y) (grid W H S) <-> In x (range_items W S) /\ In y (range_items H S).
Proof.
  unfold grid. rewrite in_flat_map. split.
  - intros [x' [Hx Hin]]. apply in_map_iff in Hin.
    destruct Hin as [y' [[= <- <-] Hy]]. split; assumption.
  - intros [Hx Hy]. exists x. split; [exact Hx |].
    apply in_map_iff. exists y. split; [reflexivity | exact Hy].
Qed.

Lemma length_grid (W H S : Z) :
  List.length (grid W H S)
  = (List.length (range_items W S) * List.length (range_items H S))%nat.
Proof.
  unfold grid. induction (range_items W S) as [| x xs IH]; simpl; [reflexivity |].
  rewrite length_app, length_map, IH. reflexivity.
Qed.

Lemma NoDup_grid (W H S : Z) : 1 <= S -> List.NoDup (grid W H S).
Proof.
  intros H1. unfold grid.
  pose proof (NoDup_range_items W S H1) as Hxs.
  pose proof (NoDup_range_items H S H1) as Hys.
  induction Hxs as [| x xs Hx Hxs IH]; simpl; [constructor |].
  apply List.NoDup_app.
  - apply NoDup_map_NoDup_ForallPairs; [| exact Hys].
    intros a b _ _ [= Heq]. exact Heq.
  - exact IH.
  - intros [a b] Hin1 Hin2. apply in_map_iff in Hin1.
    destruct Hin1 as [y [[= <- <-] _]].
    apply in_flat_map in Hin2. destruct Hin2 as [x' [Hx' Hin2]].
    apply in_map_iff in Hin2. destruct Hin2 as [y' [[= <- _] _]].
    contradiction.
Qed.

(** The two nested loops of [cut_tiles] run their body once per origin of
    [grid], in its order. *)
Lemma for_each_app {A S} (l1 l2 : list A) (body : A -> S -> M S) (s : S) (w : world) :
  for_each (l1 ++ l2) body s w
  = bind (for_each l1 body s) (fun s' => for_each l2 body s') w.
Proof.
  revert s w. induction l1 as [| a l1 IH]; intros s w; simpl.
  - reflexivity.
  - unfold bind in *.
    destruct (body a s w) as [[s' | e] w']; [apply IH | reflexivity].
Qed.

Lemma for_each_map {A B S} (f : A -> B) (l : list A) (body : B -> S -> M S)
    (s : S) (w : world) :
  for_each (map f l) body s w = for_each l (fun a st => body (f a) st) s w.
Proof.
  revert s w. induction l as [| a l IH]; intros s w; simpl; [reflexivity |].
  unfold bind. destruct (body (f a) s w) as [[s' | e] w']; [apply IH | reflexivity].
Qed.

Lemma loops_visit_grid {S0} (W H S : Z) (body : Z -> Z -> S0 -> M S0) (s : S0) (w : world) :
  1 <= S ->
  (xs <- lift (range0 W S) ;;
   for_each xs (fun x st =>
     ys <- lift (range0 H S) ;;
     for_each ys (fun y st => body x y st) st) s) w
  = for_each (grid W H S) (fun o st => body (fst o) (snd o) st) s w.
Proof.
  intros H1. rewrite !range0_ok by exact H1.
  unfold bind at 1. unfold lift at 1. unfold grid.
  revert s w. induction (range_items W S) as [| x xs IH]; intros s w; simpl.
  - reflexivity.
  - rewrite for_each_app. unfold bind at 1. unfold bind at 1. unfold lift at 1.
    unfold bind at 2. rewrite for_each_map. simpl.
    destruct (for_each (range_items H S) (fun y st => body x y st) s w) as [[s' | e] w'].
    + apply IH.
    + reflexivity.
Qed.

(** ** Cropping *)

Lemma crop_ok (img : image) (S x y : Z) :
  1 <= S -> crop img (crop_box S x y) = Ok (tile_of img S (x, y)).
Proof.
  intros H1. unfold crop, crop_box, tile_of. simpl fst. simpl snd.
  destruct (Z.ltb_spec (x + (S - 1)) x); [lia |].
  destruct (Z.ltb_spec (y + (S - 1)) y); [lia |]. reflexivity.
Qed.

Lemma tile_of_width (img : image) (S : Z) (o : Z * Z) : width (tile_of img S o) = S - 1.
Proof. unfold tile_of, crop_box, cropped. simpl. lia. Qed.

Lemma tile_of_height (img : image) (S : Z) (o : Z * Z) : height (tile_of img S o) = S - 1.
Proof. unfold tile_of, crop_box, cropped. simpl. lia. Qed.

Lemma tile_of_size (img : image) (S : Z) (o : Z * Z) :
  size (tile_of img S o) = (S - 1, S - 1).
Proof. unfold size. rewrite tile_of_width, tile_of_height. reflexivity. Qed.

Lemma tile_of_mode (img : image) (S : Z) (o : Z * Z) : mode (tile_of img S o) = mode img.
Proof. reflexivity. Qed.

Lemma tile_of_bands (img : image) (S : Z) (o : Z * Z) : bands (tile_of img S o) = bands img.
Proof. reflexivity. Qed.

Lemma nth_upto (i n d : Z) : 0 <= i < n -> nth (Z.to_nat i) (upto n) d = i.
Proof.
  intros Hi. unfold upto.
  rewrite (nth_indep _ d (Z.of_nat 0)) by (rewrite length_map, length_seq; lia).
  rewrite map_nth, seq_nth by lia. lia.
Qed.

(** The cell [(i, j)] of a table built row by row. *)
Lemma nth_rows {A} (f : Z -> Z -> A) (w h i j : Z) (d : A) :
  0 <= i < w -> 0 <= j < h ->
  nth (Z.to_nat (j * w + i))
      (flat_map (fun j' => map (fun i' => f i' j') (upto w)) (upto h)) d
  = f i j.
Proof.
  intros Hi Hj. unfold upto at 2.
  assert (Hgen : forall (n : nat) (start : nat) (k : nat),
             (k < n)%nat ->
             nth (k * Z.to_nat w + Z.to_nat i)
                 (flat_map (fun j' => map (fun i' => f i' j') (upto w))
                           (map Z.of_nat (seq start n))) d
             = f i (Z.of_nat (start + k))).
  { induction n as [| n IH]; intros start k Hk; [lia |].
    simpl. destruct k as [| k].
    - rewrite app_nth1 by (rewrite length_map; unfold upto; rewrite length_map, length_seq; lia).
      simpl. rewrite (nth_indep _ d (f 0 (Z.of_nat start)))
        by (rewrite length_map; unfold upto; rewrite length_map, length_seq; lia).
      rewrite (map_nth (fun i' => f i' (Z.of_nat start)) (upto w) 0 (Z.to_nat i)).
      rewrite nth_upto by lia. f_equal. lia.
    - rewrite app_nth2 by (rewrite length_map; unfold upto; rewrite length_map, length_seq; simpl; lia).
      rewrite length_map. unfold upto at 1. rewrite length_map, length_seq.
      replace (S k * Z.to_nat w + Z.to_nat i - Z.to_nat w)%nat
        with (k * Z.to_nat w + Z.to_nat i)%nat by (simpl; lia).
      rewrite IH by lia. f_equal. lia. }
  replace (Z.to_nat (j * w + i)) with (Z.to_nat j * Z.to_nat w + Z.to_nat i)%nat by nia.
  rewrite Hgen by lia. f_equal. lia.
Qed.

Lemma length_rows {A} (f : Z -> Z -> A) (w h : Z) :
  0 <= w -> 0 <= h ->
  Z.of_nat (List.length (flat_map (fun j' => map (fun i' => f i' j') (upto w)) (upto h)))
  = w * h.
Proof.
  intros Hw Hh. rewrite <- (length_upto h Hh) at 2.
  induction (upto h) as [| j js IH]; simpl; [lia |].
  rewrite length_app, length_map, Nat2Z.inj_add, IH, (length_upto w Hw). lia.
Qed.

Lemma In_rows {A} (f : Z -> Z -> A) (w h : Z) (a : A) :
  In a (flat_map (fun j' => map (fun i' => f i' j') (upto w)) (upto h)) ->
  exists i j, a = f i j.
Proof.
  intros Hin. apply in_flat_map in Hin. destruct Hin as [j [_ Hin]].
  apply in_map_iff in Hin. destruct Hin as [i [<- _]]. exists i, j. reflexivity.
Qed.

Lemma tile_of_length (img : image) (S : Z) (o : Z * Z) :
  1 <= S -> Z.of_nat (List.length (getdata (tile_of img S o))) = (S - 1) * (S - 1).
Proof.
  intros H1. unfold tile_of, crop_box, cropped. simpl.
  rewrite length_rows by lia. nia.
Qed.

Lemma tile_of_pixel (img : image) (S x y i j : Z) :
  0 <= i < S - 1 -> 0 <= j < S - 1 ->
  pixel_at (tile_of img S (x, y)) i j = pixel_at img (x + i) (y + j).
Proof.
  intros Hi Hj. unfold pixel_at at 1. rewrite tile_of_width, tile_of_height.
  destruct (Z.leb_spec 0 i); [| lia]. destruct (Z.ltb_spec i (S - 1)); [| lia].
  destruct (Z.leb_spec 0 j); [| lia]. destruct (Z.ltb_spec j (S - 1)); [| lia].
  simpl. unfold tile_of, crop_box, cropped. simpl.
  replace (x + (S - 1) - x) with (S - 1) by lia.
  replace (y + (S - 1) - y) with (S - 1) by lia.
  apply (nth_rows (fun i' j' => pixel_at img (x + i') (y + j'))); assumption.
Qed.

Lemma zero_pixel_ok (img : image) :
  (1 <= bands img)%nat -> pixel_ok (mode img) (bands img) (zero_pixel img).
Proof.
  intros Hb. unfold zero_pixel. destruct (Nat.ltb_spec 1 (bands img)); simpl.
  - split; [assumption | apply repeat_length].
  - split; [lia | intros _; lia].
Qed.

Lemma pixel_at_ok (img : image) (x y : Z) :
  wf img -> pixel_ok (mode img) (bands img) (pixel_at img x y).
Proof.
  intros Hwf. unfold pixel_at.
  destruct ((0 <=? x) && (x <? width img) && (0 <=? y) && (y <? height img)).
  - destruct (nth_in_or_default (Z.to_nat (y * width img + x)) (getdata img) (zero_pixel img))
      as [Hin | ->].
    + pose proof (wf_pixels img Hwf) as Hall.
      rewrite List.Forall_forall in Hall. exact (Hall _ Hin).
    + apply zero_pixel_ok. exact (wf_bands img Hwf).
  - apply zero_pixel_ok. exact (wf_bands img Hwf).
Qed.

(** A tile of a well-formed image is a well-formed image. *)
Lemma tile_of_wf (img : image) (S : Z) (o : Z * Z) :
  wf img -> 1 <= S -> wf (tile_of img S o).
Proof.
  intros Hwf H1. constructor.
  - rewrite tile_of_bands. exact (wf_bands img Hwf).
  - rewrite tile_of_width. lia.
  - rewrite tile_of_height. lia.
  - rewrite tile_of_width, tile_of_height. apply tile_of_length. exact H1.
  - rewrite tile_of_mode, tile_of_bands. apply List.Forall_forall. intros p Hin.
    unfold tile_of, cropped, crop_box in Hin. simpl in Hin.
    apply In_rows in Hin. destruct Hin as [i [j ->]]. apply pixel_at_ok. exact Hwf.
  - rewrite tile_of_mode, tile_of_bands. exact (wf_P img Hwf).
  - rewrite tile_of_mode, tile_of_bands. exact (wf_RGBA img Hwf).
Qed.

Lemma tile_of_nonempty (img : image) (S : Z) (o : Z * Z) :
  2 <= S -> getdata (tile_of img S o) <> [].
Proof.
  intros H2 Hnil. pose proof (tile_of_length img S o ltac:(lia)) as Hlen.
  rewrite Hnil in Hlen. simpl in Hlen. nia.
Qed.

(** C4 (amended): at every origin [(x, y)] of the grid the box cropped is
    [(x, y, x + S - 1, y + S - 1)], far edge excluded, so the tile is
    [S - 1] by [S - 1] pixels and not [S] by [S]; this also holds for a tile
    at the edge of the image, which is not clamped to the image: the pixels
    of the box that lie outside the image are zero pixels. *)
Theorem tile_box_and_size (img : image) (S x y : Z) :
  1 <= S -> In (x, y) (grid (width img) (height img) S) ->
  crop_box S x y = (x, y, x + S - 1, y + S - 1) /\
  crop img (crop_box S x y) = Ok (tile_of img S (x, y)) /\
  size (tile_of img S (x, y)) = (S - 1, S - 1) /\
  size (tile_of img S (x, y)) <> (S, S) /\
  Z.of_nat (List.length (getdata (tile_of img S (x, y)))) = (S - 1) * (S - 1) /\
  (forall i j, 0 <= i < S - 1 -> 0 <= j < S - 1 ->
     pixel_at (tile_of img S (x, y)) i j = pixel_at img (x + i) (y + j)) /\
  (forall i j, 0 <= i < S - 1 -> 0 <= j < S - 1 ->
     width img <= x + i \/ height img <= y + j ->
     pixel_at (tile_of img S (x, y)) i j = zero_pixel img).
Proof.
  intros H1 _. split; [unfold crop_box; repeat f_equal; lia |].
  split; [apply crop_ok; exact H1 |].
  split; [apply tile_of_size |].
  split; [rewrite tile_of_size; intros [= Heq]; lia |].
  split; [apply tile_of_length; exact H1 |].
  split; [intros i j Hi Hj; apply tile_of_pixel; assumption |].
  intros i j Hi Hj Hout. rewrite tile_of_pixel by assumption.
  unfold pixel_at.
  destruct (Z.leb_spec 0 (x + i)); simpl; [| reflexivity].
  destruct (Z.ltb_spec (x + i) (width img)); simpl; [| reflexivity].
  destruct (Z.leb_spec 0 (y + j)); simpl; [| reflexivity].
  destruct (Z.ltb_spec (y + j) (height img)); simpl; [lia | reflexivity].
Qed.

Lemma tile_box_and_size_witness :
  1 <= 5 /\ In (0, 0) (grid (width Sample.gray_3x3) (height Sample.gray_3x3) 5) /\
  size (tile_of Sample.gray_3x3 5 (0, 0)) = (5 - 1, 5 - 1).
Proof.
  split; [lia |]. split; [left; reflexivity |].
  exact (proj1 (proj2 (proj2
    (tile_box_and_size Sample.gray_3x3 5 0 0 ltac:(lia) (or_introl eq_refl))))).
Defined.

(** C4 as stated fails on an edge tile: with a tile edge of 5 on a 3 by 3
    image the tile at the origin is 4 by 4 and not the 3 by 3 that clamping
    to the image would give; its last row and column are zero pixels. *)
Lemma edge_tile_not_clamped :
  In (0, 0) (grid (width Sample.gray_3x3) (height Sample.gray_3x3) 5) /\
  crop Sample.gray_3x3 (crop_box 5 0 0) = Ok (tile_of Sample.gray_3x3 5 (0, 0)) /\
  size (tile_of Sample.gray_3x3 5 (0, 0)) = (4, 4) /\
  clamped_size Sample.gray_3x3 5 (0, 0) = (3, 3) /\
  size (tile_of Sample.gray_3x3 5 (0, 0)) <> clamped_size Sample.gray_3x3 5 (0, 0) /\
  pixel_at (tile_of Sample.gray_3x3 5 (0, 0)) 3 3 = PInt 0.
Proof.
  split; [left; reflexivity |]. split; [reflexivity |]. split; [reflexivity |].
  split; [reflexivity |]. split; [discriminate | reflexivity].
Qed.

(** ** Saving tiles *)

Lemma is_dir_insert_file (f : gmap string node) (p q : string) (c : payload) :
  is_dir f p = false -> is_dir (<[p := File c]> f) q = is_dir f q.
Proof.
  intros Hp. unfold is_dir in *. destruct (decide (p = q)) as [<- | Hne].
  - rewrite lookup_insert_eq. destruct (f !! p) as [[| c'] |]; try reflexivity. discriminate.
  - rewrite lookup_insert_ne by exact Hne. reflexivity.
Qed.

Lemma can_save_same_dirs (enc : image -> option exn) (f f' : gmap string node)
    (img : image) (p : string) :
  (forall q, is_dir f' q = is_dir f q) -> can_save enc f' img p = can_save enc f img p.
Proof.
  intros Hd. unfold can_save, parent_exists, dir_exists. rewrite !Hd. reflexivity.
Qed.

Lemma can_save_not_dir (enc : image -> option exn) (f : gmap string node)
    (img : image) (p : string) :
  can_save enc f img p = true -> is_dir f p = false.
Proof.
  unfold can_save. destruct (is_dir f p); [discriminate | reflexivity].
Qed.

Lemma save_run (enc : image -> option exn) (img : image) (path : string) (w : world) :
  can_save enc (fs w) img path = true ->
  save enc img path w = (Ok tt, set_fs (<[path := File (Png img)]> (fs w)) w).
Proof.
  unfold can_save, save, write_image, is_dir. intros Hc.
  destruct (fs w !! path) as [[| c] |]; simpl in Hc; try discriminate;
    destruct (parent_exists (fs w) path); simpl in Hc; try discriminate;
    destruct (empty_image img); simpl in Hc; try discriminate;
    destruct (enc img); try discriminate; reflexivity.
Qed.

(** A failed save leaves the world as it was. *)
Lemma save_fail (enc : image -> option exn) (img : image) (path : string) (w : world) :
  can_save enc (fs w) img path = false ->
  exists e, save enc img path w = (Raise e, w).
Proof.
  unfold can_save, save, write_image, is_dir. intros Hc.
  destruct (fs w !! path) as [[| c] |]; simpl in Hc;
    try (eexists; reflexivity);
    destruct (parent_exists (fs w) path); simpl in Hc;
    try (eexists; reflexivity);
    destruct (empty_image img); simpl in Hc;
    try (eexists; reflexivity);
    destruct (enc img); try discriminate; eexists; reflexivity.
Qed.

Lemma is_dir_keep_tile (enc : image -> option exn) (filename output_dir : string)
    (img : image) (S : Z) (w : world) (o : Z * Z) :
  can_save enc (fs w) (tile_of img S o) (tile_path filename output_dir (fst o) (snd o)) = true ->
  forall q, is_dir (fs (keep_tile filename output_dir img S w o)) q = is_dir (fs w) q.
Proof.
  intros Hc q. apply can_save_not_dir in Hc. unfold keep_tile.
  destruct (debug w); simpl; apply is_dir_insert_file; exact Hc.
Qed.

Lemma debug_keep_tile (filename output_dir : string) (img : image) (S : Z)
    (w : world) (o : Z * Z) :
  debug (keep_tile filename output_dir img S w o) = debug w.
Proof. unfold keep_tile. destruct (debug w) eqn:E; simpl; rewrite ?E; reflexivity. Qed.

Lemma fs_keep_tile (filename output_dir : string) (img : image) (S : Z)
    (w : world) (o : Z * Z) :
  fs (keep_tile filename output_dir img S w o)
  = <[tile_path filename output_dir (fst o) (snd o) := File (Png (tile_of img S o))]> (fs w).
Proof. unfold keep_tile. destruct (debug w); reflexivity. Qed.

(** One round of the loops when transparency is allowed: the tile is saved
    and counted, whatever the classifier is. *)
Lemma tile_step_keep (enc : image -> option exn) (classifier : image -> M bool)
    (img : image) (filename output_dir : string) (S : Z) (o : Z * Z) (n : Z) (w : world) :
  1 <= S ->
  can_save enc (fs w) (tile_of img S o) (tile_path filename output_dir (fst o) (snd o)) = true ->
  tile_step enc classifier img filename output_dir S false (fst o) (snd o) (n, true) w
  = (Ok (n + 1, true), keep_tile filename output_dir img S w o).
Proof.
  intros H1 Hc. unfold tile_step. rewrite crop_ok by exact H1.
  rewrite <- surjective_pairing.
  unfold bind, lift, ret, get_debug, when, keep_tile, tile_path in *.
  destruct (debug w); simpl.
  - rewrite save_run by exact Hc. reflexivity.
  - rewrite save_run by exact Hc. reflexivity.
Qed.

(** One round of the loops when transparency is not allowed: the tile is
    classified, and saved and counted if the answer is false. *)
Lemma tile_step_judge (enc : image -> option exn)
    (img : image) (filename output_dir : string) (S : Z) (o : Z * Z)
    (n : Z) (sb b : bool) (line : string) (w : world) :
  1 <= S ->
  verdict (tile_of img S o) = Ok (b, line) ->
  (b = false ->
   can_save enc (fs w) (tile_of img S o)
            (tile_path filename output_dir (fst o) (snd o)) = true) ->
  tile_step enc has_transparency img filename output_dir S true (fst o) (snd o) (n, sb) w
  = (Ok (if b then n else n + 1, negb b), judge_tile filename output_dir img S w o).
Proof.
  intros H1 Hv Hc. unfold tile_step. rewrite crop_ok by exact H1.
  rewrite <- surjective_pairing. unfold judge_tile. rewrite Hv.
  unfold bind at 1. unfold lift at 1. unfold bind at 1. unfold bind at 1.
  rewrite has_transparency_run, Hv. unfold ret at 1.
  destruct b; simpl; [reflexivity |]. specialize (Hc eq_refl).
  unfold bind, ret, get_debug, when, keep_tile, tile_path in *. simpl.
  destruct (debug w); simpl.
  - rewrite save_run by exact Hc. reflexivity.
  - rewrite save_run by exact Hc. reflexivity.
Qed.

(** ** The loops of [cut_tiles] *)

Lemma nested_loops_grid {S0} (W H S : Z) (body : Z -> Z -> S0 -> M S0) (s : S0) (w : world) :
  1 <= S ->
  for_each (range_items W S) (fun x st =>
    ys <- lift (range0 H S) ;;
    for_each ys (fun y st => body x y st) st) s w
  = for_each (grid W H S) (fun o st => body (fst o) (snd o) st) s w.
Proof.
  intros H1. rewrite <- (loops_visit_grid W H S body s w H1).
  rewrite (range0_ok W S H1). reflexivity.
Qed.

Lemma cut_tiles_open (enc : image -> option exn) (classifier : image -> M bool)
    (input_dir filename output_dir : string) (S : Z) (no_alpha : bool)
    (img : image) (w : world) :
  fs w !! path_join input_dir filename = Some (File (Png img)) ->
  1 <= S ->
  cut_tiles_with enc classifier input_dir filename output_dir S no_alpha w
  = bind (for_each (grid (width img) (height img) S)
                   (fun o st => tile_step enc classifier img filename output_dir S no_alpha
                                          (fst o) (snd o) st)
                   (0, true))
         (fun st => ret (fst st))
         (say ("Cutting tiles from " +:+ filename) w).
Proof.
  intros Hfile H1. unfold cut_tiles_with.
  unfold bind at 1. unfold print at 1.
  unfold bind at 1. unfold Image_open at 1. simpl fs. rewrite Hfile.
  unfold size. rewrite (range0_ok (width img) S H1).
  unfold bind at 1. unfold lift at 1.
  unfold bind at 1. unfold bind at 2.
  rewrite (nested_loops_grid (width img) (height img) S
             (fun x y st => tile_step enc classifier img filename output_dir S no_alpha x y st)
             (0, true) _ H1).
  reflexivity.
Qed.

(** The loops of [cut_tiles] with a classifier that prints a label of the
    tile it is given and answers that the tile is transparent: nothing is
    saved, and the output lists the tiles of the origins in their order. *)
Lemma probe_loop (enc : image -> option exn) (label : image -> string)
    (img : image) (filename output_dir : string) (S : Z)
    (os : list (Z * Z)) (n : Z) (sb : bool) (w : world) :
  1 <= S ->
  exists sb' w',
    for_each os (fun o st =>
                   tile_step enc (fun tile => print (label tile) ;; ret true)
                             img filename output_dir S true (fst o) (snd o) st) (n, sb) w
    = (Ok (n, sb'), w') /\
    fs w' = fs w /\
    stdout w' = stdout w ++ map (fun o => label (tile_of img S o)) os.
Proof.
  intros H1. revert sb w. induction os as [| o os IH]; intros sb w; cbn [for_each map].
  - exists sb, w. rewrite app_nil_r. repeat split; reflexivity.
  - destruct (IH false (say (label (tile_of img S o)) w)) as (sb' & w' & Hrun & Hfs & Hout).
    exists sb', w'. split; [| split].
    + unfold bind at 1. unfold tile_step at 1. rewrite crop_ok by exact H1.
      rewrite <- surjective_pairing.
      unfold bind at 1. unfold lift at 1. unfold bind at 1. unfold bind at 1.
      unfold print at 1. unfold ret at 1. unfold ret at 1. cbn [negb].
      unfold ret at 1. exact Hrun.
    + rewrite Hfs. reflexivity.
    + rewrite Hout. cbn [say stdout]. rewrite <- app_assoc. reflexivity.
Qed.

(** C3: for an image of width [W >= 1] and height [H >= 1] and a tile edge
    [S >= 1], the two loops of [cut_tiles] run their body at the origins of
    [grid W H S], once each and in that order; these are exactly
    [ceil(W/S) * ceil(H/S)] origins, and every origin [(x, y)] has
    [0 <= x < W] and [0 <= y < H].  The origins are seen from outside with a
    classifier that prints a label of each tile it is handed. *)
Theorem grid_count_and_bounds (enc : image -> option exn) (classifier : image -> M bool)
    (input_dir filename output_dir : string) (S : Z) (no_alpha : bool)
    (img : image) (w : world) :
  fs w !! path_join input_dir filename = Some (File (Png img)) ->
  1 <= width img -> 1 <= height img -> 1 <= S ->
  let origins := grid (width img) (height img) S in
  cut_tiles_with enc classifier input_dir filename output_dir S no_alpha w
  = (st <- for_each origins
             (fun o st => tile_step enc classifier img filename output_dir S no_alpha
                                    (fst o) (snd o) st)
             (0, true) ;;
     ret (fst st)) (say ("Cutting tiles from " +:+ filename) w) /\
  (forall label : image -> string,
   exists w',
     cut_tiles_with enc (fun tile => print (label tile) ;; ret true)
                    input_dir filename output_dir S true w = (Ok 0, w') /\
     fs w' = fs w /\
     stdout w' = stdout w ++ ("Cutting tiles from " +:+ filename)
                              :: map (fun o => label (tile_of img S o)) origins) /\
  Z.of_nat (List.length origins)
    = ceil_div (width img) S * ceil_div (height img) S /\
  (forall x y, In (x, y) origins -> 0 <= x < width img /\ 0 <= y < height img).
Proof.
  intros Hfile HW HH HS origins. split; [| split; [| split]].
  - apply cut_tiles_open; assumption.
  - intros label.
    rewrite (cut_tiles_open enc _ input_dir filename output_dir S true img w Hfile HS).
    fold origins.
    destruct (probe_loop enc label img filename output_dir S origins 0 true
                (say ("Cutting tiles from " +:+ filename) w) HS)
      as (sb' & w' & Hrun & Hfs & Hout).
    exists w'. unfold bind at 1. rewrite Hrun. split; [reflexivity |].
    split; [exact Hfs |]. rewrite Hout. cbn [say stdout].
    rewrite <- app_assoc. reflexivity.
  - unfold origins.
    rewrite length_grid, Nat2Z.inj_mul, !length_range_items by exact HS.
    rewrite !range_len_ceil by lia. reflexivity.
  - intros x y Hin. apply In_grid in Hin. destruct Hin as [Hx Hy].
    split; eapply range_items_bounds; eauto.
Qed.

Lemma grid_count_and_bounds_witness :
  fs (Sample.world_with Sample.gray_3x3) !! path_join "in" "a_GEXD_resized.png"
    = Some (File (Png Sample.gray_3x3)) /\
  1 <= 3 /\ 1 <= 2 /\
  Z.of_nat (List.length (grid 3 3 2)) = ceil_div 3 2 * ceil_div 3 2 /\
  (forall x y, In (x, y) (grid 3 3 2) -> 0 <= x < 3 /\ 0 <= y < 3).
Proof.
  split; [reflexivity |]. split; [lia |]. split; [lia |].
  assert (H3 : 1 <= 3) by lia. assert (H2 : 1 <= 2) by lia.
  exact (proj2 (proj2
    (grid_count_and_bounds Sample.encoder_ok has_transparency "in" "a_GEXD_resized.png"
       "out" 2 false Sample.gray_3x3 (Sample.world_with Sample.gray_3x3)
       eq_refl H3 H3 H2))).
Defined.

Lemma keep_loop (enc : image -> option exn) (classifier : image -> M bool)
    (img : image) (filename output_dir : string) (S : Z)
    (os : list (Z * Z)) (n : Z) (w : world) :
  1 <= S ->
  (forall o, In o os ->
     can_save enc (fs w) (tile_of img S o)
              (tile_path filename output_dir (fst o) (snd o)) = true) ->
  for_each os (fun o st => tile_step enc classifier img filename output_dir S false
                                     (fst o) (snd o) st) (n, true) w
  = (Ok (n + Z.of_nat (List.length os), true),
     fold_left (keep_tile filename output_dir img S) os w).
Proof.
  intros H1. revert n w.
  induction os as [| o os IH]; intros n w Hc; cbn [for_each fold_left List.length].
  - unfold ret. rewrite Z.add_0_r. reflexivity.
  - unfold bind. rewrite tile_step_keep; [| exact H1 | apply Hc; left; reflexivity].
    rewrite IH.
    + f_equal. f_equal. f_equal. lia.
    + intros o' Hin. rewrite (can_save_same_dirs enc (fs w)).
      * apply Hc. right. exact Hin.
      * apply (is_dir_keep_tile enc). apply Hc. left. reflexivity.
Qed.

Lemma is_dir_judge_tile (enc : image -> option exn) (filename output_dir : string)
    (img : image) (S : Z) (w : world) (o : Z * Z) :
  (transparent (tile_of img S o) = false ->
   can_save enc (fs w) (tile_of img S o)
            (tile_path filename output_dir (fst o) (snd o)) = true) ->
  forall q, is_dir (fs (judge_tile filename output_dir img S w o)) q = is_dir (fs w) q.
Proof.
  intros Hc q. unfold judge_tile. unfold transparent in Hc.
  destruct (verdict (tile_of img S o)) as [[[|] line] | e]; try reflexivity.
  apply (is_dir_keep_tile enc filename output_dir img S (say line w) o).
  apply Hc. reflexivity.
Qed.

Lemma transparent_verdict (tile : image) (b : bool) (line : string) :
  verdict tile = Ok (b, line) -> transparent tile = b.
Proof. intros Hv. unfold transparent. rewrite Hv. reflexivity. Qed.

Lemma judge_loop (enc : image -> option exn)
    (img : image) (filename output_dir : string) (S : Z)
    (os : list (Z * Z)) (n : Z) (sb : bool) (w : world) :
  1 <= S ->
  (forall o, In o os -> exists b line, verdict (tile_of img S o) = Ok (b, line)) ->
  (forall o, In o os -> transparent (tile_of img S o) = false ->
     can_save enc (fs w) (tile_of img S o)
              (tile_path filename output_dir (fst o) (snd o)) = true) ->
  exists sb',
    for_each os (fun o st => tile_step enc has_transparency img filename output_dir S true
                                       (fst o) (snd o) st) (n, sb) w
    = (Ok (n + Z.of_nat (List.length (accepted img S os)), sb'),
       fold_left (judge_tile filename output_dir img S) os w).
Proof.
  intros H1. revert n sb w.
  induction os as [| o os IH]; intros n sb w Hv Hc; cbn [for_each fold_left].
  - exists sb. unfold ret. simpl. rewrite Z.add_0_r. reflexivity.
  - destruct (Hv o (or_introl eq_refl)) as (b & line & Hvo).
    pose proof (transparent_verdict _ b line Hvo) as Htr.
    unfold bind.
    rewrite (tile_step_judge enc img filename output_dir S o n sb b line w H1 Hvo).
    2: { intros ->. apply Hc; [left; reflexivity | exact Htr]. }
    destruct (IH (if b then n else n + 1) (negb b)
                 (judge_tile filename output_dir img S w o)) as [sb' Hrun].
    + intros o' Hin. apply Hv. right. exact Hin.
    + intros o' Hin Ht. rewrite (can_save_same_dirs enc (fs w)).
      * apply Hc; [right; exact Hin | exact Ht].
      * apply (is_dir_judge_tile enc). apply Hc. left. reflexivity.
    + exists sb'. rewrite Hrun. f_equal. f_equal. f_equal.
      unfold accepted. cbn [List.filter]. fold (accepted img S os).
      rewrite Htr. destruct b; simpl; lia.
Qed.

Lemma fs_keep_all (filename output_dir : string) (img : image) (S : Z)
    (os : list (Z * Z)) (w : world) :
  fs (fold_left (keep_tile filename output_dir img S) os w)
  = write_all filename output_dir img S os (fs w).
Proof.
  unfold write_all. revert w. induction os as [| o os IH]; intros w; simpl; [reflexivity |].
  rewrite IH, fs_keep_tile. reflexivity.
Qed.

Lemma fs_judge_all (filename output_dir : string) (img : image) (S : Z)
    (os : list (Z * Z)) (w : world) :
  (forall o, In o os -> exists b line, verdict (tile_of img S o) = Ok (b, line)) ->
  fs (fold_left (judge_tile filename output_dir img S) os w)
  = write_all filename output_dir img S (accepted img S os) (fs w).
Proof.
  unfold write_all. revert w.
  induction os as [| o os IH]; intros w Hv; cbn [fold_left]; [reflexivity |].
  destruct (Hv o (or_introl eq_refl)) as (b & line & Hvo).
  rewrite IH by (intros o' Hin; apply Hv; right; exact Hin).
  unfold judge_tile. rewrite Hvo.
  unfold accepted. cbn [List.filter]. rewrite (transparent_verdict _ b line Hvo).
  destruct b; cbn [negb fold_left]; [reflexivity |]. rewrite fs_keep_tile. reflexivity.
Qed.

(** ** A tile edge of 1 *)



Lemma can_save_nonempty (enc : image -> option exn) (f : gmap string node)
    (img : image) (p : string) :
  can_save enc f img p = true -> empty_image img = false.
Proof.
  unfold can_save. destruct (empty_image img); [| reflexivity].
  rewrite andb_false_r. discriminate.
Qed.




(** ** The orchestrator *)


Ltac sample_origins Hin :=
  vm_compute in Hin;
  repeat (destruct Hin as [<- | Hin]; [vm_compute; reflexivity |]);
  contradiction.



Lemma classifier_returns (tile : image) (w0 : world) :
  (exists b line, verdict tile = Ok (b, line)) ->
  fst (has_transparency tile w0) = Ok (transparent tile).
Proof.
  intros (b & line & Hv). rewrite has_transparency_run.
  unfold transparent. rewrite Hv. reflexivity.
Qed.

(** The contract of [cut_tiles] when transparency is not allowed: a
    candidate tile is left out if and only if the classifier returns true on
    the pixels of that tile; so the number of tiles written is at most the
    number of candidates, and every tile left out is classified transparent
    when classified again.  The saves of the tiles kept are assumed to
    succeed, which asks for a tile edge of at least 2: with a tile edge of 1
    the tiles are without pixels, on an RGBA image the classifier raises on
    them, and on any other image they are kept and their save raises. *)
Theorem cut_tiles_no_alpha (enc : image -> option exn)
    (input_dir filename output_dir : string) (S : Z) (img : image) (w : world) :
  fs w !! path_join input_dir filename = Some (File (Png img)) ->
  wf img -> 1 <= S -> (2 <= S \/ mode img <> "RGBA") ->
  (forall o, In o (grid (width img) (height img) S) ->
     transparent (tile_of img S o) = false ->
     can_save enc (fs w) (tile_of img S o)
              (tile_path filename output_dir (fst o) (snd o)) = true) ->
  no_alpha_contract enc input_dir filename output_dir S img w.
Proof.
  intros Hfile Hwf H1 Hcase Hc. unfold no_alpha_contract. cbv zeta.
  set (cands := grid (width img) (height img) S).
  assert (Hv : forall o, exists b line, verdict (tile_of img S o) = Ok (b, line)).
  { intros o. destruct (verdict_rules (tile_of img S o)) as (b & line & Hv & _).
    - apply tile_of_wf; assumption.
    - rewrite tile_of_mode. intros HA. destruct Hcase as [H2 | HnA].
      + apply tile_of_nonempty. exact H2.
      + contradiction.
    - exists b, line. exact Hv. }
  set (w1 := say ("Cutting tiles from " +:+ filename) w).
  destruct (judge_loop enc img filename output_dir S cands 0 true w1 H1
              (fun o _ => Hv o) Hc) as [sb Hloop].
  exists (fold_left (judge_tile filename output_dir img S) cands w1).
  split; [| split; [| split; [| split]]].
  - unfold cut_tiles.
    rewrite (cut_tiles_open enc has_transparency input_dir filename output_dir S true img w
               Hfile H1).
    unfold bind. fold w1. fold cands. rewrite Hloop. reflexivity.
  - rewrite fs_judge_all by (intros o _; apply Hv). reflexivity.
  - intros o Hin. unfold accepted. rewrite filter_In. split.
    + intros Hout w0. rewrite classifier_returns by apply Hv.
      destruct (transparent (tile_of img S o)); [reflexivity |].
      exfalso. apply Hout. split; [exact Hin | reflexivity].
    + intros Hcl [_ Hneg]. specialize (Hcl w).
      rewrite classifier_returns in Hcl by apply Hv.
      injection Hcl as Hcl. rewrite Hcl in Hneg. discriminate.
  - intros o Hin. unfold accepted. rewrite filter_In. split.
    + intros [_ Hneg] w0. rewrite classifier_returns by apply Hv.
      destruct (transparent (tile_of img S o)); [discriminate | reflexivity].
    + intros Hcl. split; [exact Hin |]. specialize (Hcl w).
      rewrite classifier_returns in Hcl by apply Hv.
      injection Hcl as Hcl. rewrite Hcl. reflexivity.
  - unfold accepted. apply inj_le. apply filter_length_le.
Qed.

Lemma cut_tiles_no_alpha_witness :
  wf Sample.gray_3x3 /\ 1 <= 2 /\
  no_alpha_contract Sample.encoder_ok "in" "a_GEXD_resized.png" "out" 2
                    Sample.gray_3x3 (Sample.world_with Sample.gray_3x3).
Proof.
  assert (Hwf : wf Sample.gray_3x3) by sample_wf.
  split; [exact Hwf |]. split; [lia |].
  apply (cut_tiles_no_alpha Sample.encoder_ok "in" "a_GEXD_resized.png" "out" 2
           Sample.gray_3x3 (Sample.world_with Sample.gray_3x3)).
  - reflexivity.
  - exact Hwf.
  - lia.
  - left. lia.
  - intros o Hin _. sample_origins Hin.
Defined.

(** C2, the code at a failing input: for a tile edge of 1 on an RGBA image
    the only candidate tile has no pixels, the classifier raises
    [TypeError] on it, and [cut_tiles] raises with it: the tile is not
    written, and classified again it is not found transparent. *)
Lemma cut_tiles_no_alpha_edge_one :
  wf Sample.rgba_opaque /\
  grid (width Sample.rgba_opaque) (height Sample.rgba_opaque) 1 = [(0, 0)] /\
  tile_of Sample.rgba_opaque 1 (0, 0) = Sample.empty_rgba /\
  fst (cut_tiles Sample.encoder_ok "in" "a_GEXD_resized.png" "out" 1 true
                 (Sample.world_with Sample.rgba_opaque)) = Raise TypeError /\
  (forall w0, fst (has_transparency (tile_of Sample.rgba_opaque 1 (0, 0)) w0)
              = Raise TypeError) /\
  ~ no_alpha_contract Sample.encoder_ok "in" "a_GEXD_resized.png" "out" 1
                      Sample.rgba_opaque (Sample.world_with Sample.rgba_opaque).
Proof.
  split; [sample_wf |]. split; [reflexivity |]. split; [reflexivity |].
  split; [vm_compute; reflexivity |]. split.
  - intros w0. rewrite has_transparency_run. reflexivity.
  - intros (w' & Hrun & _).
    apply (f_equal fst) in Hrun. vm_compute in Hrun. discriminate.
Qed.

(** ** Tile identifiers *)

Lemma str_nonneg (n : Z) :
  0 <= n -> exists d, str n = NilEmpty.string_of_uint d /\ Z.of_uint d = n.
Proof.
  intros Hn. destruct n as [| p | p]; [| | lia].
  - exists (Decimal.D0 Decimal.Nil). split; reflexivity.
  - exists (Pos.to_uint p). split.
    + unfold str. simpl. unfold NilZero.string_of_uint.
      pose proof (DecimalPos.Unsigned.to_uint_nonnil p) as Hnil.
      destruct (Pos.to_uint p); [contradiction | ..]; reflexivity.
    + unfold Z.of_uint. rewrite DecimalPos.Unsigned.of_to. reflexivity.
Qed.

Lemma decimal_value_zeros (k : nat) (s : string) :
  decimal_value (zeros k +:+ s) = decimal_value s.
Proof.
  induction k as [| k IH]; [reflexivity |].
  rewrite <- IH. unfold decimal_value. simpl.
  destruct (NilEmpty.uint_of_string (zeros k +:+ s)); reflexivity.
Qed.

Lemma decimal_value_format (n : Z) : 0 <= n -> decimal_value (format_0_4 n) = n.
Proof.
  intros Hn. unfold format_0_4, rjust0. rewrite decimal_value_zeros.
  destruct (str_nonneg n Hn) as (d & -> & Hd).
  unfold decimal_value. rewrite NilEmpty.usu. exact Hd.
Qed.

Lemma format_0_4_inj (n m : Z) : 0 <= n -> 0 <= m -> format_0_4 n = format_0_4 m -> n = m.
Proof.
  intros Hn Hm Heq. rewrite <- (decimal_value_format n Hn), <- (decimal_value_format m Hm).
  rewrite Heq. reflexivity.
Qed.

Lemma append_inv_head (s a b : string) : s +:+ a = s +:+ b -> a = b.
Proof.
  induction s as [| c s IH]; simpl; [trivial |]. intros [= H]. exact (IH H).
Qed.

Lemma append_cons (c : ascii) (s t : string) : String c s +:+ t = String c (s +:+ t).
Proof. reflexivity. Qed.

Lemma append_empty (s : string) : EmptyString +:+ s = s.
Proof. reflexivity. Qed.

Lemma append_assoc3 (a b c : string) : (a +:+ b) +:+ c = a +:+ (b +:+ c).
Proof.
  induction a as [| x a IH]; [reflexivity |].
  rewrite !append_cons, IH. reflexivity.
Qed.

Lemma split0_zeros (k : nat) (s : string) :
  split0 "_" (zeros k +:+ s) = zeros k +:+ split0 "_" s.
Proof.
  induction k as [| k IH]; [reflexivity |].
  cbn [zeros]. rewrite !append_cons. cbn [split0]. rewrite IH. reflexivity.
Qed.

Lemma split0_digits (d : Decimal.uint) (r : string) :
  split0 "_" (NilEmpty.string_of_uint d +:+ String "_" r) = NilEmpty.string_of_uint d.
Proof.
  induction d; cbn [NilEmpty.string_of_uint];
    rewrite ?append_cons, ?append_empty; cbn [split0]; rewrite ?IHd; reflexivity.
Qed.

(** The text of a coordinate ends where the next underscore stands. *)
Lemma split0_format (n : Z) (r : string) :
  0 <= n -> split0 "_" (format_0_4 n +:+ String "_" r) = format_0_4 n.
Proof.
  intros Hn. unfold format_0_4, rjust0. rewrite append_assoc3, split0_zeros.
  destruct (str_nonneg n Hn) as (d & -> & _). rewrite split0_digits. reflexivity.
Qed.

Lemma tile_name_inj (filename : string) (x y x' y' : Z) :
  0 <= x -> 0 <= y -> 0 <= x' -> 0 <= y' ->
  tile_name filename x y = tile_name filename x' y' -> x = x' /\ y = y'.
Proof.
  intros Hx Hy Hx' Hy' Heq. unfold tile_name in Heq. cbv zeta in Heq.
  apply append_inv_head in Heq.
  rewrite !append_cons, !append_empty in Heq. injection Heq as Heq.
  assert (Hfx : format_0_4 x = format_0_4 x').
  { apply (f_equal (split0 "_")) in Heq.
    rewrite !split0_format in Heq by assumption. exact Heq. }
  rewrite Hfx in Heq. apply append_inv_head in Heq. injection Heq as Hfy.
  split; apply format_0_4_inj; assumption.
Qed.

(** C6: the origins of one walk over an image are pairwise distinct, and so
    are the identifiers [{stem}_{x:0>4}_{y:0>4}] made from them; the padding
    to width 4 keeps every digit of a coordinate, also of one with five or
    more digits, so the origin can be read back from the identifier. *)
Theorem tile_identifiers_distinct (filename : string) (W H S : Z) :
  1 <= S ->
  List.NoDup (grid W H S) /\
  (forall x y x' y',
     In (x, y) (grid W H S) -> In (x', y') (grid W H S) ->
     tile_name filename x y = tile_name filename x' y' -> (x, y) = (x', y')) /\
  List.NoDup (map (fun o => tile_name filename (fst o) (snd o)) (grid W H S)) /\
  (forall n, 0 <= n ->
     (exists k, format_0_4 n = zeros k +:+ str n) /\
     decimal_value (format_0_4 n) = n) /\
  (forall x y, In (x, y) (grid W H S) ->
     tile_name filename x y
     = split0 "." filename +:+ "_" +:+ format_0_4 x +:+ "_" +:+ format_0_4 y).
Proof.
  intros H1.
  assert (Hinj : forall x y x' y',
             In (x, y) (grid W H S) -> In (x', y') (grid W H S) ->
             tile_name filename x y = tile_name filename x' y' -> (x, y) = (x', y')).
  { intros x y x' y' Hin Hin' Heq.
    apply In_grid in Hin. apply In_grid in Hin'.
    destruct Hin as [Hx Hy]. destruct Hin' as [Hx' Hy'].
    apply (range_items_bounds _ _ _ H1) in Hx, Hy, Hx', Hy'.
    destruct (tile_name_inj filename x y x' y') as [-> ->]; try lia; [exact Heq |].
    reflexivity. }
  split; [apply NoDup_grid; exact H1 |]. split; [exact Hinj |]. split.
  - apply NoDup_map_NoDup_ForallPairs; [| apply NoDup_grid; exact H1].
    intros [x y] [x' y'] Hin Hin' Heq. exact (Hinj x y x' y' Hin Hin' Heq).
  - split.
    + intros n Hn. split.
      * exists (4 - String.length (str n))%nat. reflexivity.
      * apply decimal_value_format. exact Hn.
    + intros x y _. reflexivity.
Qed.

Lemma tile_identifiers_distinct_witness :
  1 <= 128 /\
  List.NoDup (map (fun o => tile_name "a_GEXD_resized.png" (fst o) (snd o))
                  (grid 256 256 128)) /\
  tile_name "a_GEXD_resized.png" 0 128 = "a_GEXD_resized_0000_0128" /\
  tile_name "a_GEXD_resized.png" 12800 0 = "a_GEXD_resized_12800_0000".
Proof.
  split; [lia |]. split; [| split; reflexivity].
  exact (proj1 (proj2 (proj2
    (tile_identifiers_distinct "a_GEXD_resized.png" 256 256 128 ltac:(lia))))).
Defined.

(** ** Converting a raster *)

Section Convert.

Variable enc : image -> option exn.
Variable cmd : string -> gmap string node -> string * gmap string node.
Variable ff : string -> result Z.
Variable rs : image -> Z * Z -> result image.

Lemma popen_read_run (c : string) (w : world) :
  popen_read cmd c w = (Ok (fst (cmd c (fs w))), set_fs (snd (cmd c (fs w))) w).
Proof. unfold popen_read. destruct (cmd c (fs w)); reflexivity. Qed.

Lemma convert_geotiff_gives_up (input_dir filename output_dir : string) (w : world) :
  gives_up cmd ff input_dir filename output_dir (fs w) ->
  exists w',
    convert_geotiff enc cmd ff rs input_dir filename output_dir w = (Ok None, w') /\
    fs w' = commands_fs cmd ff input_dir filename output_dir (fs w) /\
    debug w' = debug w.
Proof.
  unfold gives_up, commands_fs. cbv zeta. intros Hgive.
  unfold convert_geotiff. cbv zeta.
  unfold bind at 1. unfold print at 1.
  unfold bind at 1. rewrite popen_read_run. rewrite !fs_say.
  fold (gdalinfo_cmd input_dir filename).
  destruct Hgive as [Hnone | (g1 & g2 & mn & mx & Hsome & H1 & H2 & Habsent)].
  - rewrite Hnone. eexists. split; [reflexivity |]. split; reflexivity.
  - rewrite Hsome in *. rewrite H1, H2 in *.
    unfold bind at 1. unfold lift at 1. unfold bind at 1. unfold lift at 1.
    unfold bind at 1. unfold get_debug at 1.
    rewrite debug_set_fs, debug_say.
    fold (output_filename filename).
    fold (translate_cmd input_dir filename output_dir mn mx).
    destruct (debug w) eqn:Edbg; cbn [when].
    + unfold bind at 1. unfold bind at 1. unfold print at 1.
      unfold print at 1. unfold bind at 1. unfold print at 1.
      unfold bind at 1. rewrite popen_read_run.
      unfold bind at 1. unfold isfile at 1.
      rewrite !fs_set_fs, ?fs_say, !fs_set_fs. rewrite Habsent.
      eexists. split; [reflexivity |]. split; [reflexivity | exact Edbg].
    + unfold bind at 1. unfold ret at 1. unfold bind at 1. unfold ret at 1.
      unfold bind at 1. rewrite popen_read_run.
      unfold bind at 1. unfold isfile at 1.
      rewrite !fs_set_fs. rewrite Habsent.
      eexists. split; [reflexivity |]. split; [reflexivity | exact Edbg].
Qed.

End Convert.

Lemma convert_step_invokes (enc : image -> option exn)
    (cmd : string -> gmap string node -> string * gmap string node)
    (ff : string -> result Z) (rs : image -> Z * Z -> result image)
    (input_dir filename : string) (total n : Z) (w : world) :
  endswith filename ".tif" = true ->
  is_file (fs w) (gexd_file filename) = false ->
  convert_step enc cmd ff rs input_dir total filename n w
  = (print ("Processing " +:+ str (n + 1) +:+ "/" +:+ str total) ;;
     _ <- convert_geotiff enc cmd ff rs input_dir filename input_dir ;;
     ret (n + 1)) w.
Proof.
  intros Htif Hno. unfold convert_step. rewrite Htif. cbv zeta.
  unfold bind at 1. unfold isfile at 1.
  fold (gexd_file filename). rewrite Hno. reflexivity.
Qed.

(** The cases in which a raster is skipped: when the output of the
    inspection command has no match for the minimum and maximum, or when
    the numbers were read and the file that the rescaling command should
    have written is not there afterwards, [convert_geotiff] returns [None]
    and has itself written no file (the files are as the commands left
    them), and the loop of [gextool] goes on with the remaining names. *)
Theorem convert_geotiff_skips (enc : image -> option exn)
    (cmd : string -> gmap string node -> string * gmap string node)
    (ff : string -> result Z) (rs : image -> Z * Z -> result image)
    (input_dir filename output_dir : string) (w : world) :
  gives_up cmd ff input_dir filename output_dir (fs w) ->
  (exists w',
     convert_geotiff enc cmd ff rs input_dir filename output_dir w = (Ok None, w') /\
     fs w' = commands_fs cmd ff input_dir filename output_dir (fs w)) /\
  (output_dir = input_dir -> endswith filename ".tif" = true ->
   is_file (fs w) (gexd_file filename) = false ->
   forall (total n : Z) (rest : list string),
   exists w',
     for_each (filename :: rest) (convert_step enc cmd ff rs input_dir total) n w
     = for_each rest (convert_step enc cmd ff rs input_dir total) (n + 1) w' /\
     fs w' = commands_fs cmd ff input_dir filename input_dir (fs w)).
Proof.
  intros Hgive. split.
  - destruct (convert_geotiff_gives_up enc cmd ff rs input_dir filename output_dir w Hgive)
      as (w' & Hrun & Hfs & _).
    exists w'. split; assumption.
  - intros -> Htif Hno total n rest.
    set (w1 := say ("Processing " +:+ str (n + 1) +:+ "/" +:+ str total) w).
    destruct (convert_geotiff_gives_up enc cmd ff rs input_dir filename input_dir w1 Hgive)
      as (w' & Hrun & Hfs & _).
    exists w'. split; [| exact Hfs].
    cbn [for_each]. unfold bind at 1.
    rewrite (convert_step_invokes enc cmd ff rs input_dir filename total n w Htif Hno).
    unfold bind at 1. unfold print at 1. fold w1.
    unfold bind at 1. rewrite Hrun. reflexivity.
Qed.

Lemma convert_geotiff_skips_witness :
  gives_up Sample.no_command Sample.no_float "in" "a.tif" "in" (fs Sample.world_tif) /\
  exists w',
    convert_geotiff Sample.encoder_ok Sample.no_command Sample.no_float Sample.same_image
                    "in" "a.tif" "in" Sample.world_tif = (Ok None, w') /\
    fs w' = fs Sample.world_tif.
Proof.
  assert (Hgive : gives_up Sample.no_command Sample.no_float "in" "a.tif" "in"
                           (fs Sample.world_tif)) by (left; reflexivity).
  split; [exact Hgive |].
  exact (proj1 (convert_geotiff_skips Sample.encoder_ok Sample.no_command Sample.no_float
                  Sample.same_image "in" "a.tif" "in" Sample.world_tif Hgive)).
Defined.

(** C7, the code at a failing input: the inspection prints [Max=.,.].  The
    pattern matches, with a lone dot for the minimum and for the maximum,
    so the output holds no min/max that can be read, and the code does not
    skip the raster: [float] raises [ValueError] on the dot,
    [convert_geotiff] raises with it before the rescaling command is run,
    the loop of [gextool] over the rasters ends there whatever names are
    left, and so does the run, before any tile is cut.  The report of a
    missing min/max, which the code makes when there is no match at all, is
    not printed. *)
Theorem convert_geotiff_unreadable_range :
  Re.search "Max=.,." = Some (".", ".") /\
  (forall ff : string -> result Z, math_floor_float ff "." = Raise ValueError) /\
  (forall (enc : image -> option exn) (ff : string -> result Z)
          (rs : image -> Z * Z -> result image)
          (input_dir filename output_dir : string) (w : world),
     convert_geotiff enc Sample.gdal_dots ff rs input_dir filename output_dir w
     = (Raise ValueError, say ("Converting: " +:+ filename) w)) /\
  (forall (enc : image -> option exn) (ff : string -> result Z)
          (rs : image -> Z * Z -> result image) (rest : list string),
     for_each ("a.tif" :: rest) (convert_step enc Sample.gdal_dots ff rs "in" 1) 0
              Sample.world_tif
     = (Raise ValueError,
        say "Converting: a.tif" (say "Processing 1/1" Sample.world_tif))) /\
  (forall (enc : image -> option exn) (ff : string -> result Z)
          (rs : image -> Z * Z -> result image) (tile_size : Z) (no_alpha : bool),
   exists w',
     gextool enc Sample.gdal_dots ff rs "in" "out" tile_size no_alpha false Sample.world_tif
     = (Raise ValueError, w') /\
     fs w' = fs Sample.world_tif /\
     stdout w' = ["Running GEXtool! Your friendly neighborhood Geotiff EXtraction tool.";
                  "1 TIF files found! Nice!";
                  "Processing GeoTIFFs...";
                  "Processing 1/1";
                  "Converting: a.tif"]).
Proof.
  split; [reflexivity |]. split; [reflexivity |]. split; [| split].
  - intros enc ff rs input_dir filename output_dir w. reflexivity.
  - intros enc ff rs rest. reflexivity.
  - intros enc ff rs tile_size no_alpha. eexists. split; [| split].
    + vm_compute. reflexivity.
    + reflexivity.
    + reflexivity.
Qed.

(** ** The names of converted files *)

Lemma contains_cons (c x : ascii) (s : string) :
  contains c (String x s) = Ascii.eqb c x || contains c s.
Proof. reflexivity. Qed.

Lemma contains_append (c : ascii) (a b : string) :
  contains c (a +:+ b) = contains c a || contains c b.
Proof.
  induction a as [| x a IH]; [reflexivity |].
  rewrite append_cons, !contains_cons, IH. apply orb_assoc.
Qed.

Lemma length_append (a b : string) :
  String.length (a +:+ b) = (String.length a + String.length b)%nat.
Proof.
  induction a as [| x a IH]; [reflexivity |].
  rewrite append_cons. cbn [String.length]. rewrite IH. reflexivity.
Qed.

Lemma split0_without (c : ascii) (s : string) : contains c s = false -> split0 c s = s.
Proof.
  induction s as [| x s IH]; [reflexivity |].
  rewrite contains_cons. intros H. apply orb_false_elim in H. destruct H as [Hx Hs].
  cbn [split0]. rewrite Ascii.eqb_sym, Hx, (IH Hs). reflexivity.
Qed.

Lemma length_split0_le (c : ascii) (s : string) :
  (String.length (split0 c s) <= String.length s)%nat.
Proof.
  induction s as [| x s IH]; cbn [split0]; [reflexivity |].
  destruct (Ascii.eqb x c); cbn [String.length]; lia.
Qed.

Lemma length_split0_lt (c : ascii) (s : string) :
  contains c s = true -> (String.length (split0 c s) < String.length s)%nat.
Proof.
  induction s as [| x s IH]; [discriminate |].
  rewrite contains_cons. cbn [split0]. rewrite (Ascii.eqb_sym c x).
  destruct (Ascii.eqb x c); simpl; [lia |]. intros H. specialize (IH H). lia.
Qed.

Lemma contains_drop (c : ascii) (k : nat) (s : string) :
  contains c (Py.drop k s) = true -> contains c s = true.
Proof.
  revert s. induction k as [| k IH]; intros s; [trivial |].
  destruct s as [| x s]; cbn [Py.drop]; [trivial |].
  intros H. rewrite contains_cons, (IH s H). apply orb_true_r.
Qed.

Lemma endswith_contains (c : ascii) (s suffix : string) :
  endswith s suffix = true -> contains c suffix = true -> contains c s = true.
Proof.
  unfold endswith. intros H Hc. apply andb_prop in H. destruct H as [_ H].
  apply String.eqb_eq in H. rewrite <- H in Hc. exact (contains_drop _ _ _ Hc).
Qed.

Lemma path_join_cases (a b : string) :
  path_join a b = b \/ has_slash (path_join a b) = true.
Proof.
  unfold path_join. destruct (startswith b "/"); [left; reflexivity |].
  destruct (String.eqb_spec a "") as [-> | Hne]; [left; reflexivity |].
  right. unfold has_slash. cbn [orb].
  destruct (endswith a "/") eqn:E.
  - rewrite contains_append, (endswith_contains "/" a "/" E eq_refl). reflexivity.
  - rewrite !contains_append. cbn. apply orb_true_r.
Qed.

Lemma gexd_file_without_comma (filename : string) :
  contains "," filename = false -> gexd_file filename = filename +:+ "_GEXD.png".
Proof.
  intros H. unfold gexd_file. rewrite (split0_without _ _ H). reflexivity.
Qed.

Lemma names_differ (filename : string) :
  endswith filename ".tif" = true -> contains "," filename = false ->
  gexd_file filename <> output_filename filename.
Proof.
  intros Htif Hcomma Heq. rewrite (gexd_file_without_comma _ Hcomma) in Heq.
  apply (f_equal String.length) in Heq.
  unfold output_filename, converted_suffix, converted_format in Heq.
  rewrite !length_append in Heq. cbn [String.length] in Heq.
  pose proof (length_split0_lt "." filename (endswith_contains "." _ _ Htif eq_refl)).
  lia.
Qed.

Lemma check_path_differs (filename input_dir : string) :
  endswith filename ".tif" = true -> contains "," filename = false ->
  has_slash filename = false ->
  gexd_file filename <> path_join input_dir (output_filename filename).
Proof.
  intros Htif Hcomma Hslash Heq.
  destruct (path_join_cases input_dir (output_filename filename)) as [Hb | Hs].
  - rewrite Hb in Heq. exact (names_differ filename Htif Hcomma Heq).
  - rewrite <- Heq, (gexd_file_without_comma _ Hcomma) in Hs.
    unfold has_slash in *. rewrite contains_append, Hslash in Hs. discriminate.
Qed.

Lemma drop_append (a b : string) (k : nat) :
  Py.drop (String.length a + k) (a +:+ b) = Py.drop k b.
Proof.
  induction a as [| c a IH]; [reflexivity |].
  rewrite append_cons. cbn [String.length Nat.add Py.drop]. exact IH.
Qed.

Lemma endswith_append (a suffix tail : string) :
  (String.length suffix <= String.length tail)%nat ->
  endswith (a +:+ tail) suffix = endswith tail suffix.
Proof.
  intros Hlen. unfold endswith. rewrite length_append.
  replace (String.length a + String.length tail - String.length suffix)%nat
    with (String.length a + (String.length tail - String.length suffix))%nat by lia.
  rewrite drop_append.
  destruct (Nat.leb_spec (String.length suffix) (String.length tail)); [| lia].
  destruct (Nat.leb_spec (String.length suffix) (String.length a + String.length tail));
    [reflexivity | lia].
Qed.

Lemma path_join_same_stem (od stem x1 x2 : string) :
  startswith x1 "/" = false -> startswith x2 "/" = false ->
  path_join od (stem +:+ x1) = path_join od (stem +:+ x2) -> x1 = x2.
Proof.
  intros H1 H2. unfold path_join.
  assert (Hs : startswith (stem +:+ x1) "/" = startswith (stem +:+ x2) "/").
  { destruct stem as [| c stem]; [rewrite !append_empty, H1, H2; reflexivity |].
    rewrite !append_cons. unfold startswith. cbn [String.prefix].
    destruct (ascii_dec "/" c); [| reflexivity].
    destruct (stem +:+ x1), (stem +:+ x2); reflexivity. }
  rewrite <- Hs. destruct (startswith (stem +:+ x1) "/").
  - apply append_inv_head.
  - destruct (String.eqb od "" || endswith od "/").
    + intros H. exact (append_inv_head _ _ _ (append_inv_head _ _ _ H)).
    + intros H. apply append_inv_head in H. rewrite !append_cons, !append_empty in H.
      injection H as H. exact (append_inv_head _ _ _ H).
Qed.

Lemma resized_path_differs (od filename : string) :
  path_join od (split0 "." filename +:+ converted_suffix +:+ "_resized." +:+ converted_format)
  <> path_join od (output_filename filename).
Proof.
  intros H. unfold output_filename in H.
  apply path_join_same_stem in H; [discriminate | reflexivity | reflexivity].
Qed.

Lemma remove_run (p : string) (c : payload) (w : world) :
  fs w !! p = Some (File c) -> remove p w = (Ok tt, set_fs (delete p (fs w)) w).
Proof. intros H. unfold remove. rewrite H. reflexivity. Qed.

Lemma Image_open_run (p : string) (img : image) (w : world) :
  fs w !! p = Some (File (Png img)) -> Image_open p w = (Ok img, w).
Proof. intros H. unfold Image_open. rewrite H. reflexivity. Qed.

(** The part of [convert_geotiff] after the translation, when the converted
    file is there. *)
Lemma convert_tail_run (enc : image -> option exn) (rs : image -> Z * Z -> result image)
    (filename output_dir : string) (img small : image) (w : world) :
  fs w !! path_join output_dir (output_filename filename) = Some (File (Png img)) ->
  rs img (Z.quot (width img) 2, Z.quot (height img) 2) = Ok small ->
  can_save enc (fs w) small
           (path_join output_dir
              (split0 "." filename +:+ converted_suffix +:+ "_resized." +:+ converted_format))
    = true ->
  (img <- Image_open (path_join output_dir (output_filename filename)) ;;
   let '(width, height) := size img in
   img <- lift (rs img (Z.quot width 2, Z.quot height 2)) ;;
   let resize_filename :=
     split0 "." filename +:+ converted_suffix +:+ "_resized." +:+ converted_format in
   save enc img (path_join output_dir resize_filename) ;;
   remove (path_join output_dir (output_filename filename)) ;;
   print ("File GEXD!!! Hell yeah! " +:+ path_join output_dir (output_filename filename)) ;;
   ret (Some (output_filename filename))) w
  = (Ok (Some (output_filename filename)),
     say ("File GEXD!!! Hell yeah! " +:+ path_join output_dir (output_filename filename))
         (set_fs (delete (path_join output_dir (output_filename filename))
                    (<[path_join output_dir
                         (split0 "." filename +:+ converted_suffix +:+ "_resized."
                          +:+ converted_format) := File (Png small)]> (fs w))) w)).
Proof.
  intros Hfile Hrs Hsave.
  unfold bind at 1. rewrite (Image_open_run _ _ _ Hfile).
  unfold size. unfold bind at 1. unfold lift at 1. rewrite Hrs. cbv zeta.
  unfold bind at 1. rewrite (save_run enc small _ w Hsave).
  unfold bind at 1.
  rewrite (remove_run _ (Png img)).
  2: { rewrite fs_set_fs, lookup_insert_ne by apply resized_path_differs. exact Hfile. }
  reflexivity.
Qed.

(** The run of [convert_geotiff] when both commands do their work. *)
Lemma convert_geotiff_run (enc : image -> option exn)
    (cmd : string -> gmap string node -> string * gmap string node)
    (ff : string -> result Z) (rs : image -> Z * Z -> result image)
    (input_dir filename output_dir : string) (w : world)
    (g1 g2 : string) (min max : Z) (img small : image) :
  let out1 := cmd (gdalinfo_cmd input_dir filename) (fs w) in
  let f2 := snd (cmd (translate_cmd input_dir filename output_dir min max) (snd out1)) in
  let output_path := path_join output_dir (output_filename filename) in
  let resized_path :=
    path_join output_dir
      (split0 "." filename +:+ converted_suffix +:+ "_resized." +:+ converted_format) in
  Re.search (fst out1) = Some (g1, g2) ->
  math_floor_float ff g1 = Ok min -> math_floor_float ff g2 = Ok max ->
  f2 !! output_path = Some (File (Png img)) ->
  rs img (Z.quot (width img) 2, Z.quot (height img) 2) = Ok small ->
  can_save enc f2 small resized_path = true ->
  exists w',
    convert_geotiff enc cmd ff rs input_dir filename output_dir w
      = (Ok (Some (output_filename filename)), w') /\
    fs w' = delete output_path (<[resized_path := File (Png small)]> f2) /\
    fs w' !! resized_path = Some (File (Png small)) /\
    fs w' !! output_path = None.
Proof.
  intros out1 f2 output_path resized_path Hsearch H1 H2 Hfile Hrs Hsave.
  assert (Hpost : forall w2,
             fs w2 = f2 ->
             exists w',
               (if is_file (fs w2) output_path
                then
                  (img <- Image_open output_path ;;
                   let '(width, height) := size img in
                   img <- lift (rs img (Z.quot width 2, Z.quot height 2)) ;;
                   save enc img resized_path ;;
                   remove output_path ;;
                   print ("File GEXD!!! Hell yeah! " +:+ output_path) ;;
                   ret (Some (output_filename filename)))
                else
                  (print "Error: converted file not found! gdal_translate may have failed to complete!" ;;
                   ret None)) w2
               = (Ok (Some (output_filename filename)), w') /\
               fs w' = delete output_path (<[resized_path := File (Png small)]> f2) /\
               fs w' !! resized_path = Some (File (Png small)) /\
               fs w' !! output_path = None).
  { intros w2 Hw2. unfold is_file. rewrite Hw2, Hfile.
    pose proof (convert_tail_run enc rs filename output_dir img small w2) as Htail.
    rewrite Hw2 in Htail. specialize (Htail Hfile Hrs Hsave). cbv zeta in Htail.
    fold output_path resized_path in Htail. rewrite Htail.
    eexists. split; [reflexivity |]. rewrite fs_say, fs_set_fs.
    split; [reflexivity |]. split.
    - rewrite lookup_delete_ne by (apply not_eq_sym, resized_path_differs).
      apply lookup_insert_eq.
    - apply lookup_delete_eq. }
  unfold convert_geotiff. cbv zeta.
  unfold bind at 1. unfold print at 1.
  unfold bind at 1. rewrite popen_read_run. rewrite !fs_say.
  fold (gdalinfo_cmd input_dir filename). fold out1. rewrite Hsearch, H1, H2.
  unfold bind at 1. unfold lift at 1. unfold bind at 1. unfold lift at 1.
  unfold bind at 1. unfold get_debug at 1.
  rewrite debug_set_fs, debug_say.
  fold (output_filename filename). fold output_path.
  fold (translate_cmd input_dir filename output_dir min max).
  fold resized_path.
  destruct (debug w) eqn:Edbg; cbn [when].
  - unfold bind at 1. unfold bind at 1. unfold print at 1.
    unfold print at 1. unfold bind at 1. unfold print at 1.
    unfold bind at 1. rewrite popen_read_run.
    unfold bind at 1. unfold isfile at 1.
    apply Hpost. rewrite fs_set_fs, !fs_say, fs_set_fs. reflexivity.
  - unfold bind at 1. unfold ret at 1. unfold bind at 1. unfold ret at 1.
    unfold bind at 1. rewrite popen_read_run.
    unfold bind at 1. unfold isfile at 1.
    apply Hpost. rewrite !fs_set_fs. reflexivity.
Qed.

Lemma path_join_tail (a stem tail : string) :
  exists x, path_join a (stem +:+ tail) = x +:+ tail.
Proof.
  unfold path_join. destruct (startswith (stem +:+ tail) "/").
  - exists stem. reflexivity.
  - destruct (String.eqb a "" || endswith a "/").
    + exists (a +:+ stem). rewrite append_assoc3. reflexivity.
    + exists (a +:+ "/" +:+ stem). rewrite !append_assoc3. reflexivity.
Qed.

(** The file that [convert_geotiff] leaves behind is not at the path that
    the check of [gextool] looks at, whatever the directory is. *)
Lemma checked_path_not_resized (input_dir filename : string) :
  filename +:+ "_GEXD.png"
  <> path_join input_dir (split0 "." filename +:+ "_GEXD_resized.png").
Proof.
  intros Heq.
  destruct (path_join_tail input_dir (split0 "." filename) "_GEXD_resized.png") as [x Hx].
  rewrite Hx in Heq. apply (f_equal (fun s => endswith s "_GEXD.png")) in Heq.
  rewrite !endswith_append in Heq by (cbn [String.length]; lia).
  vm_compute in Heq. discriminate.
Qed.

(** The check of [gextool] on a raster: the name it looks for, and what it
    does on either answer. *)
Lemma convert_step_check (enc : image -> option exn)
    (cmd : string -> gmap string node -> string * gmap string node)
    (ff : string -> result Z) (rs : image -> Z * Z -> result image)
    (input_dir filename : string) (total n : Z) (w : world) :
  endswith filename ".tif" = true -> contains "," filename = false ->
  convert_step enc cmd ff rs input_dir total filename n w
  = if is_file (fs w) (filename +:+ "_GEXD.png")
    then (Ok n, say ("Input file has already been GEXD: " +:+ filename +:+ "_GEXD.png") w)
    else (print ("Processing " +:+ str (n + 1) +:+ "/" +:+ str total) ;;
          _ <- convert_geotiff enc cmd ff rs input_dir filename input_dir ;;
          ret (n + 1)) w.
Proof.
  intros Htif Hcomma. unfold convert_step. rewrite Htif. cbv zeta.
  unfold bind at 1. unfold isfile at 1.
  fold (gexd_file filename). rewrite (gexd_file_without_comma _ Hcomma).
  destruct (is_file (fs w) (filename +:+ "_GEXD.png")); reflexivity.
Qed.

(** C9: for a file name that ends in [.tif] and has no comma, [gextool]
    looks for the whole name followed by [_GEXD.png] (the name is split at
    a comma, not at a dot) and converts the raster unless a file of that
    name is there, while [convert_geotiff] has its output written under
    the part of the name before the first dot followed by [_GEXD.png], and
    returns that name.  The two names differ.  So after a conversion that
    succeeded, with its output in place, the check still fails and the
    same raster is converted again. *)
Theorem converted_check_never_matches (enc : image -> option exn)
    (cmd : string -> gmap string node -> string * gmap string node)
    (ff : string -> result Z) (rs : image -> Z * Z -> result image)
    (input_dir filename : string) (w : world)
    (g1 g2 : string) (min max : Z) (img small : image) :
  let checked := filename +:+ "_GEXD.png" in
  let written := split0 "." filename +:+ "_GEXD.png" in
  let resized := split0 "." filename +:+ "_GEXD_resized.png" in
  let out1 := cmd (gdalinfo_cmd input_dir filename) (fs w) in
  let f2 := snd (cmd (translate_cmd input_dir filename input_dir min max) (snd out1)) in
  endswith filename ".tif" = true -> contains "," filename = false ->
  Re.search (fst out1) = Some (g1, g2) ->
  math_floor_float ff g1 = Ok min -> math_floor_float ff g2 = Ok max ->
  f2 !! path_join input_dir written = Some (File (Png img)) ->
  rs img (Z.quot (width img) 2, Z.quot (height img) 2) = Ok small ->
  can_save enc f2 small (path_join input_dir resized) = true ->
  is_file f2 checked = false ->
  (forall (total n : Z) (w0 : world),
     convert_step enc cmd ff rs input_dir total filename n w0
     = if is_file (fs w0) checked
       then (Ok n, say ("Input file has already been GEXD: " +:+ checked) w0)
       else (print ("Processing " +:+ str (n + 1) +:+ "/" +:+ str total) ;;
             _ <- convert_geotiff enc cmd ff rs input_dir filename input_dir ;;
             ret (n + 1)) w0) /\
  checked <> written /\
  exists w',
    convert_geotiff enc cmd ff rs input_dir filename input_dir w = (Ok (Some written), w') /\
    fs w' !! path_join input_dir resized = Some (File (Png small)) /\
    fs w' !! path_join input_dir written = None /\
    is_file (fs w') checked = false /\
    (forall total n : Z,
       convert_step enc cmd ff rs input_dir total filename n w'
       = (print ("Processing " +:+ str (n + 1) +:+ "/" +:+ str total) ;;
          _ <- convert_geotiff enc cmd ff rs input_dir filename input_dir ;;
          ret (n + 1)) w').
Proof.
  intros checked written resized out1 f2 Htif Hcomma Hsearch H1 H2 Hfile Hrs Hsave Hno.
  assert (Hcheck : forall (total n : Z) (w0 : world),
             convert_step enc cmd ff rs input_dir total filename n w0
             = if is_file (fs w0) checked
               then (Ok n, say ("Input file has already been GEXD: " +:+ checked) w0)
               else (print ("Processing " +:+ str (n + 1) +:+ "/" +:+ str total) ;;
                     _ <- convert_geotiff enc cmd ff rs input_dir filename input_dir ;;
                     ret (n + 1)) w0)
    by (intros total n w0; apply convert_step_check; assumption).
  split; [exact Hcheck |]. split.
  { pose proof (names_differ filename Htif Hcomma) as Hne.
    rewrite (gexd_file_without_comma _ Hcomma) in Hne. exact Hne. }
  destruct (convert_geotiff_run enc cmd ff rs input_dir filename input_dir w
              g1 g2 min max img small Hsearch H1 H2 Hfile Hrs Hsave)
    as (w' & Hrun & Hfs & Hres & Hout).
  assert (Hstill : is_file (fs w') checked = false).
  { rewrite Hfs. unfold is_file.
    destruct (decide (path_join input_dir (output_filename filename) = checked)) as [-> | Hne].
    - rewrite lookup_delete_eq. reflexivity.
    - rewrite lookup_delete_ne by exact Hne.
      rewrite lookup_insert_ne
        by (apply not_eq_sym; exact (checked_path_not_resized input_dir filename)).
      exact Hno. }
  exists w'. split; [exact Hrun |]. split; [exact Hres |]. split; [exact Hout |].
  split; [exact Hstill |].
  intros total n. rewrite Hcheck, Hstill. reflexivity.
Qed.

Lemma converted_check_never_matches_witness :
  endswith "a.tif" ".tif" = true /\ contains "," "a.tif" = false /\
  "a.tif_GEXD.png" <> "a_GEXD.png" /\
  exists w',
    convert_geotiff Sample.encoder_ok (Sample.gdal Sample.gray_3x3) Sample.floor_text
                    Sample.same_image "in" "a.tif" "in" Sample.world_tif
      = (Ok (Some "a_GEXD.png"), w') /\
    fs w' !! "in/a_GEXD_resized.png" = Some (File (Png Sample.gray_3x3)) /\
    is_file (fs w') "a.tif_GEXD.png" = false.
Proof.
  split; [reflexivity |]. split; [reflexivity |].
  destruct (converted_check_never_matches Sample.encoder_ok (Sample.gdal Sample.gray_3x3)
              Sample.floor_text Sample.same_image "in" "a.tif" Sample.world_tif
              "1.000" "2.000" 1 2 Sample.gray_3x3 Sample.gray_3x3
              eq_refl eq_refl eq_refl eq_refl eq_refl eq_refl eq_refl eq_refl eq_refl)
    as (_ & Hne & w' & Hrun & Hres & _ & Hstill & _).
  split; [exact Hne |].
  exists w'. split; [exact Hrun |]. split; [exact Hres | exact Hstill].
Defined.

(** ** The output directory *)

Lemma mkdir_ok_isdir (p : string) (w w' : world) :
  mkdir p w = (Ok tt, w') -> dir_exists (fs w') p = true.
Proof.
  unfold mkdir. destruct (fs w !! p); [discriminate |].
  destruct (String.eqb p "" || negb (parent_exists (fs w) p)); [discriminate |].
  intros [= <-]. unfold dir_exists, is_dir. rewrite fs_set_fs, lookup_insert_eq.
  apply orb_true_r.
Qed.

(** What the first block of [gextool] comes to: when [os.mkdir] returns,
    the directory is there, so the report of a failure is never printed;
    when it raises, the exception leaves the block. *)
Lemma ensure_output_dir_run (output_dir : string) (w : world) :
  ensure_output_dir output_dir w =
  if dir_exists (fs w) output_dir then (Ok tt, w)
  else match mkdir output_dir (say "output_dir not found, trying to create it..." w) with
       | (Ok _, w') => (Ok tt, say ("Successfully created output_dir: " +:+ output_dir) w')
       | (Raise e, w') => (Raise e, w')
       end.
Proof.
  unfold ensure_output_dir. unfold bind at 1. unfold isdir at 1.
  destruct (dir_exists (fs w) output_dir); [reflexivity |].
  cbn [negb when]. unfold bind at 1. unfold print at 1. unfold bind at 1.
  destruct (mkdir output_dir _) as [[[] | e] w'] eqn:Emk; [| reflexivity].
  unfold bind at 1. unfold isdir at 1. rewrite (mkdir_ok_isdir _ _ _ Emk). reflexivity.
Qed.

(** When the output directory is missing and [os.mkdir] raises, [gextool]
    raises with it: nothing is reported and nothing is processed. *)
Lemma output_dir_failure_aborts (enc : image -> option exn)
    (cmd : string -> gmap string node -> string * gmap string node)
    (ff : string -> result Z) (rs : image -> Z * Z -> result image)
    (input_dir output_dir : string) (tile_size : Z) (no_alpha skip_tif : bool)
    (w w' : world) (e : exn) :
  dir_exists (fs w) output_dir = false ->
  mkdir output_dir
        (say "output_dir not found, trying to create it..."
             (say "Running GEXtool! Your friendly neighborhood Geotiff EXtraction tool." w))
  = (Raise e, w') ->
  gextool enc cmd ff rs input_dir output_dir tile_size no_alpha skip_tif w = (Raise e, w').
Proof.
  intros Hmissing Hmk. unfold gextool. unfold bind at 1. unfold print at 1.
  unfold bind at 1. rewrite ensure_output_dir_run, fs_say, Hmissing, Hmk. reflexivity.
Qed.

(** C8, the code at a failing input: the output directory [missing/out]
    cannot be created because [missing] does not exist; [os.mkdir] raises
    [FileNotFoundError] and the run ends there, after two lines of output,
    without the report of the error and without processing the raster that
    waits in the input directory. *)
Theorem gextool_output_dir_not_creatable :
  dir_exists (fs Sample.world_tif) "missing/out" = false /\
  dir_exists (fs Sample.world_tif) "missing" = false /\
  gextool Sample.encoder_ok Sample.no_command Sample.no_float Sample.same_image
          "in" "missing/out" 128 false false Sample.world_tif
  = (Raise FileNotFoundError,
     say "output_dir not found, trying to create it..."
         (say "Running GEXtool! Your friendly neighborhood Geotiff EXtraction tool."
              Sample.world_tif)).
Proof.
  split; [reflexivity |]. split; [reflexivity |].
  apply output_dir_failure_aborts; reflexivity.
Qed.

(** * Further properties *)

(** ** The classifier and the world *)

(** [has_transparency] neither reads nor changes the world apart from
    printing: its answer is the same in every world, it leaves the files
    and the [debug] flag alone, and it prints exactly one line when it
    returns and nothing when it raises. *)
Theorem has_transparency_only_prints (img : image) (w : world) :
  (forall w2, fst (has_transparency img w2) = fst (has_transparency img w)) /\
  fs (snd (has_transparency img w)) = fs w /\
  debug (snd (has_transparency img w)) = debug w /\
  match fst (has_transparency img w) with
  | Ok _ => exists line, stdout (snd (has_transparency img w)) = stdout w ++ [line]
  | Raise _ => snd (has_transparency img w) = w
  end.
Proof.
  split.
  - intros w2. rewrite !has_transparency_run.
    destruct (verdict img) as [[b line] | e]; reflexivity.
  - rewrite has_transparency_run.
    destruct (verdict img) as [[b line] | e]; simpl.
    + split; [reflexivity |]. split; [reflexivity |]. exists line. reflexivity.
    + split; [reflexivity |]. split; reflexivity.
Qed.

Lemma wf_multiband_pixel (img : image) (p : pixel) :
  wf img -> (1 < bands img)%nat -> In p (getdata img) -> pixel_is_zero p = false.
Proof.
  intros Hwf Hb Hin. pose proof (wf_pixels img Hwf) as Hall.
  rewrite List.Forall_forall in Hall. specialize (Hall _ Hin).
  destruct p as [v | vs]; [| reflexivity].
  simpl in Hall. destruct Hall as [H1 _]. lia.
Qed.

(** In an image with several bands whose mode is not RGBA (RGB, LA, CMYK
    and the like) the classifier never finds transparency: no rule looks
    at the channels of such an image, whatever its alpha values are. *)
Theorem multiband_never_transparent (img : image) (w : world) :
  wf img -> (1 < bands img)%nat -> mode img <> "RGBA" ->
  has_transparency img w = (Ok false, say "Transparency NOT detected in tile." w).
Proof.
  intros Hwf Hb HnA. rewrite has_transparency_run. unfold verdict, fallback_verdict.
  assert (Hz : existsb pixel_is_zero (getdata img) = false).
  { destruct (existsb pixel_is_zero (getdata img)) eqn:E; [| reflexivity].
    apply existsb_exists in E. destruct E as [p [Hin Hp]].
    rewrite (wf_multiband_pixel img p Hwf Hb Hin) in Hp. discriminate. }
  destruct (String.eqb_spec (mode img) "P") as [HP | _].
  - pose proof (wf_P img Hwf HP). lia.
  - destruct (String.eqb_spec (mode img) "RGBA") as [HA | _]; [contradiction |].
    rewrite Hz. reflexivity.
Qed.

Lemma multiband_never_transparent_witness :
  wf (mkImage "LA" 2 1 1 None [PTuple [7; 0]]) /\
  has_transparency (mkImage "LA" 2 1 1 None [PTuple [7; 0]]) Sample.w0
  = (Ok false, say "Transparency NOT detected in tile." Sample.w0).
Proof.
  assert (Hwf : wf (mkImage "LA" 2 1 1 None [PTuple [7; 0]])) by sample_wf.
  split; [exact Hwf |].
  apply (multiband_never_transparent _ Sample.w0 Hwf); [simpl; lia | discriminate].
Defined.

(** A palette image whose [info] has no integer under the key
    [transparency] (the key is missing, or it holds the alpha table of the
    palette) is classified transparent if and only if some pixel has the
    palette index 0. *)
Theorem palette_without_index (img : image) (w : world) :
  wf img -> mode img = "P" ->
  (forall z, transparency img <> Some (VInt z)) ->
  (fst (has_transparency img w) = Ok true <-> In (PInt 0) (getdata img)).
Proof.
  intros Hwf HP Hnone.
  destruct (verdict_rules img Hwf) as (b & line & Hv & Hiff & _).
  { intros HA. rewrite HP in HA. discriminate. }
  rewrite has_transparency_run, Hv. simpl.
  assert (Hpal : ~ palette_rule img).
  { intros [_ Hin]. apply (wf_palette_range img _ Hwf HP) in Hin.
    unfold designated_index in Hin.
    destruct (transparency img) as [[z | ? | ?] |]; try lia.
    exfalso. exact (Hnone z eq_refl). }
  assert (Halpha : ~ alpha_rule img).
  { intros [HA _]. rewrite HP in HA. discriminate. }
  unfold zero_rule in Hiff. split.
  - intros [= ->]. destruct Hiff as [H _]. destruct (H eq_refl) as [? | [? | ?]]; tauto.
  - intros Hin. f_equal. apply Hiff. right. right. exact Hin.
Qed.

Lemma palette_without_index_witness :
  wf (mkImage "P" 1 2 1 (Some (VBytes [0; 255])) [PInt 1; PInt 0]) /\
  (fst (has_transparency (mkImage "P" 1 2 1 (Some (VBytes [0; 255])) [PInt 1; PInt 0])
                         Sample.w0) = Ok true
   <-> In (PInt 0) [PInt 1; PInt 0]).
Proof.
  assert (Hwf : wf (mkImage "P" 1 2 1 (Some (VBytes [0; 255])) [PInt 1; PInt 0]))
    by sample_wf.
  split; [exact Hwf |].
  apply (palette_without_index _ Sample.w0 Hwf eq_refl). intros z. discriminate.
Defined.

(** ** Tiles that reach beyond the image *)

Lemma tile_of_In_pixel (img : image) (S x y i j : Z) :
  0 <= i < S - 1 -> 0 <= j < S - 1 ->
  In (pixel_at img (x + i) (y + j)) (getdata (tile_of img S (x, y))).
Proof.
  intros Hi Hj. unfold tile_of, crop_box, cropped. simpl.
  apply in_flat_map. exists j. split; [apply In_upto; lia |].
  apply in_map_iff. exists i. split; [reflexivity | apply In_upto; lia].
Qed.

Lemma pixel_at_outside (img : image) (x y : Z) :
  width img <= x \/ height img <= y -> pixel_at img x y = zero_pixel img.
Proof.
  intros Hout. unfold pixel_at.
  destruct (Z.leb_spec 0 x); simpl; [| reflexivity].
  destruct (Z.ltb_spec x (width img)); simpl; [| reflexivity].
  destruct (Z.leb_spec 0 y); simpl; [| reflexivity].
  destruct (Z.ltb_spec y (height img)); simpl; [lia | reflexivity].
Qed.

(** A tile whose box reaches beyond the image holds a zero pixel. *)
Lemma overhanging_tile_zero_pixel (img : image) (S x y : Z) :
  0 <= width img -> 0 <= height img -> 2 <= S ->
  In (x, y) (grid (width img) (height img) S) ->
  width img < x + (S - 1) \/ height img < y + (S - 1) ->
  In (zero_pixel img) (getdata (tile_of img S (x, y))).
Proof.
  intros HW HH H2 Hin Hover. apply In_grid in Hin. destruct Hin as [Hx Hy].
  assert (H1 : 1 <= S) by lia.
  apply (range_items_bounds _ _ _ H1) in Hx, Hy.
  destruct Hover as [Hover | Hover].
  - rewrite <- (pixel_at_outside img (x + (width img - x)) (y + 0)) by lia.
    apply tile_of_In_pixel; lia.
  - rewrite <- (pixel_at_outside img (x + 0) (y + (height img - y))) by lia.
    apply tile_of_In_pixel; lia.
Qed.

(** An edge tile whose box reaches beyond the image is always classified
    transparent when the image has a single band or is RGBA: the pixels
    that [crop] adds outside the image are zero, and a zero value (or a
    zero alpha) counts as transparency.  With the no-alpha policy such
    edge tiles are therefore never written. *)
Theorem overhanging_tile_transparent (img : image) (S x y : Z) (w : world) :
  wf img -> 2 <= S ->
  In (x, y) (grid (width img) (height img) S) ->
  width img < x + (S - 1) \/ height img < y + (S - 1) ->
  bands img = 1%nat \/ mode img = "RGBA" ->
  fst (has_transparency (tile_of img S (x, y)) w) = Ok true /\
  transparent (tile_of img S (x, y)) = true.
Proof.
  intros Hwf H2 Hin Hover Hkind.
  pose proof (overhanging_tile_zero_pixel img S x y (wf_width img Hwf) (wf_height img Hwf)
                H2 Hin Hover) as Hzero.
  set (tile := tile_of img S (x, y)) in *.
  assert (Hwft : wf tile) by (apply tile_of_wf; [exact Hwf | lia]).
  assert (Hv : exists line, verdict tile = Ok (true, line)).
  { unfold verdict, fallback_verdict.
    destruct Hkind as [Hb | HA].
    - assert (Hz : existsb pixel_is_zero (getdata tile) = true).
      { apply existsb_exists. exists (zero_pixel img). split; [exact Hzero |].
        unfold zero_pixel. rewrite Hb. reflexivity. }
      rewrite Hz.
      destruct (String.eqb_spec (mode tile) "P") as [HP | _].
      + destruct (existsb _ (getcolors tile)); eexists; reflexivity.
      + destruct (String.eqb_spec (mode tile) "RGBA") as [HA | _].
        * pose proof (wf_RGBA tile Hwft HA) as H4.
          unfold tile in H4. rewrite tile_of_bands in H4. lia.
        * eexists; reflexivity.
    - assert (HAt : mode tile = "RGBA") by exact HA.
      rewrite HAt. simpl String.eqb. cbv iota.
      rewrite (extrema_four_bands tile (wf_RGBA tile Hwft HAt)).
      assert (H0 : In 0 (alphas tile)).
      { unfold alphas. apply in_map_iff. exists (zero_pixel img).
        split; [| exact Hzero].
        unfold zero_pixel. rewrite (wf_RGBA img Hwf HA). reflexivity. }
      destruct (alphas tile) as [| v r]; [contradiction |].
      pose proof (fold_min_is_minimum v r) as [_ Hle]. specialize (Hle 0 H0).
      destruct (Z.ltb_spec (fold_left Z.min r v) 255); [| lia].
      eexists; reflexivity. }
  destruct Hv as [line Hv]. split.
  - rewrite has_transparency_run, Hv. reflexivity.
  - exact (transparent_verdict _ _ _ Hv).
Qed.

Lemma overhanging_tile_transparent_witness :
  wf Sample.gray_3x3 /\ 2 <= 5 /\
  In (0, 0) (grid (width Sample.gray_3x3) (height Sample.gray_3x3) 5) /\
  fst (has_transparency (tile_of Sample.gray_3x3 3 (0, 0)) Sample.w0) = Ok false /\
  fst (has_transparency (tile_of Sample.gray_3x3 5 (0, 0)) Sample.w0) = Ok true.
Proof.
  assert (Hwf : wf Sample.gray_3x3) by sample_wf.
  split; [exact Hwf |]. split; [lia |].
  split; [left; reflexivity |]. split; [reflexivity |].
  apply (overhanging_tile_transparent Sample.gray_3x3 5 0 0 Sample.w0 Hwf).
  - lia.
  - left. reflexivity.
  - left. simpl. lia.
  - left. reflexivity.
Defined.

(** ** Edge cases of [cut_tiles] *)

Lemma range_items_negative_step (stop step : Z) :
  0 <= stop -> step < 0 -> range_items stop step = [].
Proof.
  intros H0 Hs. unfold range_items, range_len.
  destruct (Z.ltb_spec 0 step); [lia |]. simpl.
  destruct (Z.ltb_spec step 0); [| lia].
  destruct (Z.ltb_spec stop 0); [lia |]. reflexivity.
Qed.

(** A tile size of 0 makes [cut_tiles] raise [ValueError] (the step of a
    range must not be 0), a negative tile size makes it return 0; in both
    cases no tile is cropped, classified or written: the only effect is the
    first line of output. *)
Theorem cut_tiles_bad_tile_size (enc : image -> option exn) (classifier : image -> M bool)
    (input_dir filename output_dir : string) (no_alpha : bool) (img : image) (w : world) :
  fs w !! path_join input_dir filename = Some (File (Png img)) ->
  0 <= width img ->
  cut_tiles_with enc classifier input_dir filename output_dir 0 no_alpha w
    = (Raise ValueError, say ("Cutting tiles from " +:+ filename) w) /\
  (forall S, S < 0 ->
     cut_tiles_with enc classifier input_dir filename output_dir S no_alpha w
     = (Ok 0, say ("Cutting tiles from " +:+ filename) w)).
Proof.
  intros Hfile HW. split.
  - unfold cut_tiles_with. unfold bind at 1. unfold print at 1.
    unfold bind at 1. unfold Image_open at 1. rewrite fs_say, Hfile. reflexivity.
  - intros S HS. unfold cut_tiles_with. unfold bind at 1. unfold print at 1.
    unfold bind at 1. unfold Image_open at 1. rewrite fs_say, Hfile.
    unfold size, range0. destruct (Z.eqb_spec S 0); [lia |].
    rewrite (range_items_negative_step (width img) S HW HS). reflexivity.
Qed.

Lemma cut_tiles_bad_tile_size_witness :
  fs (Sample.world_with Sample.gray_3x3) !! path_join "in" "a_GEXD_resized.png"
    = Some (File (Png Sample.gray_3x3)) /\
  fst (cut_tiles Sample.encoder_ok "in" "a_GEXD_resized.png" "out" 0 true
                 (Sample.world_with Sample.gray_3x3)) = Raise ValueError.
Proof.
  split; [reflexivity |]. unfold cut_tiles.
  rewrite (proj1 (cut_tiles_bad_tile_size Sample.encoder_ok has_transparency
                    "in" "a_GEXD_resized.png" "out" true Sample.gray_3x3
                    (Sample.world_with Sample.gray_3x3) eq_refl ltac:(simpl; lia))).
  reflexivity.
Defined.

(** ** What [cut_tiles] leaves alone *)

Lemma tiles_only_refl (filename output_dir : string) (w : world) :
  tiles_only filename output_dir w w.
Proof. repeat split; trivial. Qed.

Lemma tiles_only_trans (filename output_dir : string) (w1 w2 w3 : world) :
  tiles_only filename output_dir w1 w2 -> tiles_only filename output_dir w2 w3 ->
  tiles_only filename output_dir w1 w3.
Proof.
  intros (A1 & B1 & C1 & D1) (A2 & B2 & C2 & D2). repeat split.
  - intros p Hp. rewrite (A2 p Hp). exact (A1 p Hp).
  - intros p. rewrite B2. apply B1.
  - intros p Hp. apply C2, C1, Hp.
  - rewrite D2. exact D1.
Qed.

Lemma tiles_only_say (filename output_dir line : string) (w : world) :
  tiles_only filename output_dir w (say line w).
Proof. repeat split; trivial. Qed.

Lemma tiles_only_write (filename output_dir : string) (x y : Z) (c : payload) (w : world) :
  is_dir (fs w) (tile_path filename output_dir x y) = false ->
  tiles_only filename output_dir w
             (set_fs (<[tile_path filename output_dir x y := File c]> (fs w)) w).
Proof.
  intros Hnd. repeat split.
  - intros p Hp. rewrite fs_set_fs. apply lookup_insert_ne.
    intros Heq. exact (Hp x y (eq_sym Heq)).
  - intros p. rewrite fs_set_fs. apply is_dir_insert_file. exact Hnd.
  - intros p Hp. rewrite fs_set_fs. unfold is_file in *.
    destruct (decide (tile_path filename output_dir x y = p)) as [<- | Hne].
    + rewrite lookup_insert_eq. reflexivity.
    + rewrite lookup_insert_ne by exact Hne. exact Hp.
Qed.

Lemma save_cases (enc : image -> option exn) (img : image) (path : string) (w : world) :
  (exists e, save enc img path w = (Raise e, w)) \/
  (is_dir (fs w) path = false /\
   save enc img path w = (Ok tt, set_fs (<[path := File (Png img)]> (fs w)) w)).
Proof.
  destruct (can_save enc (fs w) img path) eqn:E.
  - right. split; [exact (can_save_not_dir _ _ _ _ E) | exact (save_run _ _ _ _ E)].
  - left. exact (save_fail _ _ _ _ E).
Qed.

Lemma for_each_preserves {A St} (R : world -> world -> Prop)
    (body : A -> St -> M St) :
  (forall w, R w w) ->
  (forall w1 w2 w3, R w1 w2 -> R w2 w3 -> R w1 w3) ->
  (forall a s w, R w (snd (body a s w))) ->
  forall l s w, R w (snd (for_each l body s w)).
Proof.
  intros Hrefl Htrans Hbody. induction l as [| a l IH]; intros s w; cbn [for_each].
  - apply Hrefl.
  - unfold bind. pose proof (Hbody a s w) as Hstep.
    destruct (body a s w) as [[s' | e] w1]; simpl in Hstep.
    + exact (Htrans _ _ _ Hstep (IH s' w1)).
    + exact Hstep.
Qed.

Lemma tile_step_frame (enc : image -> option exn) (img : image)
    (filename output_dir : string) (S : Z) (no_alpha : bool)
    (x y : Z) (st : Z * bool) (w : world) :
  tiles_only filename output_dir w
    (snd (tile_step enc has_transparency img filename output_dir S no_alpha x y st w)).
Proof.
  unfold tile_step. destruct st as [n sb].
  unfold bind at 1. unfold lift at 1.
  destruct (crop img (crop_box S x y)) as [tile | e]; [| apply tiles_only_refl].
  cbv zeta. unfold bind at 1.
  assert (Hsave : forall (w1 : world) (k : Z * bool),
             tiles_only filename output_dir w w1 -> debug w1 = debug w ->
             tiles_only filename output_dir w
               (snd ((dbg <- get_debug ;;
                      when dbg (print ("DEBUG: saving tile " +:+ tile_name filename x y
                                       +:+ "." +:+ tile_format)) ;;
                      save enc tile (path_join output_dir
                                       (tile_name filename x y +:+ "." +:+ tile_format)) ;;
                      ret k) w1))).
  { intros w1 k H1 Hd. unfold bind at 1. unfold get_debug at 1.
    assert (Hgo : forall w2, tiles_only filename output_dir w w2 ->
               tiles_only filename output_dir w
                 (snd ((save enc tile (path_join output_dir
                                         (tile_name filename x y +:+ "." +:+ tile_format)) ;;
                        ret k) w2))).
    { intros w2 H2. unfold bind.
      destruct (save_cases enc tile
                  (path_join output_dir (tile_name filename x y +:+ "." +:+ tile_format)) w2)
        as [[e He] | [Hnd He]]; rewrite He; simpl.
      - exact H2.
      - apply (tiles_only_trans _ _ _ _ _ H2).
        apply (tiles_only_write filename output_dir x y (Png tile) w2). exact Hnd. }
    destruct (debug w1); cbn [when].
    - unfold bind at 1. unfold print at 1. apply Hgo.
      apply (tiles_only_trans _ _ _ _ _ H1). apply tiles_only_say.
    - unfold bind at 1. unfold ret at 1. apply Hgo. exact H1. }
  destruct no_alpha.
  - unfold bind at 1. rewrite has_transparency_run.
    destruct (verdict tile) as [[b line] | e]; [| apply tiles_only_refl].
    unfold ret at 1. destruct b; cbn [negb].
    + apply tiles_only_say.
    + apply Hsave; [apply tiles_only_say | reflexivity].
  - unfold ret at 1. destruct sb.
    + apply Hsave; [apply tiles_only_refl | reflexivity].
    + apply tiles_only_refl.
Qed.

Lemma cut_tiles_frame (enc : image -> option exn)
    (input_dir filename output_dir : string) (S : Z) (no_alpha : bool) (w : world) :
  tiles_only filename output_dir w
    (snd (cut_tiles enc input_dir filename output_dir S no_alpha w)).
Proof.
  unfold cut_tiles, cut_tiles_with.
  unfold bind at 1. unfold print at 1.
  set (w1 := say ("Cutting tiles from " +:+ filename) w).
  assert (H1 : tiles_only filename output_dir w w1) by apply tiles_only_say.
  unfold bind at 1. unfold Image_open at 1.
  destruct (fs w1 !! path_join input_dir filename) as [[| [img |]] |]; try exact H1.
  unfold size. unfold bind at 1. unfold lift at 1.
  destruct (range0 (width img) S) as [xs | e]; [| exact H1].
  unfold bind at 1.
  match goal with
  | |- context [for_each xs ?body ?s w1] =>
      assert (Hloop : tiles_only filename output_dir w1 (snd (for_each xs body s w1)));
      [| destruct (for_each xs body s w1) as [[st | e] w2]; simpl in *;
         exact (tiles_only_trans _ _ _ _ _ H1 Hloop)]
  end.
  apply (for_each_preserves (tiles_only filename output_dir)).
  - apply tiles_only_refl.
  - apply tiles_only_trans.
  - intros x st w2. unfold bind at 1. unfold lift at 1.
    destruct (range0 (height img) S) as [ys | e]; [| apply tiles_only_refl].
    apply (for_each_preserves (tiles_only filename output_dir)).
    + apply tiles_only_refl.
    + apply tiles_only_trans.
    + intros y st' w3. apply tile_step_frame.
Qed.

(** Whatever the outcome of [cut_tiles], also when it raises half way, the
    only files it has touched are tile files: every other path holds what it
    held before, no directory and no file has disappeared, and the [debug]
    flag is unchanged.  In particular the source image is never modified
    unless it lies at the path of one of its own tiles. *)
Theorem cut_tiles_touches_only_tiles (enc : image -> option exn)
    (input_dir filename output_dir : string) (S : Z) (no_alpha : bool) (w : world) :
  let w' := snd (cut_tiles enc input_dir filename output_dir S no_alpha w) in
  (forall p, (forall x y, p <> tile_path filename output_dir x y) ->
             fs w' !! p = fs w !! p) /\
  (forall p, is_dir (fs w') p = is_dir (fs w) p) /\
  (forall p, is_file (fs w) p = true -> is_file (fs w') p = true) /\
  debug w' = debug w.
Proof.
  intros w'.
  destruct (cut_tiles_frame enc input_dir filename output_dir S no_alpha w)
    as (Hother & Hdir & Hfile & Hdebug).
  split; [exact Hother |]. split; [exact Hdir |]. split; [exact Hfile | exact Hdebug].
Qed.

(** ** The count that [cut_tiles] returns *)

Lemma range0_nonzero (stop step : Z) :
  step <> 0 -> range0 stop step = Ok (range_items stop step).
Proof.
  intros H. unfold range0. destruct (Z.eqb_spec step 0); [contradiction | reflexivity].
Qed.

Lemma nested_loops_grid_nonzero {S0} (W H S : Z) (body : Z -> Z -> S0 -> M S0)
    (s : S0) (w : world) :
  S <> 0 ->
  for_each (range_items W S) (fun x st =>
    ys <- lift (range0 H S) ;;
    for_each ys (fun y st => body x y st) st) s w
  = for_each (grid W H S) (fun o st => body (fst o) (snd o) st) s w.
Proof.
  intros Hnz. unfold grid. rewrite (range0_nonzero H S Hnz).
  revert s w. induction (range_items W S) as [| x xs IH]; intros s w.
  - reflexivity.
  - cbn [for_each flat_map]. rewrite for_each_app.
    unfold bind at 1. unfold bind at 1. unfold lift at 1.
    unfold bind at 2. rewrite for_each_map. cbn [fst snd].
    destruct (for_each (range_items H S) (fun y st => body x y st) s w) as [[s' | e] w'].
    + apply IH.
    + reflexivity.
Qed.

Lemma for_each_count {A} (body : A -> Z * bool -> M (Z * bool)) :
  (forall a c b w c' b' w', body a (c, b) w = (Ok (c', b'), w') -> c <= c' <= c + 1) ->
  forall l c b w c' b' w',
    for_each l body (c, b) w = (Ok (c', b'), w') ->
    c <= c' <= c + Z.of_nat (List.length l).
Proof.
  intros Hbody. induction l as [| a l IH]; intros c b w c' b' w'; cbn [for_each List.length].
  - unfold ret. intros [= <- _ _]. lia.
  - unfold bind. destruct (body a (c, b) w) as [[[c1 b1] | e] w1] eqn:E; [| discriminate].
    intros Hrest. apply Hbody in E. apply IH in Hrest. lia.
Qed.

Lemma tile_step_count (enc : image -> option exn) (classifier : image -> M bool)
    (img : image) (filename output_dir : string) (S : Z) (no_alpha : bool)
    (x y c : Z) (b : bool) (w : world) (c' : Z) (b' : bool) (w' : world) :
  tile_step enc classifier img filename output_dir S no_alpha x y (c, b) w
    = (Ok (c', b'), w') ->
  c <= c' <= c + 1.
Proof.
  unfold tile_step. unfold bind at 1. unfold lift at 1.
  destruct (crop img (crop_box S x y)) as [tile | e]; [| discriminate].
  cbv zeta. unfold bind at 1.
  destruct ((if no_alpha then b0 <- classifier tile;; ret (negb b0) else ret b) w)
    as [[keep | e] w1]; [| discriminate].
  destruct keep.
  - unfold bind at 1. unfold get_debug at 1. unfold bind at 1.
    destruct (when (debug w1) _ w1) as [[[] | e] w2]; [| discriminate].
    unfold bind at 1.
    destruct (save enc tile _ w2) as [[[] | e] w3]; [| discriminate].
    unfold ret. intros [= <- _ _]. lia.
  - unfold ret. intros [= <- _ _]. lia.
Qed.

(** Whenever [cut_tiles] returns, with any classifier and any policy, the
    file it was given holds an image, and the count returned lies between 0
    and the number of origins of the grid of that image. *)
Theorem cut_tiles_count_bounds (enc : image -> option exn) (classifier : image -> M bool)
    (input_dir filename output_dir : string) (S : Z) (no_alpha : bool)
    (w : world) (n : Z) (w' : world) :
  cut_tiles_with enc classifier input_dir filename output_dir S no_alpha w = (Ok n, w') ->
  exists img,
    fs w !! path_join input_dir filename = Some (File (Png img)) /\
    S <> 0 /\
    0 <= n <= Z.of_nat (List.length (grid (width img) (height img) S)).
Proof.
  unfold cut_tiles_with. unfold bind at 1. unfold print at 1.
  unfold bind at 1. unfold Image_open at 1. rewrite fs_say.
  destruct (fs w !! path_join input_dir filename) as [[| [img |]] |]; try discriminate.
  unfold size. unfold bind at 1. unfold lift at 1. unfold range0 at 1.
  destruct (Z.eqb_spec S 0) as [| Hnz]; [discriminate |].
  unfold bind at 1.
  rewrite (nested_loops_grid_nonzero (width img) (height img) S
             (fun x y st => tile_step enc classifier img filename output_dir S no_alpha x y st)
             (0, true) _ Hnz).
  destruct (for_each (grid (width img) (height img) S) _ (0, true) _)
    as [[[c b] | e] w1] eqn:E; [| discriminate].
  unfold ret. intros [= <- _]. exists img. split; [reflexivity |]. split; [exact Hnz |].
  apply (for_each_count _) in E; [simpl; lia |].
  intros o c0 b0 w0 c1 b1 w2. apply tile_step_count.
Qed.

Lemma cut_tiles_count_bounds_witness :
  cut_tiles_with Sample.encoder_ok has_transparency "in" "a_GEXD_resized.png" "out" 2 true
                 (Sample.world_with Sample.gray_3x3)
  = (Ok 4, snd (cut_tiles_with Sample.encoder_ok has_transparency "in"
                               "a_GEXD_resized.png" "out" 2 true
                               (Sample.world_with Sample.gray_3x3))) /\
  exists img,
    fs (Sample.world_with Sample.gray_3x3) !! path_join "in" "a_GEXD_resized.png"
      = Some (File (Png img)) /\
    2 <> 0 /\
    0 <= 4 <= Z.of_nat (List.length (grid (width img) (height img) 2)).
Proof.
  assert (Hrun : cut_tiles_with Sample.encoder_ok has_transparency "in"
                   "a_GEXD_resized.png" "out" 2 true (Sample.world_with Sample.gray_3x3)
                 = (Ok 4, snd (cut_tiles_with Sample.encoder_ok has_transparency "in"
                                 "a_GEXD_resized.png" "out" 2 true
                                 (Sample.world_with Sample.gray_3x3))))
    by (vm_compute; reflexivity).
  split; [exact Hrun |].
  exact (cut_tiles_count_bounds _ _ _ _ _ _ _ _ _ _ Hrun).
Defined.

(** ** The search for the minimum and maximum *)

Lemma strip_prefix_Some (p s r : string) : strip_prefix p s = Some r -> s = p +:+ r.
Proof.
  revert s. induction p as [| a p IH]; intros s; cbn [strip_prefix].
  - intros [= ->]. reflexivity.
  - destruct s as [| b s]; [discriminate |].
    destruct (Ascii.eqb_spec a b) as [-> | _]; [| discriminate].
    intros H. rewrite append_cons, <- (IH s H). reflexivity.
Qed.

Lemma strip_prefix_append (p r : string) : strip_prefix p (p +:+ r) = Some r.
Proof.
  induction p as [| a p IH]; [reflexivity |].
  rewrite append_cons. cbn [strip_prefix]. rewrite Ascii.eqb_refl. exact IH.
Qed.

Lemma all_digits_cons (c : ascii) (s : string) :
  all_digits (String c s) = Re.is_digit c && all_digits s.
Proof. reflexivity. Qed.

Lemma span_digits_spec (s d r : string) :
  Re.span_digits s = (d, r) ->
  s = d +:+ r /\ all_digits d = true /\
  (forall c r', r = String c r' -> Re.is_digit c = false).
Proof.
  revert d r. induction s as [| c s IH]; intros d r; cbn [Re.span_digits].
  - intros [= <- <-]. repeat split. intros c r' H. discriminate.
  - destruct (Re.is_digit c) eqn:Ec.
    + destruct (Re.span_digits s) as [d0 r0]. intros [= <- <-].
      destruct (IH d0 r0 eq_refl) as (Hs & Hd & Hr).
      rewrite append_cons, <- Hs, all_digits_cons, Ec, Hd. repeat split. exact Hr.
    + intros [= <- <-]. repeat split. intros c' r' [= <- _]. exact Ec.
Qed.

Lemma span_digits_stop (a r : string) :
  all_digits a = true ->
  (forall c r', r = String c r' -> Re.is_digit c = false) ->
  Re.span_digits (a +:+ r) = (a, r).
Proof.
  intros Ha Hr. induction a as [| c a IH].
  - rewrite append_empty. destruct r as [| c r']; [reflexivity |].
    cbn [Re.span_digits]. rewrite (Hr c r' eq_refl). reflexivity.
  - rewrite all_digits_cons in Ha. apply andb_prop in Ha. destruct Ha as [Hc Ha].
    rewrite append_cons. cbn [Re.span_digits]. rewrite Hc, (IH Ha). reflexivity.
Qed.

Lemma span_digits_prefix (a r : string) :
  all_digits a = true ->
  exists d r', Re.span_digits (a +:+ r) = (a +:+ d, r').
Proof.
  intros Ha. induction a as [| c a IH].
  - rewrite append_empty. destruct (Re.span_digits r) as [d r'] eqn:E.
    exists d, r'. reflexivity.
  - rewrite all_digits_cons in Ha. apply andb_prop in Ha. destruct Ha as [Hc Ha].
    destruct (IH Ha) as (d & r' & E). exists d, r'.
    rewrite !append_cons. cbn [Re.span_digits]. rewrite Hc, E. reflexivity.
Qed.

Lemma match_number_spec (s g r : string) :
  Re.match_number s = Some (g, r) -> s = g +:+ r /\ is_number g.
Proof.
  unfold Re.match_number.
  destruct (Re.span_digits s) as [d1 r1] eqn:E1.
  destruct (strip_prefix "." r1) as [r2 |] eqn:E2; [| discriminate].
  destruct (Re.span_digits r2) as [d2 r3] eqn:E3. intros [= <- <-].
  apply span_digits_spec in E1, E3. destruct E1 as (H1 & Hd1 & _).
  destruct E3 as (H3 & Hd2 & _). apply strip_prefix_Some in E2. split.
  - rewrite H1, E2, H3. rewrite !append_assoc3. reflexivity.
  - exists d1, d2. repeat split; assumption.
Qed.

Lemma match_here_spec (s g1 g2 : string) :
  Re.match_here s = Some (g1, g2) ->
  exists post, s = "Max=" +:+ g1 +:+ "," +:+ g2 +:+ post /\ is_number g1 /\ is_number g2.
Proof.
  unfold Re.match_here.
  destruct (strip_prefix "Max=" s) as [r0 |] eqn:E0; [| discriminate].
  destruct (Re.match_number r0) as [[h1 r1] |] eqn:E1; [| discriminate].
  destruct (strip_prefix "," r1) as [r2 |] eqn:E2; [| discriminate].
  destruct (Re.match_number r2) as [[h2 r3] |] eqn:E3; [| discriminate].
  intros [= <- <-]. apply strip_prefix_Some in E0, E2.
  apply match_number_spec in E1, E3. destruct E1 as [H1 N1]. destruct E3 as [H3 N3].
  exists r3. split; [| split; assumption].
  rewrite E0, H1, E2, H3. reflexivity.
Qed.

Lemma match_here_complete (a b c d post : string) :
  all_digits a = true -> all_digits b = true ->
  all_digits c = true -> all_digits d = true ->
  exists g2,
    Re.match_here ("Max=" +:+ a +:+ "." +:+ b +:+ "," +:+ c +:+ "." +:+ d +:+ post)
    = Some (a +:+ "." +:+ b, g2).
Proof.
  intros Ha Hb Hc Hd. unfold Re.match_here. rewrite strip_prefix_append.
  unfold Re.match_number at 1.
  rewrite (span_digits_stop a) by (try exact Ha; intros x r' [= <- _]; reflexivity).
  rewrite (strip_prefix_append ".").
  rewrite (span_digits_stop b) by (try exact Hb; intros x r' [= <- _]; reflexivity).
  rewrite (strip_prefix_append ",").
  unfold Re.match_number.
  rewrite (span_digits_stop c) by (try exact Hc; intros x r' [= <- _]; reflexivity).
  rewrite (strip_prefix_append ".").
  destruct (span_digits_prefix d post Hd) as (d' & r' & E). rewrite E.
  eexists. reflexivity.
Qed.

Lemma search_append (pre s : string) :
  Re.match_here s <> None -> Re.search (pre +:+ s) <> None.
Proof.
  intros Hs. induction pre as [| x pre IH].
  - rewrite append_empty. destruct s; cbn [Re.search];
      destruct (Re.match_here _); try discriminate; contradiction.
  - rewrite append_cons. cbn [Re.search].
    destruct (Re.match_here (String x (pre +:+ s))); [discriminate | exact IH].
Qed.

(** The search of [convert_geotiff] finds a match exactly when the text
    contains one.  What it returns is the leftmost occurrence of [Max=],
    a number, a comma and a number, each number being digits, a dot and
    digits; a sign, an exponent or a number without a dot is never part of
    a match. *)
Theorem search_finds_pattern :
  (forall s g1 g2, Re.search s = Some (g1, g2) ->
     exists pre post,
       s = pre +:+ "Max=" +:+ g1 +:+ "," +:+ g2 +:+ post /\
       is_number g1 /\ is_number g2 /\
       (forall p1 p2, pre = p1 +:+ p2 -> p2 <> "" ->
          Re.match_here (p2 +:+ "Max=" +:+ g1 +:+ "," +:+ g2 +:+ post) = None)) /\
  (forall pre a b c d post,
     all_digits a = true -> all_digits b = true ->
     all_digits c = true -> all_digits d = true ->
     Re.search (pre +:+ "Max=" +:+ a +:+ "." +:+ b +:+ "," +:+ c +:+ "." +:+ d +:+ post)
     <> None).
Proof.
  split.
  - induction s as [| x s IH]; intros g1 g2; cbn [Re.search].
    + destruct (Re.match_here "") as [g |] eqn:E; [| discriminate].
      vm_compute in E. discriminate.
    + destruct (Re.match_here (String x s)) as [g |] eqn:E.
      * intros [= ->]. destruct (match_here_spec _ _ _ E) as (post & Hs & N1 & N2).
        exists "", post. rewrite append_empty.
        split; [exact Hs |]. split; [exact N1 |]. split; [exact N2 |].
        intros p1 p2 Hp Hne. destruct p1; destruct p2; try discriminate. contradiction.
      * intros Hrest. destruct (IH g1 g2 Hrest) as (pre & post & Hs & N1 & N2 & Hleft).
        exists (String x pre), post. rewrite append_cons, <- Hs.
        split; [reflexivity |]. split; [exact N1 |]. split; [exact N2 |].
        intros p1 p2 Hp Hne. destruct p1 as [| y p1].
        -- rewrite append_empty in Hp. subst p2. rewrite append_cons, <- Hs. exact E.
        -- rewrite append_cons in Hp. injection Hp as _ Hp. exact (Hleft p1 p2 Hp Hne).
  - intros pre a b c d post Ha Hb Hc Hd. apply search_append.
    destruct (match_here_complete a b c d post Ha Hb Hc Hd) as [g2 E].
    rewrite E. discriminate.
Qed.

(** ** A conversion that succeeds *)

(** When both commands do their work, [convert_geotiff] writes the resized
    image next to the converted one, deletes the converted one and returns
    its name: the name returned is that of a file that no longer exists,
    and the file that stays is the one ending in [_GEXD_resized.png]. *)
Theorem convert_geotiff_success (enc : image -> option exn)
    (cmd : string -> gmap string node -> string * gmap string node)
    (ff : string -> result Z) (rs : image -> Z * Z -> result image)
    (input_dir filename output_dir : string) (w : world)
    (g1 g2 : string) (min max : Z) (img small : image) :
  let out1 := cmd (gdalinfo_cmd input_dir filename) (fs w) in
  let f2 := snd (cmd (translate_cmd input_dir filename output_dir min max) (snd out1)) in
  let output_path := path_join output_dir (output_filename filename) in
  let resized_path :=
    path_join output_dir
      (split0 "." filename +:+ converted_suffix +:+ "_resized." +:+ converted_format) in
  Re.search (fst out1) = Some (g1, g2) ->
  math_floor_float ff g1 = Ok min -> math_floor_float ff g2 = Ok max ->
  f2 !! output_path = Some (File (Png img)) ->
  rs img (Z.quot (width img) 2, Z.quot (height img) 2) = Ok small ->
  can_save enc f2 small resized_path = true ->
  exists w',
    convert_geotiff enc cmd ff rs input_dir filename output_dir w
      = (Ok (Some (output_filename filename)), w') /\
    fs w' = delete output_path (<[resized_path := File (Png small)]> f2) /\
    fs w' !! resized_path = Some (File (Png small)) /\
    fs w' !! output_path = None.
Proof.
  exact (convert_geotiff_run enc cmd ff rs input_dir filename output_dir w
           g1 g2 min max img small).
Qed.

Lemma convert_geotiff_success_witness :
  Re.search (fst (Sample.gdal Sample.gray_3x3 (gdalinfo_cmd "in" "a.tif")
                              (fs Sample.world_tif)))
    = Some ("1.000", "2.000") /\
  exists w',
    convert_geotiff Sample.encoder_ok (Sample.gdal Sample.gray_3x3) Sample.floor_text
                    Sample.same_image "in" "a.tif" "in" Sample.world_tif
      = (Ok (Some "a_GEXD.png"), w') /\
    fs w' !! "in/a_GEXD_resized.png" = Some (File (Png Sample.gray_3x3)) /\
    fs w' !! "in/a_GEXD.png" = None.
Proof.
  split; [reflexivity |].
  destruct (convert_geotiff_success Sample.encoder_ok (Sample.gdal Sample.gray_3x3)
              Sample.floor_text Sample.same_image "in" "a.tif" "in" Sample.world_tif
              "1.000" "2.000" 1 2 Sample.gray_3x3 Sample.gray_3x3)
    as (w' & Hrun & _ & Hres & Hout); try reflexivity.
  exists w'. split; [exact Hrun |]. split; [exact Hres | exact Hout].
Defined.

(** ** Numbers that cannot be read *)

Lemma for_each_raise {A St} (body : A -> St -> M St) (a : A) (rest : list A)
    (s : St) (w w' : world) (e : exn) :
  body a s w = (Raise e, w') -> for_each (a :: rest) body s w = (Raise e, w').
Proof. intros H. cbn [for_each]. unfold bind. rewrite H. reflexivity. Qed.

(** When the output of the inspection matches the pattern but one of the
    two numbers cannot be read ([float] or [math.floor] raises),
    [convert_geotiff] raises before the translation is run, and the loop of
    [gextool] ends with that exception: the remaining rasters are not
    converted.  Unlike a missing match, this failure is not skipped. *)
Theorem convert_geotiff_bad_number (enc : image -> option exn)
    (cmd : string -> gmap string node -> string * gmap string node)
    (ff : string -> result Z) (rs : image -> Z * Z -> result image)
    (input_dir filename output_dir : string) (w : world)
    (g1 g2 : string) (e : exn) :
  Re.search (fst (cmd (gdalinfo_cmd input_dir filename) (fs w))) = Some (g1, g2) ->
  math_floor_float ff g1 = Raise e \/
  (exists min, math_floor_float ff g1 = Ok min /\ math_floor_float ff g2 = Raise e) ->
  convert_geotiff enc cmd ff rs input_dir filename output_dir w
    = (Raise e, set_fs (snd (cmd (gdalinfo_cmd input_dir filename) (fs w)))
                       (say ("Converting: " +:+ filename) w)) /\
  (endswith filename ".tif" = true -> is_file (fs w) (gexd_file filename) = false ->
   forall (total n : Z) (rest : list string),
     fst (for_each (filename :: rest) (convert_step enc cmd ff rs input_dir total) n w)
     = Raise e).
Proof.
  intros Hsearch Hbad.
  assert (Hrun : forall od w0,
             fs w0 = fs w ->
             convert_geotiff enc cmd ff rs input_dir filename od w0
             = (Raise e, set_fs (snd (cmd (gdalinfo_cmd input_dir filename) (fs w)))
                                (say ("Converting: " +:+ filename) w0))).
  { intros od w0 Hw0. unfold convert_geotiff. cbv zeta.
    unfold bind at 1. unfold print at 1.
    unfold bind at 1. rewrite popen_read_run. rewrite !fs_say.
    fold (gdalinfo_cmd input_dir filename). rewrite Hw0, Hsearch.
    unfold bind at 1. unfold lift at 1.
    destruct Hbad as [H1 | [mn [H1 H2]]]; rewrite H1; [reflexivity |].
    unfold bind at 1. unfold lift at 1. rewrite H2. reflexivity. }
  split; [apply Hrun; reflexivity |].
  intros Htif Hno total n rest.
  erewrite for_each_raise; [reflexivity |].
  rewrite (convert_step_invokes enc cmd ff rs input_dir filename total n w Htif Hno).
  unfold bind at 1. unfold print at 1. unfold bind at 1.
  rewrite Hrun by reflexivity. reflexivity.
Qed.

Lemma convert_geotiff_bad_number_witness :
  Re.search (fst (Sample.gdal_dots (gdalinfo_cmd "in" "a.tif") (fs Sample.world_tif)))
    = Some (".", ".") /\
  fst (convert_geotiff Sample.encoder_ok Sample.gdal_dots Sample.no_float Sample.same_image
                       "in" "a.tif" "in" Sample.world_tif) = Raise ValueError.
Proof.
  split; [reflexivity |].
  rewrite (proj1 (convert_geotiff_bad_number Sample.encoder_ok Sample.gdal_dots
                    Sample.no_float Sample.same_image "in" "a.tif" "in" Sample.world_tif
                    "." "." ValueError eq_refl (or_introl eq_refl))).
  reflexivity.
Defined.

(** ** The output directory, when the first block returns *)

(** Whenever the first block of [gextool] returns, the output directory
    exists; the block has either changed nothing (the directory was there)
    or created exactly that directory and printed two lines, and the report
    of a failed creation is not among them. *)
Theorem ensure_output_dir_ok (output_dir : string) (w w' : world) :
  ensure_output_dir output_dir w = (Ok tt, w') ->
  dir_exists (fs w') output_dir = true /\
  (forall p, p <> output_dir -> fs w' !! p = fs w !! p) /\
  (w' = w \/
   (dir_exists (fs w) output_dir = false /\
    fs w' = <[output_dir := Dir]> (fs w) /\
    stdout w' = stdout w ++ ["output_dir not found, trying to create it...";
                             "Successfully created output_dir: " +:+ output_dir])).
Proof.
  rewrite ensure_output_dir_run.
  destruct (dir_exists (fs w) output_dir) eqn:Edir.
  - intros [= <-]. split; [exact Edir |]. split; [reflexivity | left; reflexivity].
  - destruct (mkdir output_dir _) as [[[] | e] w1] eqn:Emk; [| discriminate].
    intros [= <-]. pose proof (mkdir_ok_isdir _ _ _ Emk) as Hdir.
    unfold mkdir in Emk. rewrite fs_say in Emk.
    destruct (fs w !! output_dir); [discriminate |].
    destruct (String.eqb output_dir "" || negb (parent_exists (fs w) output_dir));
      [discriminate |].
    injection Emk as <-. split; [exact Hdir |]. split.
    + intros p Hp. rewrite fs_say, fs_set_fs. apply lookup_insert_ne.
      intros Heq. exact (Hp (eq_sym Heq)).
    + right. split; [reflexivity |]. split; [reflexivity |].
      unfold say, set_fs. simpl. rewrite <- app_assoc. reflexivity.
Qed.

Lemma ensure_output_dir_ok_witness :
  ensure_output_dir "tiles" Sample.world_tif
    = (Ok tt, snd (ensure_output_dir "tiles" Sample.world_tif)) /\
  dir_exists (fs (snd (ensure_output_dir "tiles" Sample.world_tif))) "tiles" = true.
Proof.
  assert (Hrun : ensure_output_dir "tiles" Sample.world_tif
                 = (Ok tt, snd (ensure_output_dir "tiles" Sample.world_tif)))
    by (vm_compute; reflexivity).
  split; [exact Hrun |].
  exact (proj1 (ensure_output_dir_ok "tiles" Sample.world_tif _ Hrun)).
Defined.

(** ** Skipping the rasters *)

Lemma outputs_only_refl (od : string) (w : world) : outputs_only od w w.
Proof. repeat split; trivial. Qed.

Lemma outputs_only_trans (od : string) (w1 w2 w3 : world) :
  outputs_only od w1 w2 -> outputs_only od w2 w3 -> outputs_only od w1 w3.
Proof.
  intros (A1 & B1 & C1) (A2 & B2 & C2). repeat split.
  - intros p Hp Ht. rewrite (A2 p Hp Ht). exact (A1 p Hp Ht).
  - intros p Hp. apply B2, B1, Hp.
  - intros p Hp. apply C2, C1, Hp.
Qed.

Lemma preserves_bind (od : string) {A B} (c : M A) (k : A -> M B) :
  preserves (outputs_only od) c -> (forall a, preserves (outputs_only od) (k a)) ->
  preserves (outputs_only od) (bind c k).
Proof.
  intros Hc Hk w. unfold bind. pose proof (Hc w) as H1.
  destruct (c w) as [[a | e] w1]; simpl in H1; [| exact H1].
  exact (outputs_only_trans _ _ _ _ H1 (Hk a w1)).
Qed.

Lemma preserves_ret (od : string) {A} (a : A) : preserves (outputs_only od) (ret a).
Proof. intros w. apply outputs_only_refl. Qed.

Lemma preserves_print (od line : string) : preserves (outputs_only od) (print line).
Proof. intros w. repeat split; trivial. Qed.

Lemma preserves_when (od : string) (b : bool) (c : M unit) :
  preserves (outputs_only od) c -> preserves (outputs_only od) (when b c).
Proof. intros Hc. destruct b; [exact Hc | apply preserves_ret]. Qed.

Lemma preserves_listdir (od p : string) : preserves (outputs_only od) (listdir p).
Proof.
  intros w. unfold listdir. destruct (dir_exists (fs w) p); apply outputs_only_refl.
Qed.

(** The names that [os.listdir] returns are names of entries: they hold no
    slash. *)
Lemma child_of_no_slash (p key n : string) :
  child_of p key = Some n -> has_slash n = false.
Proof.
  unfold child_of. destruct (strip_prefix (path_join p "") key) as [m |]; [| discriminate].
  destruct (String.eqb m "" || has_slash m) eqn:E; [discriminate |].
  intros [= <-]. apply orb_false_elim in E. exact (proj2 E).
Qed.

Lemma listdir_names (p : string) (w w' : world) (names : list string) :
  listdir p w = (Ok names, w') -> forall name, In name names -> has_slash name = false.
Proof.
  unfold listdir. destruct (dir_exists (fs w) p); [| discriminate].
  intros [= <- _] name Hin. apply list_elem_of_In, list_elem_of_omap in Hin.
  destruct Hin as (kv & _ & Hkv). exact (child_of_no_slash _ _ _ Hkv).
Qed.

Lemma preserves_bind_listdir (od p : string) {B} (k : list string -> M B) :
  (forall names, (forall name, In name names -> has_slash name = false) ->
                 preserves (outputs_only od) (k names)) ->
  preserves (outputs_only od) (bind (listdir p) k).
Proof.
  intros Hk w. unfold bind. pose proof (preserves_listdir od p w) as H1.
  destruct (listdir p w) as [[names | e] w1] eqn:El; simpl in H1; [| exact H1].
  exact (outputs_only_trans _ _ _ _ H1 (Hk names (listdir_names _ _ _ _ El) w1)).
Qed.

Lemma preserves_for_each_in (od : string) {A St} (body : A -> St -> M St)
    (l : list A) (s : St) :
  (forall a s', In a l -> preserves (outputs_only od) (body a s')) ->
  preserves (outputs_only od) (for_each l body s).
Proof.
  revert s. induction l as [| a l IH]; intros s Hbody; cbn [for_each].
  - apply preserves_ret.
  - apply preserves_bind.
    + apply Hbody. left. reflexivity.
    + intros s'. apply IH. intros a' s'' Hin. apply Hbody. right. exact Hin.
Qed.

(** The path of a tile of a file whose name holds no slash is that of an
    entry of the output directory. *)
Lemma contains_split0 (c sep : ascii) (s : string) :
  contains c s = false -> contains c (split0 sep s) = false.
Proof.
  induction s as [| x s IH]; [trivial |].
  rewrite contains_cons. intros H. apply orb_false_elim in H. destruct H as [Hx Hs].
  cbn [split0]. destruct (Ascii.eqb x sep); [reflexivity |].
  rewrite contains_cons, Hx. exact (IH Hs).
Qed.

Lemma no_slash_uint (d : Decimal.uint) :
  contains "/" (NilEmpty.string_of_uint d) = false.
Proof. induction d; cbn [NilEmpty.string_of_uint]; rewrite ?contains_cons; assumption || reflexivity. Qed.

Lemma no_slash_str (n : Z) : contains "/" (str n) = false.
Proof.
  unfold str. destruct (Z.to_int n) as [d | d]; cbn [NilZero.string_of_int].
  - unfold NilZero.string_of_uint. destruct d; try reflexivity;
      apply (no_slash_uint (_ d)).
  - rewrite contains_cons. unfold NilZero.string_of_uint. destruct d; try reflexivity;
      apply (no_slash_uint (_ d)).
Qed.

Lemma no_slash_zeros (k : nat) : contains "/" (zeros k) = false.
Proof. induction k as [| k IH]; [reflexivity |]. cbn [zeros]. rewrite contains_cons. exact IH. Qed.

Lemma no_slash_format (n : Z) : contains "/" (format_0_4 n) = false.
Proof.
  unfold format_0_4, rjust0. rewrite contains_append, no_slash_zeros, no_slash_str.
  reflexivity.
Qed.

Lemma append_empty_r (s : string) : s +:+ "" = s.
Proof. induction s as [| c s IH]; [reflexivity |]. rewrite append_cons, IH. reflexivity. Qed.

Lemma child_of_path_join (od n : string) :
  n <> "" -> has_slash n = false -> child_of od (path_join od n) = Some n.
Proof.
  intros Hne Hslash.
  assert (Hstart : startswith n "/" = false).
  { destruct n as [| c n]; [reflexivity |].
    unfold has_slash in Hslash. rewrite contains_cons in Hslash.
    apply orb_false_elim in Hslash. destruct Hslash as [Hc _].
    unfold startswith. cbn [String.prefix].
    destruct (ascii_dec "/" c) as [<- | _]; [discriminate | reflexivity]. }
  assert (Hjoin : path_join od n = path_join od "" +:+ n).
  { unfold path_join. rewrite Hstart. change (startswith "" "/") with false. cbv iota.
    destruct (String.eqb od "" || endswith od "/").
    - rewrite append_empty_r. reflexivity.
    - rewrite !append_assoc3, append_empty. reflexivity. }
  unfold child_of. rewrite Hjoin, strip_prefix_append, Hslash.
  destruct (String.eqb_spec n ""); [contradiction | reflexivity].
Qed.

Lemma tile_path_child (filename output_dir : string) (x y : Z) :
  has_slash filename = false ->
  child_of output_dir (tile_path filename output_dir x y)
  = Some (tile_name filename x y +:+ "." +:+ tile_format).
Proof.
  intros Hslash. unfold tile_path. apply child_of_path_join.
  - unfold tile_name. cbv zeta. rewrite !append_assoc3.
    destruct (split0 "." filename); rewrite ?append_cons, ?append_empty; discriminate.
  - unfold has_slash, tile_name, tile_format in *. cbv zeta.
    rewrite !contains_append, !no_slash_format.
    rewrite (contains_split0 "/" "." filename Hslash). reflexivity.
Qed.

Lemma preserves_for_each (od : string) {A St} (body : A -> St -> M St)
    (l : list A) (s : St) :
  (forall a s', preserves (outputs_only od) (body a s')) ->
  preserves (outputs_only od) (for_each l body s).
Proof.
  intros Hbody w. apply (for_each_preserves (outputs_only od)).
  - apply outputs_only_refl.
  - apply outputs_only_trans.
  - intros a s' w'. apply Hbody.
Qed.

Lemma preserves_ensure_output_dir (od : string) :
  preserves (outputs_only od) (ensure_output_dir od).
Proof.
  intros w. rewrite ensure_output_dir_run.
  destruct (dir_exists (fs w) od); [apply outputs_only_refl |].
  unfold mkdir. rewrite fs_say.
  destruct (fs w !! od) eqn:Eod; [repeat split; trivial |].
  destruct (String.eqb od "" || negb (parent_exists (fs w) od)); [repeat split; trivial |].
  simpl. repeat split.
  - intros p Hp _. apply lookup_insert_ne. intros Heq. exact (Hp (eq_sym Heq)).
  - intros p Hp. unfold is_file in *. simpl.
    destruct (decide (od = p)) as [<- | Hne].
    + rewrite Eod in Hp. discriminate.
    + rewrite lookup_insert_ne by exact Hne. exact Hp.
  - intros p Hp. unfold is_dir in *. simpl.
    destruct (decide (od = p)) as [<- | Hne].
    + rewrite lookup_insert_eq. reflexivity.
    + rewrite lookup_insert_ne by exact Hne. exact Hp.
Qed.

Lemma preserves_cut_tiles (enc : image -> option exn)
    (input_dir filename output_dir : string) (S : Z) (no_alpha : bool) :
  has_slash filename = false ->
  preserves (outputs_only output_dir)
            (cut_tiles enc input_dir filename output_dir S no_alpha).
Proof.
  intros Hslash w.
  destruct (cut_tiles_frame enc input_dir filename output_dir S no_alpha w)
    as (Hother & Hdir & Hfile & _).
  repeat split.
  - intros p _ Hc. apply Hother. intros x y ->.
    rewrite (tile_path_child filename output_dir x y Hslash) in Hc. discriminate.
  - exact Hfile.
  - intros p Hp. rewrite Hdir. exact Hp.
Qed.

(** With [skip_tif] the run of [gextool] does not depend on the external
    commands, on the reading of numbers or on resizing (none of them is
    used), and whether it returns or raises it has only created the output
    directory and written entries that lie directly in it: every other
    path holds what it held, and no file or directory has disappeared. *)
Theorem gextool_skip_tif (enc : image -> option exn)
    (cmd cmd' : string -> gmap string node -> string * gmap string node)
    (ff ff' : string -> result Z) (rs rs' : image -> Z * Z -> result image)
    (input_dir output_dir : string) (tile_size : Z) (no_alpha : bool) (w : world) :
  gextool enc cmd ff rs input_dir output_dir tile_size no_alpha true w
    = gextool enc cmd' ff' rs' input_dir output_dir tile_size no_alpha true w /\
  outputs_only output_dir w
    (snd (gextool enc cmd ff rs input_dir output_dir tile_size no_alpha true w)).
Proof.
  split; [reflexivity |].
  revert w. change (preserves (outputs_only output_dir)
                      (gextool enc cmd ff rs input_dir output_dir tile_size no_alpha true)).
  unfold gextool. cbv zeta.
  repeat (first
    [ apply preserves_ensure_output_dir
    | apply preserves_cut_tiles; solve [eauto]
    | apply preserves_print
    | apply preserves_ret
    | apply preserves_bind_listdir; intros ? ?
    | apply preserves_when
    | apply preserves_for_each_in; intros ? ? ?
    | apply preserves_bind; [| intro]
    | match goal with
      | |- preserves _ (count_step _ _ _) => unfold count_step
      | |- preserves _ (if ?b then _ else _) => destruct b
      end ]).
Qed.

(** ** The names that the loops of [gextool] look for *)


(** ** The width of a padded coordinate *)

Lemma of_uint_acc_bound (d : Decimal.uint) (acc : positive) :
  Z.pos (Pos.of_uint_acc d acc)
  < (Z.pos acc + 1) * 10 ^ Z.of_nat (String.length (NilEmpty.string_of_uint d)).
Proof.
  revert acc.
  induction d as [| d IH | d IH | d IH | d IH | d IH | d IH | d IH | d IH | d IH | d IH];
    intros acc; cbn [Pos.of_uint_acc NilEmpty.string_of_uint String.length];
    [simpl; lia | ..];
    (rewrite Nat2Z.inj_succ, Z.pow_succ_r by lia;
     match goal with
     | |- Z.pos (Pos.of_uint_acc d ?a) < _ => specialize (IH a)
     end;
     rewrite ?Pos2Z.inj_add, ?Pos2Z.inj_mul in IH;
     pose proof (Z.pow_pos_nonneg 10 (Z.of_nat (String.length (NilEmpty.string_of_uint d)))
                   ltac:(lia) ltac:(lia));
     nia).
Qed.

Lemma of_uint_bound (d : Decimal.uint) :
  Z.of_uint d < 10 ^ Z.of_nat (String.length (NilEmpty.string_of_uint d)).
Proof.
  unfold Z.of_uint.
  induction d as [| d IH | d IH | d IH | d IH | d IH | d IH | d IH | d IH | d IH | d IH];
    cbn [Pos.of_uint NilEmpty.string_of_uint String.length];
    [simpl; lia | ..];
    rewrite Nat2Z.inj_succ, Z.pow_succ_r by lia;
    pose proof (Z.pow_pos_nonneg 10 (Z.of_nat (String.length (NilEmpty.string_of_uint d)))
                  ltac:(lia) ltac:(lia));
    [lia | ..];
    (match goal with
     | |- Z.of_N (N.pos (Pos.of_uint_acc d ?a)) < _ =>
         pose proof (of_uint_acc_bound d a)
     end; simpl Z.of_N; nia).
Qed.

Lemma length_zeros (k : nat) : String.length (zeros k) = k.
Proof. induction k as [| k IH]; [reflexivity |]. cbn [zeros String.length]. rewrite IH. reflexivity. Qed.

(** The text of a coordinate always has at least four characters; a
    coordinate of 10000 or more is written with all its digits and without
    padding, so that its text is longer than four characters and equal to
    [str(n)]. *)
Theorem format_0_4_width (n : Z) :
  0 <= n ->
  (4 <= String.length (format_0_4 n))%nat /\
  String.length (format_0_4 n) = Nat.max 4 (String.length (str n)) /\
  n < 10 ^ Z.of_nat (String.length (str n)) /\
  (10000 <= n -> format_0_4 n = str n /\ (5 <= String.length (str n))%nat).
Proof.
  intros Hn.
  assert (Hlen : String.length (format_0_4 n) = Nat.max 4 (String.length (str n))).
  { unfold format_0_4, rjust0. rewrite length_append, length_zeros. lia. }
  assert (Hbound : n < 10 ^ Z.of_nat (String.length (str n))).
  { destruct (str_nonneg n Hn) as (d & -> & <-). apply of_uint_bound. }
  split; [lia |]. split; [exact Hlen |]. split; [exact Hbound |].
  intros Hbig.
  assert (H5 : (5 <= String.length (str n))%nat).
  { destruct (Nat.le_gt_cases 5 (String.length (str n))) as [H | H]; [exact H |].
    exfalso.
    assert (Hpow : 10 ^ Z.of_nat (String.length (str n)) <= 10 ^ 4)
      by (apply Z.pow_le_mono_r; lia).
    change (10 ^ 4) with 10000 in Hpow. lia. }
  split; [| exact H5].
  unfold format_0_4, rjust0.
  replace (4 - String.length (str n))%nat with 0%nat by lia. reflexivity.
Qed.

Lemma format_0_4_width_witness :
  0 <= 12800 /\ format_0_4 12800 = str 12800 /\ (5 <= String.length (str 12800))%nat.
Proof.
  split; [lia |].
  exact (proj2 (proj2 (proj2 (format_0_4_width 12800 ltac:(lia)))) ltac:(lia)).
Defined.

(** ** Reading the tiles back *)

Lemma split0_dot_zeros (k : nat) (s : string) :
  split0 "." (zeros k +:+ s) = zeros k +:+ split0 "." s.
Proof.
  induction k as [| k IH]; [reflexivity |].
  cbn [zeros]. rewrite !append_cons. cbn [split0]. rewrite IH. reflexivity.
Qed.

Lemma split0_dot_digits (d : Decimal.uint) (r : string) :
  split0 "." (NilEmpty.string_of_uint d +:+ String "." r) = NilEmpty.string_of_uint d.
Proof.
  induction d; cbn [NilEmpty.string_of_uint];
    rewrite ?append_cons, ?append_empty; cbn [split0]; rewrite ?IHd; reflexivity.
Qed.

Lemma split0_dot_format (n : Z) (r : string) :
  0 <= n -> split0 "." (format_0_4 n +:+ String "." r) = format_0_4 n.
Proof.
  intros Hn. unfold format_0_4, rjust0. rewrite append_assoc3, split0_dot_zeros.
  destruct (str_nonneg n Hn) as (d & -> & _). rewrite split0_dot_digits. reflexivity.
Qed.

(** Two tiles of one file at different origins have different paths. *)
Lemma tile_path_inj (filename output_dir : string) (x y x' y' : Z) :
  0 <= x -> 0 <= y -> 0 <= x' -> 0 <= y' ->
  tile_path filename output_dir x y = tile_path filename output_dir x' y' ->
  x = x' /\ y = y'.
Proof.
  intros Hx Hy Hx' Hy' Heq. unfold tile_path, tile_name, tile_format in Heq.
  cbv zeta in Heq. rewrite !append_assoc3 in Heq.
  apply path_join_same_stem in Heq; [| reflexivity | reflexivity].
  rewrite !append_cons, !append_empty in Heq. injection Heq as Heq.
  assert (Hfx : format_0_4 x = format_0_4 x').
  { apply (f_equal (split0 "_")) in Heq.
    rewrite !split0_format in Heq by assumption. exact Heq. }
  rewrite Hfx in Heq. apply append_inv_head in Heq. injection Heq as Heq.
  assert (Hfy : format_0_4 y = format_0_4 y').
  { apply (f_equal (split0 ".")) in Heq.
    rewrite !split0_dot_format in Heq by assumption. exact Heq. }
  split; apply format_0_4_inj; assumption.
Qed.

Lemma write_all_cons (filename output_dir : string) (img : image) (S : Z)
    (o : Z * Z) (os : list (Z * Z)) (f : gmap string node) :
  write_all filename output_dir img S (o :: os) f
  = write_all filename output_dir img S os
      (<[tile_path filename output_dir (fst o) (snd o) := File (Png (tile_of img S o))]> f).
Proof. reflexivity. Qed.

Lemma write_all_other (filename output_dir : string) (img : image) (S : Z)
    (os : list (Z * Z)) (f : gmap string node) (p : string) :
  (forall o, In o os -> tile_path filename output_dir (fst o) (snd o) <> p) ->
  write_all filename output_dir img S os f !! p = f !! p.
Proof.
  unfold write_all. revert f. induction os as [| o os IH]; intros f Hp; cbn [fold_left].
  - reflexivity.
  - rewrite IH by (intros o' Hin; apply Hp; right; exact Hin).
    apply lookup_insert_ne. apply Hp. left. reflexivity.
Qed.

Lemma write_all_lookup (filename output_dir : string) (img : image) (S : Z)
    (os : list (Z * Z)) (f : gmap string node) (o : Z * Z) :
  (forall o1 o2, In o1 os -> In o2 os ->
     tile_path filename output_dir (fst o1) (snd o1)
     = tile_path filename output_dir (fst o2) (snd o2) -> o1 = o2) ->
  List.NoDup os -> In o os ->
  write_all filename output_dir img S os f !! tile_path filename output_dir (fst o) (snd o)
  = Some (File (Png (tile_of img S o))).
Proof.
  intros Hinj Hnd. revert f. induction Hnd as [| a os Ha Hnd IH]; intros f Hin.
  - destruct Hin.
  - rewrite write_all_cons.
    destruct Hin as [-> | Hin].
    + rewrite write_all_other; [apply lookup_insert_eq |].
      intros o' Hin' Heq. apply Ha.
      rewrite <- (Hinj o' o (or_intror Hin') (or_introl eq_refl) Heq). exact Hin'.
    + apply IH; [| exact Hin].
      intros o1 o2 H1 H2. apply Hinj; right; assumption.
Qed.

Lemma grid_paths_inj (filename output_dir : string) (W H S : Z) (o1 o2 : Z * Z) :
  1 <= S -> In o1 (grid W H S) -> In o2 (grid W H S) ->
  tile_path filename output_dir (fst o1) (snd o1)
  = tile_path filename output_dir (fst o2) (snd o2) -> o1 = o2.
Proof.
  intros H1 Hin1 Hin2 Heq. destruct o1 as [x y]. destruct o2 as [x' y'].
  apply In_grid in Hin1, Hin2. destruct Hin1 as [Hx Hy]. destruct Hin2 as [Hx' Hy'].
  apply (range_items_bounds _ _ _ H1) in Hx, Hy, Hx', Hy'.
  simpl in Heq. destruct (tile_path_inj filename output_dir x y x' y') as [-> ->];
    try lia; [exact Heq | reflexivity].
Qed.

(** Every tile that [cut_tiles] writes can be read back unchanged: after
    the run the path of the tile holds exactly the pixels that were cropped
    at its origin, no later tile having overwritten it.  Without the
    no-alpha policy this holds for every origin of the grid; with it, for
    the origins whose tile the classifier accepts, while the path of a
    rejected tile holds what it held before the run. *)
Theorem tiles_read_back (enc : image -> option exn)
    (input_dir filename output_dir : string) (S : Z) (img : image) (w : world) :
  fs w !! path_join input_dir filename = Some (File (Png img)) ->
  wf img -> 1 <= S -> (2 <= S \/ mode img <> "RGBA") ->
  (forall o, In o (grid (width img) (height img) S) ->
     can_save enc (fs w) (tile_of img S o)
              (tile_path filename output_dir (fst o) (snd o)) = true) ->
  (forall o, In o (grid (width img) (height img) S) ->
     let w' := snd (cut_tiles enc input_dir filename output_dir S false w) in
     Image_open (tile_path filename output_dir (fst o) (snd o)) w'
     = (Ok (tile_of img S o), w')) /\
  (forall o, In o (grid (width img) (height img) S) ->
     let w' := snd (cut_tiles enc input_dir filename output_dir S true w) in
     if transparent (tile_of img S o)
     then fs w' !! tile_path filename output_dir (fst o) (snd o)
          = fs w !! tile_path filename output_dir (fst o) (snd o)
     else Image_open (tile_path filename output_dir (fst o) (snd o)) w'
          = (Ok (tile_of img S o), w')).
Proof.
  intros Hfile Hwf H1 Hcase Hc.
  set (cands := grid (width img) (height img) S).
  set (w1 := say ("Cutting tiles from " +:+ filename) w).
  assert (Hinj : forall o1 o2, In o1 cands -> In o2 cands ->
             tile_path filename output_dir (fst o1) (snd o1)
             = tile_path filename output_dir (fst o2) (snd o2) -> o1 = o2)
    by (intros o1 o2; apply grid_paths_inj; exact H1).
  assert (Hnd : List.NoDup cands) by (apply NoDup_grid; exact H1).
  split.
  - intros o Hin w'. apply Image_open_run. unfold w', cut_tiles.
    rewrite (cut_tiles_open enc has_transparency input_dir filename output_dir S false img w
               Hfile H1).
    unfold bind. fold w1. fold cands.
    rewrite (keep_loop enc has_transparency img filename output_dir S cands 0 w1 H1 Hc).
    unfold ret. cbn [snd]. rewrite fs_keep_all.
    apply write_all_lookup; assumption.
  - assert (Hv : forall o, exists b line, verdict (tile_of img S o) = Ok (b, line)).
    { intros o. destruct (verdict_rules (tile_of img S o)) as (b & line & Hv & _).
      - apply tile_of_wf; assumption.
      - rewrite tile_of_mode. intros HA. destruct Hcase as [H2 | HnA].
        + apply tile_of_nonempty. exact H2.
        + contradiction.
      - exists b, line. exact Hv. }
    destruct (judge_loop enc img filename output_dir S cands 0 true w1 H1
                (fun o _ => Hv o) (fun o Hin _ => Hc o Hin)) as [sb Hloop].
    assert (Hfs : fs (snd (cut_tiles enc input_dir filename output_dir S true w))
                  = write_all filename output_dir img S (accepted img S cands) (fs w)).
    { unfold cut_tiles.
      rewrite (cut_tiles_open enc has_transparency input_dir filename output_dir S true img w
                 Hfile H1).
      unfold bind. fold w1. fold cands. rewrite Hloop. unfold ret. cbn [snd].
      rewrite fs_judge_all by (intros o _; apply Hv). reflexivity. }
    intros o Hin w'. unfold w'.
    destruct (transparent (tile_of img S o)) eqn:Etr.
    + rewrite Hfs. apply write_all_other. intros o' Hin' Heq.
      unfold accepted in Hin'. apply filter_In in Hin'. destruct Hin' as [Hin' Hacc].
      rewrite (Hinj o' o Hin' Hin Heq), Etr in Hacc. discriminate.
    + apply Image_open_run. rewrite Hfs. apply write_all_lookup.
      * intros o1 o2 Ho1 Ho2. unfold accepted in Ho1, Ho2.
        apply filter_In in Ho1, Ho2. apply Hinj; tauto.
      * unfold accepted. apply List.NoDup_filter. exact Hnd.
      * unfold accepted. apply filter_In. split; [exact Hin |]. rewrite Etr. reflexivity.
Qed.

Lemma tiles_read_back_witness :
  wf Sample.gray_3x3 /\ 1 <= 2 /\ In (2, 0) (grid 3 3 2) /\
  Image_open "out/a_GEXD_resized_0002_0000.png"
             (snd (cut_tiles Sample.encoder_ok "in" "a_GEXD_resized.png" "out" 2 false
                             (Sample.world_with Sample.gray_3x3)))
  = (Ok (tile_of Sample.gray_3x3 2 (2, 0)),
     snd (cut_tiles Sample.encoder_ok "in" "a_GEXD_resized.png" "out" 2 false
                    (Sample.world_with Sample.gray_3x3))).
Proof.
  assert (Hwf : wf Sample.gray_3x3) by sample_wf.
  split; [exact Hwf |]. split; [lia |].
  assert (Hin : In (2, 0) (grid 3 3 2)) by (right; right; left; reflexivity).
  split; [exact Hin |].
  assert (H1 : 1 <= 2) by lia. assert (H2 : 2 <= 2) by lia.
  refine (proj1 (tiles_read_back Sample.encoder_ok "in" "a_GEXD_resized.png" "out" 2
                   Sample.gray_3x3 (Sample.world_with Sample.gray_3x3)
                   eq_refl Hwf H1 (or_introl H2) _) (2, 0) Hin).
  intros o Ho. sample_origins Ho.
Defined.

(** ** Verbose logging *)

Lemma same_run_bind {A B} (c1 c2 : M A) (k1 k2 : A -> M B) :
  same_run c1 c2 -> (forall a, same_run (k1 a) (k2 a)) -> same_run (bind c1 k1) (bind c2 k2).
Proof.
  intros Hc Hk w1 w2 Hfs. unfold bind. destruct (Hc w1 w2 Hfs) as [Hr Hf].
  destruct (c1 w1) as [[a1 | e1] v1], (c2 w2) as [[a2 | e2] v2];
    simpl in Hr, Hf; try discriminate.
  - injection Hr as ->. apply Hk. exact Hf.
  - injection Hr as ->. split; [reflexivity | exact Hf].
Qed.

Lemma same_run_ret {A} (a : A) : same_run (ret a) (ret a).
Proof. intros w1 w2 Hfs. split; [reflexivity | exact Hfs]. Qed.

Lemma same_run_lift {A} (r : result A) : same_run (lift r) (lift r).
Proof. intros w1 w2 Hfs. split; [reflexivity | exact Hfs]. Qed.

Lemma same_run_print (a b : string) : same_run (print a) (print b).
Proof. intros w1 w2 Hfs. split; [reflexivity | exact Hfs]. Qed.

Lemma same_run_when_print (d1 d2 : bool) (a : string) :
  same_run (when d1 (print a)) (when d2 (print a)).
Proof. intros w1 w2 Hfs. destruct d1, d2; split; solve [reflexivity | exact Hfs]. Qed.

Lemma same_run_when_print2 (d1 d2 : bool) (a b : string) :
  same_run (when d1 (print a ;; print b)) (when d2 (print a ;; print b)).
Proof. intros w1 w2 Hfs. destruct d1, d2; split; solve [reflexivity | exact Hfs]. Qed.

Lemma same_run_when (b : bool) (c1 c2 : M unit) :
  same_run c1 c2 -> same_run (when b c1) (when b c2).
Proof. intros Hc. destruct b; [exact Hc | apply same_run_ret]. Qed.

Lemma same_run_get_debug {B} (k1 k2 : bool -> M B) :
  (forall d1 d2, same_run (k1 d1) (k2 d2)) -> same_run (bind get_debug k1) (bind get_debug k2).
Proof. intros Hk w1 w2 Hfs. unfold bind, get_debug. apply Hk. exact Hfs. Qed.

Lemma same_run_for_each {A St} (b1 b2 : A -> St -> M St) (l : list A) (s : St) :
  (forall a s, same_run (b1 a s) (b2 a s)) -> same_run (for_each l b1 s) (for_each l b2 s).
Proof.
  intros Hb. revert s. induction l as [| a l IH]; intros s; cbn [for_each].
  - apply same_run_ret.
  - apply same_run_bind; [apply Hb | exact IH].
Qed.

Ltac files_only :=
  let w1 := fresh "w" in let w2 := fresh "w" in let Hfs := fresh "Hfs" in
  intros w1 w2 Hfs; rewrite Hfs;
  repeat match goal with
         | |- context [match ?x with _ => _ end] => destruct x
         end;
  cbn [fst snd fs set_fs]; split; solve [reflexivity | exact Hfs | congruence].

Lemma same_run_isdir (p : string) : same_run (isdir p) (isdir p).
Proof. unfold isdir. files_only. Qed.

Lemma same_run_isfile (p : string) : same_run (isfile p) (isfile p).
Proof. unfold isfile. files_only. Qed.

Lemma same_run_listdir (p : string) : same_run (listdir p) (listdir p).
Proof. unfold listdir. files_only. Qed.

Lemma same_run_mkdir (p : string) : same_run (mkdir p) (mkdir p).
Proof. unfold mkdir. files_only. Qed.

Lemma same_run_remove (p : string) : same_run (remove p) (remove p).
Proof. unfold remove. files_only. Qed.

Lemma same_run_Image_open (p : string) : same_run (Image_open p) (Image_open p).
Proof. unfold Image_open. files_only. Qed.

Lemma same_run_save (enc : image -> option exn) (img : image) (p : string) :
  same_run (save enc img p) (save enc img p).
Proof. unfold save, write_image. files_only. Qed.

Lemma same_run_popen_read (cmd : string -> gmap string node -> string * gmap string node)
    (c : string) : same_run (popen_read cmd c) (popen_read cmd c).
Proof. unfold popen_read. files_only. Qed.

Lemma same_run_has_transparency (img : image) :
  same_run (has_transparency img) (has_transparency img).
Proof.
  intros w1 w2 Hfs. rewrite !has_transparency_run.
  destruct (verdict img) as [[b line] | e]; split; solve [reflexivity | exact Hfs].
Qed.

Ltac same_run_step :=
  first
    [ apply same_run_ret
    | apply same_run_lift
    | apply same_run_print
    | apply same_run_when_print
    | apply same_run_when_print2
    | apply same_run_isdir
    | apply same_run_isfile
    | apply same_run_listdir
    | apply same_run_mkdir
    | apply same_run_remove
    | apply same_run_Image_open
    | apply same_run_save
    | apply same_run_popen_read
    | apply same_run_has_transparency
    | apply same_run_get_debug; intros ? ?
    | apply same_run_when
    | apply same_run_for_each; intros ? ?
    | apply same_run_bind; [| intros ?] ].

Lemma same_run_cut_tiles (enc : image -> option exn)
    (input_dir filename output_dir : string) (S : Z) (no_alpha : bool) :
  same_run (cut_tiles enc input_dir filename output_dir S no_alpha)
           (cut_tiles enc input_dir filename output_dir S no_alpha).
Proof.
  unfold cut_tiles, cut_tiles_with.
  apply same_run_bind; [apply same_run_print | intros _].
  apply same_run_bind; [apply same_run_Image_open | intros img].
  destruct (size img) as [W H].
  apply same_run_bind; [apply same_run_lift | intros xs].
  apply same_run_bind; [| intros st; apply same_run_ret].
  apply same_run_for_each. intros x st.
  apply same_run_bind; [apply same_run_lift | intros ys].
  apply same_run_for_each. intros y [n keep]. unfold tile_step.
  apply same_run_bind; [apply same_run_lift | intros tile].
  apply same_run_bind.
  - destruct no_alpha; repeat same_run_step.
  - intros [|]; repeat same_run_step.
Qed.

Lemma same_run_convert_geotiff (enc : image -> option exn)
    (cmd : string -> gmap string node -> string * gmap string node)
    (ff : string -> result Z) (rs : image -> Z * Z -> result image)
    (input_dir filename output_dir : string) :
  same_run (convert_geotiff enc cmd ff rs input_dir filename output_dir)
           (convert_geotiff enc cmd ff rs input_dir filename output_dir).
Proof.
  unfold convert_geotiff. cbv zeta.
  apply same_run_bind; [apply same_run_print | intros _].
  apply same_run_bind; [apply same_run_popen_read | intros output].
  destruct (Re.search output) as [[g1 g2] |]; [| repeat same_run_step].
  apply same_run_bind; [apply same_run_lift | intros min].
  apply same_run_bind; [apply same_run_lift | intros max].
  apply same_run_get_debug. intros d1 d2.
  apply same_run_bind; [apply same_run_when_print2 | intros _].
  apply same_run_bind; [apply same_run_when_print | intros _].
  apply same_run_bind; [apply same_run_popen_read | intros _].
  apply same_run_bind; [apply same_run_isfile | intros [|]]; [| repeat same_run_step].
  apply same_run_bind; [apply same_run_Image_open | intros img].
  destruct (size img) as [W H]. repeat same_run_step.
Qed.

Lemma same_run_gextool (enc : image -> option exn)
    (cmd : string -> gmap string node -> string * gmap string node)
    (ff : string -> result Z) (rs : image -> Z * Z -> result image)
    (input_dir output_dir : string) (tile_size : Z) (no_alpha skip_tif : bool) :
  same_run (gextool enc cmd ff rs input_dir output_dir tile_size no_alpha skip_tif)
           (gextool enc cmd ff rs input_dir output_dir tile_size no_alpha skip_tif).
Proof.
  unfold gextool. cbv zeta.
  apply same_run_bind; [apply same_run_print | intros _].
  apply same_run_bind.
  { unfold ensure_output_dir.
    apply same_run_bind; [apply same_run_isdir | intros there].
    apply same_run_when.
    apply same_run_bind; [apply same_run_print | intros _].
    apply same_run_bind; [apply same_run_mkdir | intros _].
    apply same_run_bind; [apply same_run_isdir | intros [|]]; repeat same_run_step. }
  intros _. apply same_run_bind.
  { destruct skip_tif; [repeat same_run_step |].
    apply same_run_bind; [apply same_run_listdir | intros names].
    apply same_run_bind.
    { apply same_run_for_each. intros name n. unfold count_step.
      destruct (endswith name ".tif"); apply same_run_ret. }
    intros total.
    apply same_run_bind; [apply same_run_when_print | intros _].
    apply same_run_bind; [apply same_run_print | intros _].
    apply same_run_bind; [apply same_run_listdir | intros names2].
    apply same_run_bind; [| intros _; apply same_run_ret].
    apply same_run_for_each. intros name n. unfold convert_step.
    destruct (endswith name ".tif"); [| apply same_run_ret].
    apply same_run_bind; [apply same_run_isfile | intros [|]]; [repeat same_run_step |].
    apply same_run_bind; [apply same_run_print | intros _].
    apply same_run_bind; [apply same_run_convert_geotiff | intros _].
    apply same_run_ret. }
  intros total.
  apply same_run_bind; [apply same_run_listdir | intros names].
  apply same_run_bind.
  { apply same_run_for_each. intros name n. unfold count_step.
    destruct (endswith name _); apply same_run_ret. }
  intros gexd.
  apply same_run_bind; [apply same_run_when_print | intros _].
  apply same_run_bind; [apply same_run_print | intros _].
  apply same_run_bind; [apply same_run_listdir | intros names3].
  apply same_run_bind.
  { apply same_run_for_each. intros name n.
    destruct (endswith name _); [| apply same_run_ret].
    apply same_run_bind; [apply same_run_cut_tiles | intros count].
    apply same_run_ret. }
  intros tiles.
  apply same_run_bind; [apply same_run_print | intros _].
  apply same_run_bind; [apply same_run_print | intros _].
  apply same_run_bind; [destruct no_alpha; apply same_run_print | intros _].
  apply same_run_print.
Qed.

(** The [debug] flag and what was printed before change only what is
    printed: with the same files at the start, [gextool], [cut_tiles] and
    [convert_geotiff] return or raise the same and leave the same files,
    whatever the flag is and whatever the output held. *)
Theorem debug_changes_only_output (enc : image -> option exn)
    (cmd : string -> gmap string node -> string * gmap string node)
    (ff : string -> result Z) (rs : image -> Z * Z -> result image)
    (w : world) (out : list string) (d : bool) :
  let w2 := {| fs := fs w; stdout := out; debug := d |} in
  (forall input_dir output_dir tile_size no_alpha skip_tif,
     let run := gextool enc cmd ff rs input_dir output_dir tile_size no_alpha skip_tif in
     fst (run w2) = fst (run w) /\ fs (snd (run w2)) = fs (snd (run w))) /\
  (forall input_dir filename output_dir tile_size no_alpha,
     let run := cut_tiles enc input_dir filename output_dir tile_size no_alpha in
     fst (run w2) = fst (run w) /\ fs (snd (run w2)) = fs (snd (run w))) /\
  (forall input_dir filename output_dir,
     let run := convert_geotiff enc cmd ff rs input_dir filename output_dir in
     fst (run w2) = fst (run w) /\ fs (snd (run w2)) = fs (snd (run w))).
Proof.
  intros w2. split; [| split]; intros; subst run.
  - apply same_run_gextool. reflexivity.
  - apply same_run_cut_tiles. reflexivity.
  - apply same_run_convert_geotiff. reflexivity.
Qed.
